(** * BDR conflict logging, keyed row lookup and last-update-wins

    A shallow embedding of the conflict-handling core of BDR
    (bdr_conflict_logging.c, the index lookup of bdr_executor.c and the
    record types of bdr.h), with the PostgreSQL services these functions call
    (syscache, transaction context, replication-origin registry, heap and
    index access) kept as explicit parameters.

    C control flow is embedded in an error monad: [elog(ERROR)] and
    [ereport(ERROR)] leave the function with [Raise], which is what aborts the
    enclosing apply transaction; everything else returns [Ok]. *)

From stdpp Require Import base option list gmap strings pretty.
From Stdlib Require Import ZArith NArith Lia.

Open Scope string_scope.

(** ** PostgreSQL scalar types and constants *)

Module Pg.

Abbreviation Oid := N.
Abbreviation TransactionId := N.
Abbreviation XLogRecPtr := N.
Abbreviation TimestampTz := Z.
Abbreviation RepOriginId := N.

Definition InvalidOid : Oid := 0%N.
Definition InvalidTransactionId : TransactionId := 0%N.
Definition FrozenTransactionId : TransactionId := 2%N.
Definition FirstNormalTransactionId : TransactionId := 3%N.
Definition InvalidRepOriginId : RepOriginId := 0%N.

Definition TransactionIdIsValid (xid : TransactionId) : bool :=
  negb (xid =? InvalidTransactionId)%N.

End Pg.
Import Pg.

(** ** Errors *)

Module Err.

(** How a call can leave its function other than by returning. *)
Inductive Failure : Type :=
| ERROR (msg : string)         (* elog(ERROR, ...) or ereport(ERROR, ...) *)
| AssertFailure (cond : string) (* Assert(...) in an assert-enabled build *)
| NullDereference               (* a NULL pointer is read *)
| InvalidPointer.               (* a Datum that is no pointer is read as one *)

Inductive Result (A : Type) : Type :=
| Ok (a : A)
| Raise (f : Failure).
Global Arguments Ok {A} a.
Global Arguments Raise {A} f.

Global Instance result_ret : MRet Result := fun A a => Ok a.
Global Instance result_bind : MBind Result := fun A B k m =>
  match m with
  | Ok a => k a
  | Raise f => Raise f
  end.

Definition is_Ok {A} (r : Result A) : bool :=
  match r with Ok _ => true | Raise _ => false end.

(** [Assert(cond)]: checked only when the build has assertions on. *)
Definition Assert (use_assert_checking : bool) (cond : bool) (text : string)
  : Result unit :=
  if use_assert_checking && negb cond then Raise (AssertFailure text)
  else Ok tt.

End Err.
Import Err.

(** ** Data model (bdr.h) *)

Module Model.

(** BDRNodeId: (sysid, timeline, dboid); uint64, uint32, uint32. *)
Record BDRNodeId : Type := mkNodeId {
  sysid : N;
  timeline : N;
  dboid : N
}.

Global Instance BDRNodeId_eq_dec : EqDecision BDRNodeId.
Proof. solve_decision. Defined.

Inductive BdrConflictType : Type :=
| BdrConflictType_InsertInsert
| BdrConflictType_InsertUpdate
| BdrConflictType_UpdateUpdate
| BdrConflictType_UpdateDelete
| BdrConflictType_DeleteDelete
| BdrConflictType_UnhandledTxAbort.

Inductive BdrConflictResolution : Type :=
| BdrConflictResolution_ConflictTriggerSkipChange
| BdrConflictResolution_ConflictTriggerReturnedTuple
| BdrConflictResolution_LastUpdateWins_KeepLocal
| BdrConflictResolution_LastUpdateWins_KeepRemote
| BdrConflictResolution_DefaultApplyChange
| BdrConflictResolution_DefaultSkipChange
| BdrConflictResolution_UnhandledTxAbort.

Global Instance BdrConflictType_eq_dec : EqDecision BdrConflictType.
Proof. solve_decision. Defined.
Global Instance BdrConflictResolution_eq_dec : EqDecision BdrConflictResolution.
Proof. solve_decision. Defined.

(** A heap tuple as the functions below read it: the inserting
    transaction, the row type it carries, and per column either NULL
    ([None]) or the column's Datum word. *)
Record HeapTupleHeaderData : Type := mkTuple {
  t_xmin : TransactionId;
  t_typeid : Oid;
  t_typmod : Z;
  t_cols : list (option N)
}.

(** A Datum that holds a composite value: [(Datum) 0] or a pointer to a
    tuple header. *)
Inductive CompositeDatum : Type :=
| NullDatum
| HeapTupleHeaderGetDatum (td : HeapTupleHeaderData).

(** The Datums stored into a bdr.bdr_conflict_history row, by the macro
    that builds them; [DatumZero] is [(Datum) 0], [JsonDatum] what
    row_to_json returns. *)
Inductive Datum : Type :=
| DatumZero
| Int64GetDatum (v : Z)
| Int32GetDatum (v : Z)
| TransactionIdGetDatum (xid : TransactionId)
| LSNGetDatum (lsn : XLogRecPtr)
| TimestampTzGetDatum (ts : TimestampTz)
| ObjectIdGetDatum (oid : Oid)
| CStringGetTextDatum (s : string)
| JsonDatum (s : string).

Global Instance Datum_eq_dec : EqDecision Datum.
Proof. solve_decision. Defined.

(** A formed tuple of the history table: per column [None] for SQL NULL
    or the stored Datum. *)
Definition HistoryRow : Type := list (option Datum).

(** A HeapTupleTableSlot; a [TupleTableSlot *] argument is an
    [option TupleTableSlot], [None] for NULL. *)
Record TupleTableSlot : Type := mkSlot {
  tts_tuple : HeapTupleHeaderData
}.

Definition ExecFetchSlotHeapTupleDatum (slot : TupleTableSlot) : CompositeDatum :=
  HeapTupleHeaderGetDatum (tts_tuple slot).

Record FormData_pg_attribute : Type := mkAttr {
  attname : string;
  atttypid : Oid;
  attnum : Z;
  attisdropped : bool
}.

(** A TupleDesc is its attribute array; natts is its length. *)
Definition TupleDesc : Type := list FormData_pg_attribute.

Record FormData_pg_type : Type := mkType {
  typname : string
}.

(** The relation a conflict is about: what RelationGetRelationName and
    RelationGetNamespace read from it. *)
Record BDRRelation : Type := mkRel {
  rd_relname : string;
  rd_relnamespace : Oid
}.

(** ErrorData, the fields the conflict log stores; a [char *] field is an
    [option string], [None] for NULL. *)
Record ErrorData : Type := mkErrorData {
  message : option string;
  sqlerrcode : Z;
  cursorpos : Z;
  detail : option string;
  hint : option string;
  context : option string;
  schema_name : option string;
  table_name : option string;
  column_name : option string;
  datatype_name : option string;
  constraint_name : option string;
  filename : option string;
  lineno : Z;
  funcname : option string
}.

Record BdrApplyConflict : Type := mkConflict {
  local_conflict_txid : TransactionId;
  local_conflict_lsn : XLogRecPtr;
  local_conflict_time : TimestampTz;
  object_schema : option string;
  object_name : option string;
  remote_node : BDRNodeId;
  remote_txid : TransactionId;
  remote_commit_time : TimestampTz;
  remote_commit_lsn : XLogRecPtr;
  conflict_type : BdrConflictType;
  conflict_resolution : BdrConflictResolution;
  local_tuple_null : bool;
  local_tuple : CompositeDatum;
  local_tuple_xmin : TransactionId;
  local_tuple_origin_node : BDRNodeId;
  local_commit_time : TimestampTz;
  remote_tuple_null : bool;
  remote_tuple : CompositeDatum;
  apply_error : option ErrorData
}.

(** [palloc0(sizeof(BdrApplyConflict))]: every field zero. The first
    enumerator of each enum is the zero value. *)
Definition palloc0_BdrApplyConflict : BdrApplyConflict :=
  {| local_conflict_txid := 0%N;
     local_conflict_lsn := 0%N;
     local_conflict_time := 0%Z;
     object_schema := None;
     object_name := None;
     remote_node := mkNodeId 0 0 0;
     remote_txid := 0%N;
     remote_commit_time := 0%Z;
     remote_commit_lsn := 0%N;
     conflict_type := BdrConflictType_InsertInsert;
     conflict_resolution := BdrConflictResolution_ConflictTriggerSkipChange;
     local_tuple_null := false;
     local_tuple := NullDatum;
     local_tuple_xmin := 0%N;
     local_tuple_origin_node := mkNodeId 0 0 0;
     local_commit_time := 0%Z;
     remote_tuple_null := false;
     remote_tuple := NullDatum;
     apply_error := None |}.

(** Field assignments [conflict->f = v]. *)
Definition set_local_conflict_txid v c :=
  mkConflict v (local_conflict_lsn c) (local_conflict_time c)
    (object_schema c) (object_name c) (remote_node c) (remote_txid c)
    (remote_commit_time c) (remote_commit_lsn c) (conflict_type c)
    (conflict_resolution c) (local_tuple_null c) (local_tuple c)
    (local_tuple_xmin c) (local_tuple_origin_node c) (local_commit_time c)
    (remote_tuple_null c) (remote_tuple c) (apply_error c).
Definition set_local_conflict_lsn v c :=
  mkConflict (local_conflict_txid c) v (local_conflict_time c)
    (object_schema c) (object_name c) (remote_node c) (remote_txid c)
    (remote_commit_time c) (remote_commit_lsn c) (conflict_type c)
    (conflict_resolution c) (local_tuple_null c) (local_tuple c)
    (local_tuple_xmin c) (local_tuple_origin_node c) (local_commit_time c)
    (remote_tuple_null c) (remote_tuple c) (apply_error c).
Definition set_local_conflict_time v c :=
  mkConflict (local_conflict_txid c) (local_conflict_lsn c) v
    (object_schema c) (object_name c) (remote_node c) (remote_txid c)
    (remote_commit_time c) (remote_commit_lsn c) (conflict_type c)
    (conflict_resolution c) (local_tuple_null c) (local_tuple c)
    (local_tuple_xmin c) (local_tuple_origin_node c) (local_commit_time c)
    (remote_tuple_null c) (remote_tuple c) (apply_error c).
Definition set_object_schema v c :=
  mkConflict (local_conflict_txid c) (local_conflict_lsn c)
    (local_conflict_time c) v (object_name c) (remote_node c) (remote_txid c)
    (remote_commit_time c) (remote_commit_lsn c) (conflict_type c)
    (conflict_resolution c) (local_tuple_null c) (local_tuple c)
    (local_tuple_xmin c) (local_tuple_origin_node c) (local_commit_time c)
    (remote_tuple_null c) (remote_tuple c) (apply_error c).
Definition set_object_name v c :=
  mkConflict (local_conflict_txid c) (local_conflict_lsn c)
    (local_conflict_time c) (object_schema c) v (remote_node c) (remote_txid c)
    (remote_commit_time c) (remote_commit_lsn c) (conflict_type c)
    (conflict_resolution c) (local_tuple_null c) (local_tuple c)
    (local_tuple_xmin c) (local_tuple_origin_node c) (local_commit_time c)
    (remote_tuple_null c) (remote_tuple c) (apply_error c).
Definition set_remote_node v c :=
  mkConflict (local_conflict_txid c) (local_conflict_lsn c)
    (local_conflict_time c) (object_schema c) (object_name c) v (remote_txid c)
    (remote_commit_time c) (remote_commit_lsn c) (conflict_type c)
    (conflict_resolution c) (local_tuple_null c) (local_tuple c)
    (local_tuple_xmin c) (local_tuple_origin_node c) (local_commit_time c)
    (remote_tuple_null c) (remote_tuple c) (apply_error c).
Definition set_remote_txid v c :=
  mkConflict (local_conflict_txid c) (local_conflict_lsn c)
    (local_conflict_time c) (object_schema c) (object_name c) (remote_node c) v
    (remote_commit_time c) (remote_commit_lsn c) (conflict_type c)
    (conflict_resolution c) (local_tuple_null c) (local_tuple c)
    (local_tuple_xmin c) (local_tuple_origin_node c) (local_commit_time c)
    (remote_tuple_null c) (remote_tuple c) (apply_error c).
Definition set_remote_commit_time v c :=
  mkConflict (local_conflict_txid c) (local_conflict_lsn c)
    (local_conflict_time c) (object_schema c) (object_name c) (remote_node c)
    (remote_txid c) v (remote_commit_lsn c) (conflict_type c)
    (conflict_resolution c) (local_tuple_null c) (local_tuple c)
    (local_tuple_xmin c) (local_tuple_origin_node c) (local_commit_time c)
    (remote_tuple_null c) (remote_tuple c) (apply_error c).
Definition set_remote_commit_lsn v c :=
  mkConflict (local_conflict_txid c) (local_conflict_lsn c)
    (local_conflict_time c) (object_schema c) (object_name c) (remote_node c)
    (remote_txid c) (remote_commit_time c) v (conflict_type c)
    (conflict_resolution c) (local_tuple_null c) (local_tuple c)
    (local_tuple_xmin c) (local_tuple_origin_node c) (local_commit_time c)
    (remote_tuple_null c) (remote_tuple c) (apply_error c).
Definition set_conflict_type v c :=
  mkConflict (local_conflict_txid c) (local_conflict_lsn c)
    (local_conflict_time c) (object_schema c) (object_name c) (remote_node c)
    (remote_txid c) (remote_commit_time c) (remote_commit_lsn c) v
    (conflict_resolution c) (local_tuple_null c) (local_tuple c)
    (local_tuple_xmin c) (local_tuple_origin_node c) (local_commit_time c)
    (remote_tuple_null c) (remote_tuple c) (apply_error c).
Definition set_conflict_resolution v c :=
  mkConflict (local_conflict_txid c) (local_conflict_lsn c)
    (local_conflict_time c) (object_schema c) (object_name c) (remote_node c)
    (remote_txid c) (remote_commit_time c) (remote_commit_lsn c)
    (conflict_type c) v (local_tuple_null c) (local_tuple c)
    (local_tuple_xmin c) (local_tuple_origin_node c) (local_commit_time c)
    (remote_tuple_null c) (remote_tuple c) (apply_error c).
Definition set_local_tuple_null v c :=
  mkConflict (local_conflict_txid c) (local_conflict_lsn c)
    (local_conflict_time c) (object_schema c) (object_name c) (remote_node c)
    (remote_txid c) (remote_commit_time c) (remote_commit_lsn c)
    (conflict_type c) (conflict_resolution c) v (local_tuple c)
    (local_tuple_xmin c) (local_tuple_origin_node c) (local_commit_time c)
    (remote_tuple_null c) (remote_tuple c) (apply_error c).
Definition set_local_tuple v c :=
  mkConflict (local_conflict_txid c) (local_conflict_lsn c)
    (local_conflict_time c) (object_schema c) (object_name c) (remote_node c)
    (remote_txid c) (remote_commit_time c) (remote_commit_lsn c)
    (conflict_type c) (conflict_resolution c) (local_tuple_null c) v
    (local_tuple_xmin c) (local_tuple_origin_node c) (local_commit_time c)
    (remote_tuple_null c) (remote_tuple c) (apply_error c).
Definition set_local_tuple_xmin v c :=
  mkConflict (local_conflict_txid c) (local_conflict_lsn c)
    (local_conflict_time c) (object_schema c) (object_name c) (remote_node c)
    (remote_txid c) (remote_commit_time c) (remote_commit_lsn c)
    (conflict_type c) (conflict_resolution c) (local_tuple_null c)
    (local_tuple c) v (local_tuple_origin_node c) (local_commit_time c)
    (remote_tuple_null c) (remote_tuple c) (apply_error c).
Definition set_local_tuple_origin_node v c :=
  mkConflict (local_conflict_txid c) (local_conflict_lsn c)
    (local_conflict_time c) (object_schema c) (object_name c) (remote_node c)
    (remote_txid c) (remote_commit_time c) (remote_commit_lsn c)
    (conflict_type c) (conflict_resolution c) (local_tuple_null c)
    (local_tuple c) (local_tuple_xmin c) v (local_commit_time c)
    (remote_tuple_null c) (remote_tuple c) (apply_error c).
Definition set_local_commit_time v c :=
  mkConflict (local_conflict_txid c) (local_conflict_lsn c)
    (local_conflict_time c) (object_schema c) (object_name c) (remote_node c)
    (remote_txid c) (remote_commit_time c) (remote_commit_lsn c)
    (conflict_type c) (conflict_resolution c) (local_tuple_null c)
    (local_tuple c) (local_tuple_xmin c) (local_tuple_origin_node c) v
    (remote_tuple_null c) (remote_tuple c) (apply_error c).
Definition set_remote_tuple_null v c :=
  mkConflict (local_conflict_txid c) (local_conflict_lsn c)
    (local_conflict_time c) (object_schema c) (object_name c) (remote_node c)
    (remote_txid c) (remote_commit_time c) (remote_commit_lsn c)
    (conflict_type c) (conflict_resolution c) (local_tuple_null c)
    (local_tuple c) (local_tuple_xmin c) (local_tuple_origin_node c)
    (local_commit_time c) v (remote_tuple c) (apply_error c).
Definition set_remote_tuple v c :=
  mkConflict (local_conflict_txid c) (local_conflict_lsn c)
    (local_conflict_time c) (object_schema c) (object_name c) (remote_node c)
    (remote_txid c) (remote_commit_time c) (remote_commit_lsn c)
    (conflict_type c) (conflict_resolution c) (local_tuple_null c)
    (local_tuple c) (local_tuple_xmin c) (local_tuple_origin_node c)
    (local_commit_time c) (remote_tuple_null c) v (apply_error c).
Definition set_apply_error v c :=
  mkConflict (local_conflict_txid c) (local_conflict_lsn c)
    (local_conflict_time c) (object_schema c) (object_name c) (remote_node c)
    (remote_txid c) (remote_commit_time c) (remote_commit_lsn c)
    (conflict_type c) (conflict_resolution c) (local_tuple_null c)
    (local_tuple c) (local_tuple_xmin c) (local_tuple_origin_node c)
    (local_commit_time c) (remote_tuple_null c) (remote_tuple c) v.

End Model.
Import Model.

(** ** What the backend provides *)

Module Backend.

(** The process-wide configuration and the PostgreSQL services the
    conflict code reads. One value describes the surroundings of one call. *)
Record Env : Type := mkEnv {
  (* GUCs *)
  bdr_log_conflicts_to_table : bool;
  bdr_conflict_logging_include_tuples : bool;
  (* the build *)
  USE_ASSERT_CHECKING : bool;
  (* transaction context *)
  IsAbortedTransactionBlockState : bool;
  IsTransactionState : bool;
  GetTopTransactionIdIfAny : TransactionId;
  GetXLogInsertRecPtr : XLogRecPtr;
  GetCurrentTimestamp : TimestampTz;
  (* replication-origin session state *)
  replorigin_session_origin : RepOriginId;
  replorigin_session_origin_timestamp : TimestampTz;
  replorigin_session_origin_lsn : XLogRecPtr;
  (* node identity *)
  my_nodeid : BDRNodeId;
  origin_registry : gmap N BDRNodeId;
  bdr_get_my_cached_remote_name : BDRNodeId -> string;
  (* catalogs *)
  NAMESPACEOID : gmap N string;
  TYPEOID : gmap N FormData_pg_type;
  ENUMTYPOIDNAME : gmap (N * string) N;
  getTypeOutputInfo : Oid -> Result (Oid * bool);
  lookup_rowtype_tupdesc : Oid -> Z -> Result TupleDesc;
  (* datum access and conversion *)
  VARATT_IS_EXTERNAL_ONDISK : N -> bool;
  PG_DETOAST_DATUM : N -> Result N;
  OidOutputFunctionCall : Oid -> N -> Result string;
  row_to_json : HeapTupleHeaderData -> Result string;
  unpack_sql_state : Z -> string;
  (* OIDs cached by bdr_conflict_logging_startup *)
  BdrConflictTypeOid : Oid;
  BdrConflictResolutionOid : Oid;
  (* index maintenance of bdr.bdr_conflict_history *)
  ri_NumIndices : nat;
  ExecInsertIndexTuples : HistoryRow -> Result (list Oid);
  (* the descriptor of bdr.bdr_conflict_history, RelationGetDescr(log_rel):
     attbyval of column i, counted from 0. The table is defined in the
     extension's SQL file; its columns that are not stored by value are
     varlena (text, json). *)
  bdr_conflict_history_attbyval : nat -> bool
}.

(** The same backend applying a remote transaction with another commit
    timestamp. *)
Definition with_origin_timestamp (ts : TimestampTz) (env : Env) : Env :=
  mkEnv (bdr_log_conflicts_to_table env) (bdr_conflict_logging_include_tuples env)
    (USE_ASSERT_CHECKING env) (IsAbortedTransactionBlockState env)
    (IsTransactionState env)
    (GetTopTransactionIdIfAny env) (GetXLogInsertRecPtr env)
    (GetCurrentTimestamp env) (replorigin_session_origin env)
    ts (replorigin_session_origin_lsn env)
    (my_nodeid env) (origin_registry env) (bdr_get_my_cached_remote_name env)
    (NAMESPACEOID env) (TYPEOID env) (ENUMTYPOIDNAME env) (getTypeOutputInfo env)
    (lookup_rowtype_tupdesc env) (VARATT_IS_EXTERNAL_ONDISK env)
    (PG_DETOAST_DATUM env) (OidOutputFunctionCall env) (row_to_json env)
    (unpack_sql_state env) (BdrConflictTypeOid env) (BdrConflictResolutionOid env)
    (ri_NumIndices env) (ExecInsertIndexTuples env)
    (bdr_conflict_history_attbyval env).

(** bdr_make_my_nodeid: the local node's identity, always available. *)
Definition bdr_make_my_nodeid (env : Env) : BDRNodeId := my_nodeid env.

(** Modelled from the spec: bdr_fetch_sysid_via_node_id is declared in
    bdr.h and defined outside these sources. Section 4.1 gives it as
    resolve_origin_to_nodeid: the NodeId registered for the origin handle,
    and a lookup error when the handle has no registered mapping. *)
Definition bdr_fetch_sysid_via_node_id (env : Env) (node_id : RepOriginId)
  : Result BDRNodeId :=
  match origin_registry env !! node_id with
  | Some node => Ok node
  | None => Raise (ERROR ("replication origin " +:+ pretty node_id +:+ " not found"))
  end.

(** get_namespace_name: the schema's name, NULL when it does not exist. *)
Definition get_namespace_name (env : Env) (nspid : Oid) : option string :=
  NAMESPACEOID env !! nspid.

(** GetSysCacheOid2(ENUMTYPOIDNAME, ...): InvalidOid when absent. *)
Definition GetSysCacheOid2_ENUMTYPOIDNAME (env : Env) (typoid : Oid)
    (label : string) : Oid :=
  default InvalidOid (ENUMTYPOIDNAME env !! (typoid, label)).

(** What a call can change: the server log and the conflict history
    table with its id sequence. *)
Record State : Type := mkState {
  server_log : list string;
  bdr_conflict_history : list HistoryRow;
  bdr_conflict_history_id_seq : Z
}.

(** ereport(LOG, (errmsg(...))): one line appended to the server log. *)
Definition ereport_LOG (msg : string) (st : State) : State :=
  mkState (server_log st ++ [msg]) (bdr_conflict_history st)
          (bdr_conflict_history_id_seq st).

(** nextval on bdr_conflict_history_id_seq. *)
Definition nextval_oid (st : State) : Z * State :=
  let v := (bdr_conflict_history_id_seq st + 1)%Z in
  (v, mkState (server_log st) (bdr_conflict_history st) v).

(** simple_heap_insert into bdr.bdr_conflict_history. *)
Definition simple_heap_insert (row : HistoryRow) (st : State) : State :=
  mkState (server_log st) (bdr_conflict_history st ++ [row])
          (bdr_conflict_history_id_seq st).

End Backend.
Import Backend.

(** ** bdr_conflict_logging.c *)

Module ConflictLogging.

Definition BDR_CONFLICT_HISTORY_COLS : nat := 35.
Definition SYSID_DIGITS : nat := 33.

(** snprintf(buf, sizeof(buf), UINT64_FORMAT, v) into a SYSID_DIGITS
    buffer: the decimal digits, cut to what fits before the terminator. *)
Definition snprintf_sysid (v : N) : string :=
  String.substring 0 (SYSID_DIGITS - 1) (pretty v).

Definition bdr_conflict_type_name (conflict_type : BdrConflictType) : string :=
  match conflict_type with
  | BdrConflictType_InsertInsert => "insert_insert"
  | BdrConflictType_InsertUpdate => "insert_update"
  | BdrConflictType_UpdateUpdate => "update_update"
  | BdrConflictType_UpdateDelete => "update_delete"
  | BdrConflictType_DeleteDelete => "delete_delete"
  | BdrConflictType_UnhandledTxAbort => "unhandled_tx_abort"
  end.

(** Get the enum oid for a given BdrConflictType. *)
Definition bdr_conflict_type_get_datum (env : Env)
    (conflict_type : BdrConflictType) : Result Datum :=
  let enumname := bdr_conflict_type_name conflict_type in
  let conflict_type_oid :=
    GetSysCacheOid2_ENUMTYPOIDNAME env (BdrConflictTypeOid env) enumname in
  if decide (conflict_type_oid = InvalidOid)
  then Raise (ERROR ("syscache lookup for enum " +:+ enumname +:+
                     " of type bdr.bdr_conflict_type failed"))
  else Ok (ObjectIdGetDatum conflict_type_oid).

(** Get the enum name for a given BdrConflictResolution. *)
Definition bdr_conflict_resolution_get_name
    (conflict_resolution : BdrConflictResolution) : string :=
  match conflict_resolution with
  | BdrConflictResolution_ConflictTriggerSkipChange => "conflict_trigger_skip_change"
  | BdrConflictResolution_ConflictTriggerReturnedTuple => "conflict_trigger_returned_tuple"
  | BdrConflictResolution_LastUpdateWins_KeepLocal => "last_update_wins_keep_local"
  | BdrConflictResolution_LastUpdateWins_KeepRemote => "last_update_wins_keep_remote"
  | BdrConflictResolution_DefaultApplyChange => "apply_change"
  | BdrConflictResolution_DefaultSkipChange => "skip_change"
  | BdrConflictResolution_UnhandledTxAbort => "unhandled_tx_abort"
  end.

(** Get the enum oid for a given BdrConflictResolution. *)
Definition bdr_conflict_resolution_get_datum (env : Env)
    (conflict_resolution : BdrConflictResolution) : Result Datum :=
  let enumname := bdr_conflict_resolution_get_name conflict_resolution in
  let conflict_resolution_oid :=
    GetSysCacheOid2_ENUMTYPOIDNAME env (BdrConflictResolutionOid env) enumname in
  if decide (conflict_resolution_oid = InvalidOid)
  then Raise (ERROR ("syscache lookup for enum " +:+ enumname +:+
                     " of type bdr.bdr_conflict_resolution failed"))
  else Ok (ObjectIdGetDatum conflict_resolution_oid).

(** Convert the target row to json form if it isn't null. Returns the
    Datum and the value stored through [ret_isnull]. There is no
    PG_TRY here: a failing conversion propagates. *)
Definition bdr_conflict_row_to_json (env : Env) (row : CompositeDatum)
    (row_isnull : bool) : Result (Datum * bool) :=
  if row_isnull then Ok (DatumZero, true)
  else
    match row with
    | NullDatum => Raise NullDereference
    | HeapTupleHeaderGetDatum td =>
        row_json ← row_to_json env td;
        Ok (JsonDatum row_json, false)
    end.

(** heap_getattr(tuple, attnum, tupdesc, &isnull): the column's Datum
    and whether it is NULL (a column the tuple does not store reads as
    NULL). *)
Definition heap_getattr (tuple : HeapTupleHeaderData) (attnum : nat) : N * bool :=
  match t_cols tuple !! (attnum - 1)%nat with
  | Some (Some origval) => (origval, false)
  | _ => (0%N, true)
  end.

(** One iteration of the column loop of tuple_to_stringinfo, for
    attribute [attr] at index [natt]. *)
Definition tuple_to_stringinfo_att (env : Env) (s : string) (natt : nat)
    (attr : FormData_pg_attribute) (tuple : HeapTupleHeaderData) : Result string :=
  (* don't print dropped columns *)
  if attisdropped attr then Ok s
  (* don't print system columns *)
  else if (attnum attr <? 0)%Z then Ok s
  else
    let typid := atttypid attr in
    match TYPEOID env !! typid with
    | None => Raise (ERROR ("cache lookup failed for type " +:+ pretty typid))
    | Some type_form =>
        let s := s +:+ " " +:+ attname attr in
        let s := s +:+ "[" +:+ typname type_form +:+ "]" in
        '(typoutput, typisvarlena) ← getTypeOutputInfo env typid;
        let '(origval, isnull) := heap_getattr tuple (natt + 1) in
        outputstr ←
          (if isnull then Ok "(null)"
           else if typisvarlena && VARATT_IS_EXTERNAL_ONDISK env origval
           then Ok "(unchanged-toast-datum)"
           else
             val ← (if typisvarlena then PG_DETOAST_DATUM env origval
                    else Ok origval);
             OidOutputFunctionCall env typoutput val);
        Ok (s +:+ ":" +:+ outputstr)
    end.

(** The loop [for (natt = 0; natt < tupdesc->natts; natt++)], from index
    [natt] over the remaining attributes. *)
Fixpoint tuple_to_stringinfo_from (env : Env) (s : string) (natt : nat)
    (attrs : list FormData_pg_attribute) (tuple : HeapTupleHeaderData)
  : Result string :=
  match attrs with
  | [] => Ok s
  | attr :: rest =>
      s' ← tuple_to_stringinfo_att env s natt attr tuple;
      tuple_to_stringinfo_from env s' (S natt) rest tuple
  end.

(** print the tuple 'tuple' into the StringInfo s *)
Definition tuple_to_stringinfo (env : Env) (s : string) (tupdesc : TupleDesc)
    (tuple : HeapTupleHeaderData) : Result string :=
  tuple_to_stringinfo_from env s 0 tupdesc tuple.

Definition row_to_stringinfo (env : Env) (s : string) (composite : CompositeDatum)
  : Result string :=
  match composite with
  | NullDatum => Raise NullDereference
  | HeapTupleHeaderGetDatum td =>
      tupdesc ← lookup_rowtype_tupdesc env (t_typeid td) (t_typmod td);
      tuple_to_stringinfo env s tupdesc td
  end.

(** The locals of bdr_conflict_log_table that form the tuple: the
    [values] and [nulls] arrays and the running column index [attno]. *)
Record TupleForm : Type := mkForm {
  values : list Datum;
  nulls : list bool;
  attno : nat
}.

(** After both memsets, with [attno = 0]. *)
Definition form_init : TupleForm :=
  mkForm (replicate BDR_CONFLICT_HISTORY_COLS DatumZero)
         (replicate BDR_CONFLICT_HISTORY_COLS false) 0.

(** [values[attno++] = d]. *)
Definition put_value (d : Datum) (f : TupleForm) : TupleForm :=
  mkForm (<[attno f := d]> (values f)) (nulls f) (S (attno f)).

(** [nulls[attno] = 1; attno++]. *)
Definition put_null (f : TupleForm) : TupleForm :=
  mkForm (values f) (<[attno f := true]> (nulls f)) (S (attno f)).

(** [values[attno] = d; nulls[attno] = isnull; attno++]. *)
Definition put_value_isnull (d : Datum) (isnull : bool) (f : TupleForm) : TupleForm :=
  mkForm (<[attno f := d]> (values f)) (<[attno f := isnull]> (nulls f))
         (S (attno f)).

(** [if (cond) values[attno] = d; else nulls[attno] = 1; attno++;]. *)
Definition put_if (cond : bool) (d : Datum) (f : TupleForm) : TupleForm :=
  mkForm (if cond then <[attno f := d]> (values f) else values f)
         (if cond then nulls f else <[attno f := true]> (nulls f))
         (S (attno f)).

Definition bdr_conflict_strtodatum (f : TupleForm) (idx : nat)
    (in_str : option string) : TupleForm :=
  match in_str with
  | None =>
      mkForm (<[idx := DatumZero]> (values f)) (<[idx := true]> (nulls f)) (attno f)
  | Some str =>
      mkForm (<[idx := CStringGetTextDatum str]> (values f))
             (<[idx := false]> (nulls f)) (attno f)
  end.

(** [bdr_conflict_strtodatum(nulls, values, attno++, in_str)]. *)
Definition put_str (in_str : option string) (f : TupleForm) : TupleForm :=
  let f' := bdr_conflict_strtodatum f (attno f) in_str in
  mkForm (values f') (nulls f') (S (attno f)).

(** [memset(&nulls[attno], 1, sizeof(bool) * n); attno += n]. *)
Fixpoint put_nulls (n : nat) (f : TupleForm) : TupleForm :=
  match n with
  | O => f
  | S n' => put_nulls n' (put_null f)
  end.

(** The Datums that are pointers to a varlena: text and json. The other
    Datums are numbers made by the XGetDatum macros. *)
Definition is_varlena_pointer (value : Datum) : bool :=
  match value with
  | CStringGetTextDatum _ | JsonDatum _ => true
  | _ => false
  end.

(** What heap_form_tuple stores for one column. A NULL is stored as such
    and its Datum is not looked at; a column stored by value takes the Datum
    as it is; for any other column the Datum is read as a pointer to the
    value. *)
Definition heap_form_att (attbyval : bool) (value : Datum) (isnull : bool)
  : Result (option Datum) :=
  if isnull then Ok None
  else if attbyval then Ok (Some value)
  else if is_varlena_pointer value then Ok (Some value)
  else if decide (value = DatumZero) then Raise NullDereference
  else Raise InvalidPointer.

(** The columns from number [i] on. *)
Fixpoint heap_form_tuple_from (attbyval : nat -> bool) (i : nat)
    (values : list Datum) (nulls : list bool) : Result HistoryRow :=
  match values, nulls with
  | value :: values', isnull :: nulls' =>
      att ← heap_form_att (attbyval i) value isnull;
      row ← heap_form_tuple_from attbyval (S i) values' nulls';
      Ok (att :: row)
  | _, _ => Ok []
  end.

(** heap_form_tuple(tupleDescriptor, values, isnull), for arrays that
    have one entry for each column of the descriptor. *)
Definition heap_form_tuple (attbyval : nat -> bool) (values : list Datum)
    (nulls : list bool) : Result HistoryRow :=
  heap_form_tuple_from attbyval 0 values nulls.

(** UserTableUpdateOpenIndexes (bdr_executor.c). *)
Definition UserTableUpdateOpenIndexes (env : Env) (heap_only : bool)
    (row : HistoryRow) : Result unit :=
  (* HOT update does not require index inserts *)
  if heap_only then Ok tt
  else if decide (0 < ri_NumIndices env)%nat then
    recheckIndexes ← ExecInsertIndexTuples env row;
    match recheckIndexes with
    | [] => Ok tt
    | _ :: _ => Raise (ERROR "bdr doesn't support index rechecks")
    end
  else Ok tt.

(** UserTableUpdateIndexes (bdr_executor.c). *)
Definition UserTableUpdateIndexes (env : Env) (heap_only : bool)
    (row : HistoryRow) : Result unit :=
  if heap_only then Ok tt
  else UserTableUpdateOpenIndexes env heap_only row.

(** The columns written when [conflict->apply_error] is set. *)
Definition put_error_cols (env : Env) (object_schema_attno object_name_attno : nat)
    (edata : ErrorData) (f : TupleForm) : TupleForm :=
  let f := put_str (message edata) f in
  let sqlstate := String.substring 0 11 (unpack_sql_state env (sqlerrcode edata)) in
  let f := put_value_isnull (CStringGetTextDatum sqlstate) true f in
  let f := put_if (bool_decide (cursorpos edata ≠ 0%Z))
             (Int32GetDatum (cursorpos edata)) f in
  let f := put_str (detail edata) f in
  let f := put_str (hint edata) f in
  let f := put_str (context edata) f in
  let f := put_str (column_name edata) f in
  let f := put_str (datatype_name edata) f in
  let f := put_str (constraint_name edata) f in
  let f := put_str (filename edata) f in
  let f := put_value (Int32GetDatum (lineno edata)) f in
  let f := put_str (funcname edata) f in
  (* Set schema and table name based on the error, not arg values *)
  let f := bdr_conflict_strtodatum f object_schema_attno (schema_name edata) in
  bdr_conflict_strtodatum f object_name_attno (table_name edata).

(** The part of bdr_conflict_log_table that fills [values] and [nulls],
    from the snprintf calls to the last column; [seqval] is what nextval
    returned. *)
Definition form_history_tuple (env : Env) (myid : BDRNodeId)
    (conflict : BdrApplyConflict) (seqval : Z) : Result TupleForm :=
  let local_sysid := snprintf_sysid (sysid myid) in
  let remote_sysid := snprintf_sysid (sysid (remote_node conflict)) in
  let origin_known := bool_decide (sysid (local_tuple_origin_node conflict) ≠ 0%N) in
  let origin_sysid :=
    if origin_known then snprintf_sysid (sysid (local_tuple_origin_node conflict))
    else "" in
  let remote_known := bool_decide (sysid (remote_node conflict) ≠ 0%N) in
  let f := form_init in
  let f := put_value (Int64GetDatum seqval) f in
  let f := put_value (CStringGetTextDatum local_sysid) f in
  let f := put_value (TransactionIdGetDatum (local_conflict_txid conflict)) f in
  let f := put_value (LSNGetDatum (local_conflict_lsn conflict)) f in
  let f := put_value (TimestampTzGetDatum (local_conflict_time conflict)) f in
  let object_schema_attno := attno f in
  let f := put_str (object_schema conflict) f in
  let object_name_attno := attno f in
  let f := put_str (object_name conflict) f in
  let f := put_value (CStringGetTextDatum remote_sysid) f in
  let f := put_if (bool_decide (remote_txid conflict ≠ InvalidTransactionId))
             (TransactionIdGetDatum (remote_txid conflict)) f in
  let f := put_value (TimestampTzGetDatum (remote_commit_time conflict)) f in
  let f := put_value (LSNGetDatum (remote_commit_lsn conflict)) f in
  type_datum ← bdr_conflict_type_get_datum env (conflict_type conflict);
  let f := put_value type_datum f in
  resolution_datum ←
    bdr_conflict_resolution_get_datum env (conflict_resolution conflict);
  let f := put_value resolution_datum f in
  '(local_json, local_isnull) ←
    bdr_conflict_row_to_json env (local_tuple conflict) (local_tuple_null conflict);
  let f := put_value_isnull local_json local_isnull f in
  '(remote_json, remote_isnull) ←
    bdr_conflict_row_to_json env (remote_tuple conflict) (remote_tuple_null conflict);
  let f := put_value_isnull remote_json remote_isnull f in
  let f := put_if (bool_decide (local_tuple_xmin conflict ≠ InvalidTransactionId))
             (TransactionIdGetDatum (local_tuple_xmin conflict)) f in
  let f := put_if origin_known (CStringGetTextDatum origin_sysid) f in
  let f := match apply_error conflict with
           | None =>
               (* all the 13 remaining cols are error_ cols and are all null *)
               put_nulls 13 f
           | Some edata =>
               put_error_cols env object_schema_attno object_name_attno edata f
           end in
  let f := put_if remote_known (ObjectIdGetDatum (timeline (remote_node conflict))) f in
  let f := put_if remote_known (ObjectIdGetDatum (dboid (remote_node conflict))) f in
  let f := put_if origin_known
             (ObjectIdGetDatum (timeline (local_tuple_origin_node conflict))) f in
  let f := put_if origin_known
             (ObjectIdGetDatum (dboid (local_tuple_origin_node conflict))) f in
  (* 2.0.4 records the original local commit timestamp *)
  let f := put_if (negb (bool_decide (local_commit_time conflict = 0%Z)))
             (TimestampTzGetDatum (local_commit_time conflict)) f in
  Ok f.

(** Log a BDR apply conflict to the bdr.bdr_conflict_history table. *)
Definition bdr_conflict_log_table (env : Env) (conflict : BdrApplyConflict)
    (st : State) : Result State :=
  let myid := bdr_make_my_nodeid env in
  if IsAbortedTransactionBlockState env then
    Raise (ERROR "bdr: attempt to log conflict in aborted transaction")
  else if negb (IsTransactionState env) then
    Raise (ERROR "bdr: attempt to log conflict without surrounding transaction")
  else if negb (bdr_log_conflicts_to_table env) then
    (* No logging enabled and we don't own any memory, just bail *)
    Ok st
  else
    (* Begin forming the tuple. *)
    let '(seqval, st) := nextval_oid st in
    f ← form_history_tuple env myid conflict seqval;
    (* Make sure assignments match allocated tuple size *)
    _ ← Assert (USE_ASSERT_CHECKING env)
          (bool_decide (attno f = BDR_CONFLICT_HISTORY_COLS))
          "attno == BDR_CONFLICT_HISTORY_COLS";
    (* Construct the tuple and insert it *)
    log_tup ← heap_form_tuple (bdr_conflict_history_attbyval env)
                 (values f) (nulls f);
    let st := simple_heap_insert log_tup st in
    (* Then do any index maintanence required; a tuple that
       simple_heap_insert has just stored is never heap-only *)
    _ ← UserTableUpdateIndexes env false log_tup;
    Ok st.

Definition CONFLICT_MSG_PREFIX (remote_op : string) : string :=
  "CONFLICT: remote " +:+ remote_op +:+ ":".

(** BDR_NODEID_FORMAT_WITHNAME with BDR_NODEID_FORMAT_WITHNAME_ARGS(node);
    the replication name is EMPTY_REPLICATION_NAME. *)
Definition BDR_NODEID_FORMAT_WITHNAME (env : Env) (node : BDRNodeId) : string :=
  bdr_get_my_cached_remote_name env node +:+ " (" +:+ pretty (sysid node) +:+ "," +:+
  pretty (timeline node) +:+ "," +:+ pretty (dboid node) +:+ "," +:+ "" +:+ ")".

(** Log a BDR apply conflict to the postgreql log. *)
Definition bdr_conflict_log_serverlog (env : Env) (conflict : BdrApplyConflict)
    (st : State) : Result State :=
  (* Create text representation of the PKEY tuple *)
  s_key ← (if negb (local_tuple_null conflict)
           then row_to_stringinfo env "" (local_tuple conflict)
           else Ok "");
  let resolution_name :=
    bdr_conflict_resolution_get_name (conflict_resolution conflict) in
  match conflict_type conflict with
  | BdrConflictType_InsertInsert
  | BdrConflictType_UpdateUpdate
  | BdrConflictType_InsertUpdate =>
      Ok (ereport_LOG
            (CONFLICT_MSG_PREFIX
               (if decide (conflict_type conflict = BdrConflictType_UpdateUpdate)
                then "UPDATE" else "INSERT") +:+
             " row was previously " +:+
             (if decide (conflict_type conflict = BdrConflictType_InsertInsert)
              then "INSERTed" else "UPDATEd") +:+
             " at node " +:+
             BDR_NODEID_FORMAT_WITHNAME env (local_tuple_origin_node conflict) +:+
             ". Resolution: " +:+ resolution_name +:+ "; PKEY:" +:+ s_key)
            st)
  | BdrConflictType_UpdateDelete
  | BdrConflictType_DeleteDelete =>
      Ok (ereport_LOG
            (CONFLICT_MSG_PREFIX
               (if decide (conflict_type conflict = BdrConflictType_UpdateDelete)
                then "UPDATE" else "DELETE") +:+
             " could not find existing row. Resolution: " +:+ resolution_name +:+
             "; PKEY:" +:+ s_key)
            st)
  | BdrConflictType_UnhandledTxAbort =>
      (* XXX? *)
      Ok st
  end.

(** Allocate a BdrApplyConflict object and fill it with the given
    conflict details, plus additional current system state (including
    current xid). *)
Definition bdr_make_apply_conflict (env : Env)
    (conflict_type : BdrConflictType)
    (resolution : BdrConflictResolution)
    (remote_txid : TransactionId)
    (conflict_relation : option BDRRelation)
    (local_tuple : option TupleTableSlot)
    (local_tuple_origin_id : RepOriginId)
    (remote_tuple : option TupleTableSlot)
    (local_commit_ts : TimestampTz)
    (apply_error : option ErrorData) : Result BdrApplyConflict :=
  let conflict := palloc0_BdrApplyConflict in
  (* Populate the conflict record we're going to log *)
  let conflict := set_conflict_type conflict_type conflict in
  let conflict := set_conflict_resolution resolution conflict in
  let conflict := set_local_conflict_txid (GetTopTransactionIdIfAny env) conflict in
  let conflict := set_local_conflict_lsn (GetXLogInsertRecPtr env) conflict in
  let conflict := set_local_conflict_time (GetCurrentTimestamp env) conflict in
  let conflict := set_remote_txid remote_txid conflict in
  let conflict :=
    match conflict_relation with
    | None =>
        set_object_name None (set_object_schema None conflict)
    | Some rel =>
        let conflict := set_object_name (Some (rd_relname rel)) conflict in
        set_object_schema (get_namespace_name env (rd_relnamespace rel)) conflict
    end in
  node ← bdr_fetch_sysid_via_node_id env (replorigin_session_origin env);
  let conflict := set_remote_node node conflict in
  let conflict :=
    set_remote_commit_time (replorigin_session_origin_timestamp env) conflict in
  let conflict := set_remote_txid remote_txid conflict in
  let conflict := set_remote_commit_lsn (replorigin_session_origin_lsn env) conflict in
  conflict ←
    match local_tuple with
    | Some slot =>
        (* Log local tuple xmin even if actual tuple value logging is off *)
        let conflict := set_local_tuple_xmin (t_xmin (tts_tuple slot)) conflict in
        _ ← Assert (USE_ASSERT_CHECKING env)
              (bool_decide (FirstNormalTransactionId ≤ local_tuple_xmin conflict)%N
               || bool_decide (local_tuple_xmin conflict = FrozenTransactionId))
              "conflict->local_tuple_xmin >= FirstNormalTransactionId || conflict->local_tuple_xmin == FrozenTransactionId";
        if bdr_conflict_logging_include_tuples env then
          let conflict := set_local_tuple (ExecFetchSlotHeapTupleDatum slot) conflict in
          Ok (set_local_tuple_null false conflict)
        else Ok conflict
    | None =>
        let conflict := set_local_tuple_null true conflict in
        let conflict := set_local_tuple NullDatum conflict in
        Ok (set_local_tuple_xmin InvalidTransactionId conflict)
    end;
  conflict ←
    (if decide (local_tuple_origin_id ≠ InvalidRepOriginId) then
       node ← bdr_fetch_sysid_via_node_id env local_tuple_origin_id;
       Ok (set_local_tuple_origin_node node conflict)
     else
       (* InvalidRepOriginId is used for locally originated tuples *)
       Ok (set_local_tuple_origin_node (bdr_make_my_nodeid env) conflict));
  let conflict := set_local_commit_time local_commit_ts conflict in
  let conflict :=
    match remote_tuple with
    | Some slot =>
        if bdr_conflict_logging_include_tuples env then
          let conflict := set_remote_tuple (ExecFetchSlotHeapTupleDatum slot) conflict in
          set_remote_tuple_null false conflict
        else
          set_remote_tuple NullDatum (set_remote_tuple_null true conflict)
    | None =>
        set_remote_tuple NullDatum (set_remote_tuple_null true conflict)
    end in
  let conflict := set_apply_error apply_error conflict in
  Ok conflict.

End ConflictLogging.
Import ConflictLogging.

(** ** bdr_executor.c: find_pkey_tuple *)

Module Executor.

Local Open Scope list_scope.

Inductive TM_Result : Type :=
| TM_Ok
| TM_Invisible
| TM_SelfModified
| TM_Updated
| TM_Deleted
| TM_BeingModified
| TM_WouldBlock.

Global Instance TM_Result_eq_dec : EqDecision TM_Result.
Proof. solve_decision. Defined.

(** What index_getnext_slot leaves behind when it returns a tuple under
    the dirty snapshot: the tuple stored into the slot, and the
    snapshot's xmin and xmax, set to a still-running inserter or deleter. *)
Record DirtyHit : Type := mkHit {
  hit_tuple : HeapTupleHeaderData;
  snap_xmin : TransactionId;
  snap_xmax : TransactionId
}.

(** What storage answers during one pass through the code after the
    [retry] label: the index probe and, if asked, the tuple lock. Every
    call is taken to return; an error raised inside the index calls,
    XactLockTableWait or heap_lock_tuple is not modelled. *)
Record Pass : Type := mkPass {
  getnext : option DirtyHit;
  lock_result : TM_Result
}.

(** The calls find_pkey_tuple makes, in order. *)
Inductive Call : Type :=
| InitDirtySnapshot
| index_beginscan
| index_rescan
| index_getnext_slot (found : bool)
| ExecMaterializeSlot
| XactLockTableWait (xwait : TransactionId)
| index_endscan
| PushActiveSnapshot
| heap_lock_tuple (res : TM_Result)
| ReleaseBuffer
| PopActiveSnapshot
| ereport_LOG_concurrent_update.

Global Instance Call_eq_dec : EqDecision Call.
Proof. solve_decision. Defined.

(** How one pass ends. *)
Inductive PassEnd : Type :=
| GotoRetry
| Return (found : bool)
| Elog (msg : string).

Definition TM_Result_code (res : TM_Result) : N :=
  match res with
  | TM_Ok => 0 | TM_Invisible => 1 | TM_SelfModified => 2 | TM_Updated => 3
  | TM_Deleted => 4 | TM_BeingModified => 5 | TM_WouldBlock => 6
  end%N.

(** The code from the [retry] label to the next [goto retry], [return] or
    error: the slot after the pass, the calls made, and how it ends. *)
Definition find_pkey_tuple_pass (lock : bool) (p : Pass)
    (slot : option HeapTupleHeaderData)
  : option HeapTupleHeaderData * list Call * PassEnd :=
  let scan := [index_beginscan; index_rescan] in
  let after_scan (found : bool) (slot : option HeapTupleHeaderData)
      (calls : list Call) :=
    if lock && found then
      let res := lock_result p in
      let calls := calls ++ [PushActiveSnapshot; heap_lock_tuple res;
                             ReleaseBuffer; PopActiveSnapshot] in
      match res with
      | TM_Ok => (slot, calls ++ [index_endscan], Return found)
      | TM_Updated =>
          (slot, calls ++ [ereport_LOG_concurrent_update; index_endscan], GotoRetry)
      | _ =>
          (slot, calls,
           Elog ("unexpected TM_Result after locking: " +:+ pretty (TM_Result_code res)))
      end
    else (slot, calls ++ [index_endscan], Return found) in
  match getnext p with
  | Some hit =>
      let slot := Some (hit_tuple hit) in
      let calls := scan ++ [index_getnext_slot true; ExecMaterializeSlot] in
      let xwait := if TransactionIdIsValid (snap_xmin hit) then snap_xmin hit
                   else snap_xmax hit in
      if TransactionIdIsValid xwait then
        (slot, calls ++ [XactLockTableWait xwait; index_endscan], GotoRetry)
      else after_scan true slot calls
  | None =>
      after_scan false slot (scan ++ [index_getnext_slot false])
  end.

(** The retry loop. The loop itself has no bound; [script] lists what
    storage answers pass by pass, and the result is [None] when the script
    ends while the code would still retry. *)
Fixpoint find_pkey_tuple_loop (lock : bool) (script : list Pass)
    (slot : option HeapTupleHeaderData)
  : option (Result bool * option HeapTupleHeaderData * list Call) :=
  match script with
  | [] => None
  | p :: rest =>
      let '(slot', calls, fin) := find_pkey_tuple_pass lock p slot in
      match fin with
      | Return found => Some (Ok found, slot', calls)
      | Elog msg => Some (Raise (ERROR msg), slot', calls)
      | GotoRetry =>
          '(r, slot'', calls') ← find_pkey_tuple_loop lock rest slot';
          Some (r, slot'', calls ++ calls')
      end
  end.

(** Search the index for a tuple identified by the scan key. Returns the
    result (whether a tuple was found, or the error raised), the slot, and
    the calls made. *)
Definition find_pkey_tuple (lock : bool) (script : list Pass)
    (slot : option HeapTupleHeaderData)
  : option (Result bool * option HeapTupleHeaderData * list Call) :=
  '(r, slot', calls) ← find_pkey_tuple_loop lock script slot;
  Some (r, slot', InitDirtySnapshot :: calls).

(** A pass that ends the loop: no tuple, or a tuple nobody is still
    writing, and no concurrent update reported by the lock. *)
Definition settled (lock : bool) (p : Pass) : bool :=
  match find_pkey_tuple_pass lock p None with
  | (_, _, GotoRetry) => false
  | _ => true
  end.

End Executor.

(** ** Last-update-wins *)

Module Resolver.

(** The fixed order on NodeIds of section 4.3: system_id, then
    timeline_id, then database_id, ascending. *)
Definition nodeid_lt (a b : BDRNodeId) : Prop :=
  (sysid a < sysid b)%N ∨
  (sysid a = sysid b ∧ (timeline a < timeline b)%N) ∨
  (sysid a = sysid b ∧ timeline a = timeline b ∧ (dboid a < dboid b)%N).

Definition lexicographic (c1 c2 : comparison) : comparison :=
  match c1 with
  | Eq => c2
  | _ => c1
  end.

Definition nodeid_cmp (a b : BDRNodeId) : comparison :=
  lexicographic (sysid a ?= sysid b)%N
    (lexicographic (timeline a ?= timeline b)%N (dboid a ?= dboid b)%N).

(** Modelled from the spec: the last-update-wins decision is made in
    the apply code, which is not among these sources. Section 4.3 step 2:
    the remote change is kept when its commit time is strictly later, the
    local row when the local commit time is strictly later; on equal
    timestamps the change originating from the larger NodeId wins. The
    spec gives no decision for one NodeId on both sides ([None]). *)
Definition last_update_wins (local_node remote_node : BDRNodeId)
    (local_ts remote_ts : TimestampTz) : option BdrConflictResolution :=
  match (remote_ts ?= local_ts)%Z with
  | Gt => Some BdrConflictResolution_LastUpdateWins_KeepRemote
  | Lt => Some BdrConflictResolution_LastUpdateWins_KeepLocal
  | Eq =>
      match nodeid_cmp remote_node local_node with
      | Gt => Some BdrConflictResolution_LastUpdateWins_KeepRemote
      | Lt => Some BdrConflictResolution_LastUpdateWins_KeepLocal
      | Eq => None
      end
  end.

End Resolver.

(** ** A concrete backend, for running the definitions *)

Module Demo.

Import Executor.

Definition node_a : BDRNodeId := mkNodeId 5 1 16384.
Definition node_b : BDRNodeId := mkNodeId 9 1 16385.

Definition int4oid : Oid := 23%N.
Definition textoid : Oid := 25%N.
Definition int4out : Oid := 43%N.
Definition textout : Oid := 47%N.

(** Row type 16400: (id int4, name text). Row type 16401 has a column
    whose type, 999, has no pg_type entry. *)
Definition accounts_desc : TupleDesc :=
  [mkAttr "id" int4oid 1 false; mkAttr "name" textoid 2 false].
Definition orphan_desc : TupleDesc :=
  [mkAttr "id" int4oid 1 false; mkAttr "payload" 999%N 2 false].

Definition conflict_type_labels : list (N * string) :=
  (fun ct => (5000%N, bdr_conflict_type_name ct)) <$>
    [BdrConflictType_InsertInsert; BdrConflictType_InsertUpdate;
     BdrConflictType_UpdateUpdate; BdrConflictType_UpdateDelete;
     BdrConflictType_DeleteDelete; BdrConflictType_UnhandledTxAbort].

Definition conflict_resolution_labels : list (N * string) :=
  (fun r => (5001%N, bdr_conflict_resolution_get_name r)) <$>
    [BdrConflictResolution_ConflictTriggerSkipChange;
     BdrConflictResolution_ConflictTriggerReturnedTuple;
     BdrConflictResolution_LastUpdateWins_KeepLocal;
     BdrConflictResolution_LastUpdateWins_KeepRemote;
     BdrConflictResolution_DefaultApplyChange;
     BdrConflictResolution_DefaultSkipChange;
     BdrConflictResolution_UnhandledTxAbort].

(** Enum labels get consecutive oids from [first]. *)
Fixpoint number_labels (first : N) (labels : list (N * string))
  : list ((N * string) * N) :=
  match labels with
  | [] => []
  | l :: rest => (l, first) :: number_labels (first + 1) rest
  end.

(** A backend of node [node_a] applying changes of [node_b] (origin 1),
    with the given GUCs, transaction state and pg_enum contents. The
    history table has its thirteen error columns in 17 to 29; of these the
    cursor position (20) and the line number (28) are integers, the others
    text. *)
Definition env (log_to_table include_tuples aborted in_xact : bool)
    (enum_labels : list (N * string)) : Env :=
  {| bdr_log_conflicts_to_table := log_to_table;
     bdr_conflict_logging_include_tuples := include_tuples;
     USE_ASSERT_CHECKING := true;
     IsAbortedTransactionBlockState := aborted;
     IsTransactionState := in_xact;
     GetTopTransactionIdIfAny := if in_xact then 731%N else InvalidTransactionId;
     GetXLogInsertRecPtr := 23068672%N;
     GetCurrentTimestamp := 700000000000000%Z;
     replorigin_session_origin := 1%N;
     replorigin_session_origin_timestamp := 699999999000000%Z;
     replorigin_session_origin_lsn := 50331648%N;
     my_nodeid := node_a;
     origin_registry := {[ 1%N := node_b ]};
     bdr_get_my_cached_remote_name := fun node =>
       if decide (node = node_b) then "node_b" else "(none)";
     NAMESPACEOID := {[ 2200%N := "public" ]};
     TYPEOID := {[ int4oid := mkType "int4"; textoid := mkType "text" ]};
     ENUMTYPOIDNAME := list_to_map (number_labels 5100 enum_labels);
     getTypeOutputInfo := fun typid =>
       if decide (typid = int4oid) then Ok (int4out, false)
       else if decide (typid = textoid) then Ok (textout, true)
       else Raise (ERROR ("cache lookup failed for type " +:+ pretty typid));
     lookup_rowtype_tupdesc := fun typid _ =>
       if decide (typid = 16400%N) then Ok accounts_desc
       else if decide (typid = 16401%N) then Ok orphan_desc
       else Raise (ERROR ("type " +:+ pretty typid +:+ " is not composite"));
     VARATT_IS_EXTERNAL_ONDISK := fun _ => false;
     PG_DETOAST_DATUM := fun d => Ok d;
     OidOutputFunctionCall := fun typoutput val =>
       if decide (typoutput = int4out) then Ok (pretty val)
       else if decide (typoutput = textout) then Ok ("text@" +:+ pretty val)
       else Raise (ERROR ("cache lookup failed for function " +:+ pretty typoutput));
     row_to_json := fun td => Ok ("{row of type " +:+ pretty (t_typeid td) +:+ "}");
     unpack_sql_state := fun _ => "XX000";
     BdrConflictTypeOid := 5000%N;
     BdrConflictResolutionOid := 5001%N;
     ri_NumIndices := 1;
     ExecInsertIndexTuples := fun _ => Ok [];
     bdr_conflict_history_attbyval := fun i =>
       match i with
       | 0 | 2 | 3 | 4 | 8 | 9 | 10 | 11 | 12 | 15 | 20 | 28
       | 30 | 31 | 32 | 33 | 34 => true
       | _ => false
       end |}.

Definition all_labels : list (N * string) :=
  (conflict_type_labels ++ conflict_resolution_labels)%list.

Definition st0 : State := mkState [] [] 0.

Definition accounts_slot : TupleTableSlot :=
  mkSlot (mkTuple 700 16400 (-1) [Some 42%N; Some 1000%N]).
Definition orphan_slot : TupleTableSlot :=
  mkSlot (mkTuple 701 16401 (-1) [Some 7%N; Some 2000%N]).
Definition accounts_rel : BDRRelation := mkRel "accounts" 2200.

(** In a live transaction, table logging and tuple logging on. *)
Definition live : Env := env true true false true all_labels.
(** As [live], with bdr_conflict_logging_include_tuples off. *)
Definition live_redacting : Env := env true false false true all_labels.
(** Table logging on, but no transaction in progress. *)
Definition idle : Env := env true true false false all_labels.
(** In an aborted transaction block, table logging off. *)
Definition aborted : Env := env false true true false all_labels.

Definition record_of (r : Result BdrApplyConflict) : BdrApplyConflict :=
  match r with
  | Ok c => c
  | Raise _ => palloc0_BdrApplyConflict
  end.

(** An update/update conflict on a row of "accounts" last written
    locally, resolved for the remote change. *)
Definition update_conflict : BdrApplyConflict :=
  Eval vm_compute in
    record_of (bdr_make_apply_conflict live
                 BdrConflictType_UpdateUpdate
                 BdrConflictResolution_LastUpdateWins_KeepRemote
                 900%N (Some accounts_rel) (Some accounts_slot)
                 InvalidRepOriginId (Some accounts_slot) 699999998000000%Z None).

(** The same conflict built while tuples are not logged. *)
Definition redacted_conflict : BdrApplyConflict :=
  Eval vm_compute in
    record_of (bdr_make_apply_conflict live_redacting
                 BdrConflictType_UpdateUpdate
                 BdrConflictResolution_LastUpdateWins_KeepRemote
                 900%N (Some accounts_rel) (Some accounts_slot)
                 InvalidRepOriginId (Some accounts_slot) 699999998000000%Z None).

(** A conflict on a row whose second column has a type without a
    pg_type entry. *)
Definition orphan_conflict : BdrApplyConflict :=
  Eval vm_compute in
    record_of (bdr_make_apply_conflict live
                 BdrConflictType_UpdateUpdate
                 BdrConflictResolution_LastUpdateWins_KeepRemote
                 900%N (Some accounts_rel) (Some orphan_slot)
                 InvalidRepOriginId (Some orphan_slot) 699999998000000%Z None).

(** The record of an apply error. *)
Definition abort_error : ErrorData :=
  mkErrorData (Some "division by zero") 33816706 0 None None None None None
              None None None (Some "int.c") 841 (Some "int4div").
Definition abort_conflict : BdrApplyConflict :=
  Eval vm_compute in
    record_of (bdr_make_apply_conflict live
                 BdrConflictType_UnhandledTxAbort
                 BdrConflictResolution_UnhandledTxAbort
                 900%N None None InvalidRepOriginId None 0%Z (Some abort_error)).

(** Storage answers for three passes of the keyed lookup: a row whose
    deleter (xid 55) is still running, then the row with a lock that
    reports a concurrent update, then the new row version, locked. *)
Definition contended_script : list Pass :=
  [mkPass (Some (mkHit (tts_tuple accounts_slot) 0 55)) TM_Ok;
   mkPass (Some (mkHit (tts_tuple accounts_slot) 0 0)) TM_Updated;
   mkPass (Some (mkHit (mkTuple 702 16400 (-1) [Some 42%N; Some 3000%N]) 0 0)) TM_Ok].

End Demo.

Import Executor Resolver.

(** ** Vocabulary of the statements *)

Module Spec.

Local Open Scope list_scope.

(** The xmin assertion of the builder, as a condition on its argument. *)
Definition xmin_assertion_holds (env : Env) (local_slot : option TupleTableSlot) : Prop :=
  match local_slot with
  | Some slot =>
      USE_ASSERT_CHECKING env = true →
      (FirstNormalTransactionId ≤ t_xmin (tts_tuple slot))%N ∨
      t_xmin (tts_tuple slot) = FrozenTransactionId
  | None => True
  end.

(** Column [i] of the arrays being filled: its value and its null flag. *)
Definition cell (f : TupleForm) (i : nat) : option Datum * option bool :=
  (values f !! i, nulls f !! i).

(** The enum oids the two lookups of the table sink find. *)
Definition conflict_type_oid (env : Env) (ct : BdrConflictType) : Oid :=
  GetSysCacheOid2_ENUMTYPOIDNAME env (BdrConflictTypeOid env)
    (bdr_conflict_type_name ct).
Definition conflict_resolution_oid (env : Env) (r : BdrConflictResolution) : Oid :=
  GetSysCacheOid2_ENUMTYPOIDNAME env (BdrConflictResolutionOid env)
    (bdr_conflict_resolution_get_name r).

(** A tuple Datum that bdr_conflict_row_to_json can convert. *)
Definition json_convertible (env : Env) (row : CompositeDatum) (row_isnull : bool) : Prop :=
  row_isnull = true ∨
  ∃ td json, row = HeapTupleHeaderGetDatum td ∧ row_to_json env td = Ok json.

(** What heap_form_tuple makes of the arrays when it returns: a NULL
    where the null flag is set, the Datum elsewhere. *)
Definition formed_columns (values : list Datum) (nulls : list bool) : HistoryRow :=
  zip_with (fun v (isnull : bool) => if isnull then None else Some v) values nulls.

(** The columns that the table sink fills with a Datum that is not a
    pointer when the record has no apply_error: the sequence id, xids,
    LSNs, timestamps, the two enum values and the timeline and database
    oids. *)
Definition by_value_columns : list nat :=
  [0; 2; 3; 4; 8; 9; 10; 11; 12; 15; 30; 31; 32; 33; 34]%nat.

(** bdr.bdr_conflict_history stores those columns by value. *)
Definition history_table_fits (env : Env) : Prop :=
  ∀ i, i ∈ by_value_columns → bdr_conflict_history_attbyval env i = true.

(** Two backends that agree on everything the builder reads but the
    current transaction: the tuple-logging GUC, the build, the WAL position
    and clock, the replication session, the node identity, the origin
    registry and pg_namespace. They may differ in IsTransactionState,
    IsAbortedTransactionBlockState and GetTopTransactionIdIfAny. *)
Definition same_builder_inputs (env1 env2 : Env) : Prop :=
  bdr_conflict_logging_include_tuples env1 = bdr_conflict_logging_include_tuples env2 ∧
  USE_ASSERT_CHECKING env1 = USE_ASSERT_CHECKING env2 ∧
  GetXLogInsertRecPtr env1 = GetXLogInsertRecPtr env2 ∧
  GetCurrentTimestamp env1 = GetCurrentTimestamp env2 ∧
  replorigin_session_origin env1 = replorigin_session_origin env2 ∧
  replorigin_session_origin_timestamp env1 = replorigin_session_origin_timestamp env2 ∧
  replorigin_session_origin_lsn env1 = replorigin_session_origin_lsn env2 ∧
  my_nodeid env1 = my_nodeid env2 ∧
  origin_registry env1 = origin_registry env2 ∧
  NAMESPACEOID env1 = NAMESPACEOID env2.

(** Index maintenance of the history table succeeds. *)
Definition index_maintenance_succeeds (env : Env) : Prop :=
  ri_NumIndices env = 0%nat ∨ ∀ row, ExecInsertIndexTuples env row = Ok [].

(** The state after one row has been logged. *)
Definition logged (row : HistoryRow) (st : State) : State :=
  mkState (server_log st) (bdr_conflict_history st ++ [row])
          (bdr_conflict_history_id_seq st + 1).

(** From position [i], skipping [gap] calls, the scan is ended and a
    fresh one is begun, rescanned and probed. *)
Definition restarts_after (calls : list Call) (i gap : nat) : Prop :=
  calls !! (i + gap)%nat = Some index_endscan ∧
  calls !! (i + gap + 1)%nat = Some index_beginscan ∧
  calls !! (i + gap + 2)%nat = Some index_rescan ∧
  ∃ found, calls !! (i + gap + 3)%nat = Some (index_getnext_slot found).

(** [sub] occurs in [s]. *)
Definition contains (sub s : string) : Prop :=
  ∃ pre post, s = pre +:+ sub +:+ post.

(** The text of the key tuple that the server-log sink prints: empty
    when the record's local tuple is flagged null, the rendering of the
    local tuple otherwise. *)
Definition pkey_text (env : Env) (conflict : BdrApplyConflict) : Result string :=
  if negb (local_tuple_null conflict)
  then row_to_stringinfo env "" (local_tuple conflict)
  else Ok "".

(** The operation the remote change is reported as. *)
Definition remote_operation (ct : BdrConflictType) : string :=
  match ct with
  | BdrConflictType_InsertInsert | BdrConflictType_InsertUpdate => "INSERT"
  | BdrConflictType_UpdateUpdate | BdrConflictType_UpdateDelete => "UPDATE"
  | BdrConflictType_DeleteDelete => "DELETE"
  | BdrConflictType_UnhandledTxAbort => ""
  end.

(** The conflict types reported with the node that last wrote the row. *)
Definition row_was_found (ct : BdrConflictType) : bool :=
  match ct with
  | BdrConflictType_InsertInsert | BdrConflictType_InsertUpdate
  | BdrConflictType_UpdateUpdate => true
  | _ => false
  end.

(** What the line says about the local row. *)
Definition local_row_phrase (env : Env) (conflict : BdrApplyConflict) : string :=
  if row_was_found (conflict_type conflict) then
    " row was previously " +:+
    (if decide (conflict_type conflict = BdrConflictType_InsertInsert)
     then "INSERTed" else "UPDATEd") +:+
    " at node " +:+
    BDR_NODEID_FORMAT_WITHNAME env (local_tuple_origin_node conflict)
  else " could not find existing row".

End Spec.
Import Spec.

(** ** Array accesses *)

Module Mem.

Local Open Scope list_scope.

(** What a piece of code that indexes arrays comes to: it returns, it is
    left by an error, or it reads or writes outside an array, which C
    leaves undefined. *)
Inductive Partial (A : Type) : Type :=
| Done (a : A)
| Fail (f : Failure)
| OutOfBounds.
Global Arguments Done {A} a.
Global Arguments Fail {A} f.
Global Arguments OutOfBounds {A}.

Global Instance partial_ret : MRet Partial := fun A a => Done a.
Global Instance partial_bind : MBind Partial := fun A B k m =>
  match m with
  | Done a => k a
  | Fail f => Fail f
  | OutOfBounds => OutOfBounds
  end.

Definition lift {A} (r : Result A) : Partial A :=
  match r with
  | Ok a => Done a
  | Raise f => Fail f
  end.

(** [a[i]] read, for a C int [i]. *)
Definition load {A} (a : list A) (i : Z) : Partial A :=
  if decide (0 ≤ i)%Z then
    match a !! Z.to_nat i with
    | Some x => Done x
    | None => OutOfBounds
    end
  else OutOfBounds.

(** [a[i] = x]. *)
Definition store {A} (a : list A) (i : nat) (x : A) : Partial (list A) :=
  if decide (i < length a)%nat then Done (<[i := x]> a) else OutOfBounds.

End Mem.

(** ** Scan keys for the index lookup (bdr_executor.c) *)

Module ScanKeys.

Import Mem.
Local Open Scope list_scope.

Definition BTEqualStrategyNumber : N := 3.
Definition SK_ISNULL : N := 1.
Definition C_COLLATION_OID : Oid := 950%N.

(** ScanKeyData (access/skey.h); [sk_func] holds the procedure that
    fmgr_info looked up. *)
Record ScanKeyData : Type := mkScanKey {
  sk_flags : N;
  sk_attno : Z;
  sk_strategy : N;
  sk_subtype : Oid;
  sk_collation : Oid;
  sk_func : Oid;
  sk_argument : N
}.

(** BDRTupleData (bdr.h): the columns of a tuple as arrays. *)
Record BDRTupleData : Type := mkTupleData {
  values : list N;
  isnull : list bool;
  changed : list bool
}.

(** What the code reads of an index relation: its number of columns and
    the [indclass] and [indkey] columns of its pg_index row ([None]: the
    column is NULL). *)
Record IndexRelation : Type := mkIndexRel {
  relnatts : nat;
  indclass : option (list Oid);
  indkey : option (list Z)
}.

(** IndexInfo (nodes/execnodes.h), the fields the code reads. *)
Record IndexInfo : Type := mkIndexInfo {
  ii_NumIndexAttrs : nat;
  ii_Unique : bool;
  ii_Expressions : list string
}.

(** ResultRelInfo (nodes/execnodes.h), the fields the code reads. *)
Record ResultRelInfo : Type := mkResultRelInfo {
  ri_NumIndices : nat;
  ri_RelationDesc : TupleDesc;
  ri_IndexRelationDescs : list IndexRelation;
  ri_IndexRelationInfo : list IndexInfo
}.

(** The catalog lookups the code calls. *)
Record Catalog : Type := mkCatalog {
  use_assert_checking : bool;
  attnumTypeId : TupleDesc → Z → Result Oid;
  get_opclass_input_type : Oid → Result Oid;
  get_opclass_family : Oid → Result Oid;
  get_opfamily_member : Oid → Oid → Oid → N → Oid;
  get_opcode : Oid → Oid;
  fmgr_info : Oid → Result unit
}.

(** ScanKeyInit (access/common/scankey.c) on [&skey[entry]]: fills the
    entry, then looks the procedure up. Returns the array and the entry
    written. *)
Definition ScanKeyInit (cat : Catalog) (skey : list (option ScanKeyData))
    (entry : nat) (attributeNumber : Z) (strategy : N) (procedure : Oid)
    (argument : N) : Partial (list (option ScanKeyData) * ScanKeyData) :=
  let key := mkScanKey 0 attributeNumber strategy InvalidOid C_COLLATION_OID
                       procedure argument in
  skey ← store skey entry (Some key);
  _ ← lift (fmgr_info cat procedure);
  Done (skey, key).

(** [skey[attoff].sk_flags |= SK_ISNULL]. *)
Definition set_SK_ISNULL (key : ScanKeyData) : ScanKeyData :=
  mkScanKey (N.lor (sk_flags key) SK_ISNULL) (sk_attno key) (sk_strategy key)
            (sk_subtype key) (sk_collation key) (sk_func key) (sk_argument key).

(** [p->values[i]] for a pointer [p] that DatumGetPointer made of a
    column; [None] is the NULL pointer. *)
Definition load_via {A} (p : option (list A)) (i : Z) : Partial A :=
  match p with
  | Some a => load a i
  | None => Fail NullDereference
  end.

(** One turn of the loop of build_index_scan_key; an entry of [skey] is
    [None] while nothing has been written to it. *)
Definition build_index_scan_key_att (cat : Catalog) (rel : TupleDesc)
    (opclass : option (list Oid)) (indkey : option (list Z)) (tup : BDRTupleData)
    (attoff : nat) (acc : list (option ScanKeyData) * bool)
  : Partial (list (option ScanKeyData) * bool) :=
  let '(skey, hasnulls) := acc in
  let pkattno := (Z.of_nat attoff + 1)%Z in
  mainattno ← load_via indkey (Z.of_nat attoff);
  atttype ← lift (attnumTypeId cat rel mainattno);
  opc ← load_via opclass (Z.of_nat attoff);
  optype ← lift (get_opclass_input_type cat opc);
  opfamily ← lift (get_opclass_family cat opc);
  let operator := get_opfamily_member cat opfamily optype optype BTEqualStrategyNumber in
  if decide (operator = InvalidOid) then
    Fail (ERROR ("could not lookup equality operator for type " +:+ pretty atttype
                 +:+ ", optype " +:+ pretty optype
                 +:+ " in opfamily " +:+ pretty opfamily))
  else
    let regop := get_opcode cat operator in
    (* FIXME: convert type? *)
    argument ← load (values tup) (mainattno - 1);
    '(skey, key) ← ScanKeyInit cat skey attoff pkattno BTEqualStrategyNumber
                     regop argument;
    null ← load (isnull tup) (mainattno - 1);
    if null : bool then
      skey ← store skey attoff (Some (set_SK_ISNULL key));
      Done (skey, true)
    else Done (skey, hasnulls).

(** The loop [for (attoff = from; attoff < from + n; attoff++)]. *)
Fixpoint build_index_scan_key_loop (cat : Catalog) (rel : TupleDesc)
    (opclass : option (list Oid)) (indkey : option (list Z)) (tup : BDRTupleData)
    (n from : nat) (acc : list (option ScanKeyData) * bool)
  : Partial (list (option ScanKeyData) * bool) :=
  match n with
  | O => Done acc
  | S n' =>
      acc ← build_index_scan_key_att cat rel opclass indkey tup from acc;
      build_index_scan_key_loop cat rel opclass indkey tup n' (S from) acc
  end.

(** Setup a ScanKey for a search in the relation [rel] for a tuple [tup].
    Returns the keys and whether any column contains NULLs. *)
Definition build_index_scan_key (cat : Catalog) (skey : list (option ScanKeyData))
    (rel : TupleDesc) (idxrel : IndexRelation) (tup : BDRTupleData)
  : Partial (list (option ScanKeyData) * bool) :=
  _ ← lift (Assert (use_assert_checking cat) (bool_decide (is_Some (indclass idxrel)))
                   "!isnull");
  _ ← lift (Assert (use_assert_checking cat) (bool_decide (is_Some (indkey idxrel)))
                   "!isnull");
  build_index_scan_key_loop cat rel (indclass idxrel) (indkey idxrel) tup
    (relnatts idxrel) 0 (skey, false).

(** One turn of the loop of build_index_scan_keys; an entry of
    [scan_keys] is [None] for a NULL pointer. *)
Definition build_index_scan_keys_index (cat : Catalog) (relinfo : ResultRelInfo)
    (tup : BDRTupleData) (i : nat)
    (scan_keys : list (option (list (option ScanKeyData))))
  : Partial (list (option (list (option ScanKeyData)))) :=
  ii ← load (ri_IndexRelationInfo relinfo) (Z.of_nat i);
  (* Only unique indexes are of interest here, and we can't deal with
     expression indexes so far. *)
  if negb (ii_Unique ii) || negb (bool_decide (ii_Expressions ii = [])) then
    store scan_keys i None
  else
    let fresh := replicate (ii_NumIndexAttrs ii) None in
    scan_keys ← store scan_keys i (Some fresh);
    idxrel ← load (ri_IndexRelationDescs relinfo) (Z.of_nat i);
    (* Only return index if we could build a key without NULLs. *)
    '(skey, hasnulls) ← build_index_scan_key cat fresh (ri_RelationDesc relinfo) idxrel tup;
    if hasnulls : bool then store scan_keys i None
    else store scan_keys i (Some skey).

Fixpoint build_index_scan_keys_loop (cat : Catalog) (relinfo : ResultRelInfo)
    (tup : BDRTupleData) (n from : nat)
    (scan_keys : list (option (list (option ScanKeyData))))
  : Partial (list (option (list (option ScanKeyData)))) :=
  match n with
  | O => Done scan_keys
  | S n' =>
      scan_keys ← build_index_scan_keys_index cat relinfo tup from scan_keys;
      build_index_scan_keys_loop cat relinfo tup n' (S from) scan_keys
  end.

(** build scankeys for each index *)
Definition build_index_scan_keys (cat : Catalog) (relinfo : ResultRelInfo)
    (scan_keys : list (option (list (option ScanKeyData)))) (tup : BDRTupleData)
  : Partial (list (option (list (option ScanKeyData)))) :=
  build_index_scan_keys_loop cat relinfo tup (ri_NumIndices relinfo) 0 scan_keys.

End ScanKeys.

(** ** The ExecutorStart hook (bdr_executor.c) *)

Module ExecutorStart.

Import Mem.
Local Open Scope list_scope.

(** CmdType (nodes/nodes.h). *)
Inductive CmdType : Type :=
| CMD_UNKNOWN
| CMD_SELECT
| CMD_UPDATE
| CMD_INSERT
| CMD_DELETE
| CMD_MERGE
| CMD_UTILITY
| CMD_NOTHING.

Global Instance CmdType_eq_dec : EqDecision CmdType.
Proof. solve_decision. Defined.

Record RangeTblEntry : Type := mkRTE {
  relid : Oid
}.

(** PlannedStmt (nodes/plannodes.h), the fields the code reads. *)
Record PlannedStmt : Type := mkPlannedStmt {
  commandType : CmdType;
  hasModifyingCTE : bool;
  rowMarks : list N;
  rtable : list RangeTblEntry;
  resultRelations : list Z
}.

Record QueryDesc : Type := mkQueryDesc {
  operation : CmdType;
  plannedstmt : option PlannedStmt
}.

(** A relcache entry, as far as the code reads it. *)
Record RelationData : Type := mkRelation {
  RelationGetRelationName : string;
  RelationGetNamespace : Oid;
  RelationNeedsWAL : bool;
  rd_indexvalid : bool;
  rd_replidindex : Oid
}.

Definition PG_CATALOG_NAMESPACE : Oid := 11%N.

Definition OidIsValid (oid : Oid) : bool := negb (bool_decide (oid = InvalidOid)).

(** What the hook reads of the backend, and the functions it calls.
    [RelationGetIndexList] gives the [rd_replidindex] that the call leaves
    in the relcache entry. *)
Record Session : Type := mkSession {
  bdr_always_allow_writes : bool;
  replorigin_session_origin : RepOriginId;
  MyDatabaseId : Oid;
  bdr_is_bdr_activated_db : Oid → Result bool;
  bdr_local_node_read_only : Result bool;
  bdr_permit_unsafe_commands : bool;
  bdr_locks_check_dml : Result unit;
  in_bdr_replicate_ddl_command : bool;
  bdr_extension_nestlevel : Z;
  RelationIdGetRelation : Oid → option RelationData;
  RelationGetIndexList : RelationData → Oid;
  CreateCommandName : PlannedStmt → string;
  PrevExecutorStart_hook : option (QueryDesc → Z → Result unit);
  standard_ExecutorStart : QueryDesc → Z → Result unit
}.

(** [p->field] for a pointer that may be NULL. *)
Definition deref {A} (p : option A) : Partial A :=
  match p with
  | Some a => Done a
  | None => Fail NullDereference
  end.

Definition CreateWritableStmtTag (s : Session) (plannedstmt : PlannedStmt) : string :=
  if decide (commandType plannedstmt = CMD_SELECT) then "DML" (* SELECT INTO/WCTE *)
  else CreateCommandName s plannedstmt.

(** identify whether this is a modifying statement *)
Definition performs_writes (queryDesc : QueryDesc) : bool :=
  match plannedstmt queryDesc with
  | Some ps =>
      if hasModifyingCTE ps || negb (bool_decide (rowMarks ps = [])) then true
      else negb (bool_decide (operation queryDesc = CMD_SELECT))
  | None => negb (bool_decide (operation queryDesc = CMD_SELECT))
  end.

(** The body of [foreach(l, plannedstmt->resultRelations)] for one entry:
    [Done tt] is [continue]. *)
Definition check_result_relation (s : Session) (plannedstmt : PlannedStmt)
    (read_only_node : bool) (rtei : Z) : Partial unit :=
  rte ← load (rtable plannedstmt) (rtei - 1);
  rel ← deref (RelationIdGetRelation s (relid rte));
  (* Skip UNLOGGED and TEMP tables *)
  if negb (RelationNeedsWAL rel) then Done tt
  else if decide (RelationGetNamespace rel = PG_CATALOG_NAMESPACE) then Done tt
  else if read_only_node then
    Fail (ERROR (CreateWritableStmtTag s plannedstmt
                 +:+ " may only affect UNLOGGED or TEMPORARY tables on read-only BDR node; "
                 +:+ RelationGetRelationName rel +:+ " is a regular table"))
  else
    let replidindex :=
      if rd_indexvalid rel then rd_replidindex rel else RelationGetIndexList s rel in
    if OidIsValid replidindex then Done tt
    else
      Fail (ERROR ("Cannot run UPDATE or DELETE on table "
                   +:+ RelationGetRelationName rel
                   +:+ " because it does not have a PRIMARY KEY.")).

Fixpoint check_result_relations (s : Session) (plannedstmt : PlannedStmt)
    (read_only_node : bool) (l : list Z) : Partial unit :=
  match l with
  | [] => Done tt
  | rtei :: l' =>
      _ ← check_result_relation s plannedstmt read_only_node rtei;
      check_result_relations s plannedstmt read_only_node l'
  end.

(** The code of BdrExecutorStart before the label [done]; [Done tt] is
    reaching the label. *)
Definition BdrExecutorStart_checks (s : Session) (queryDesc : QueryDesc)
  : Partial unit :=
  if bdr_always_allow_writes s then Done tt
  (* don't perform filtering while replaying *)
  else if negb (bool_decide (replorigin_session_origin s = InvalidRepOriginId)) then Done tt
  else if negb (performs_writes queryDesc) then Done tt
  else
    activated ← lift (bdr_is_bdr_activated_db s (MyDatabaseId s));
    if negb activated then Done tt
    else
      read_only ← lift (bdr_local_node_read_only s);
      let read_only_node := read_only && negb (bdr_permit_unsafe_commands s) in
      (* check for concurrent global DDL locks *)
      _ ← lift (bdr_locks_check_dml s);
      if in_bdr_replicate_ddl_command s
         && bool_decide (bdr_extension_nestlevel s = 0%Z)
         && (bool_decide (operation queryDesc = CMD_INSERT)
             || bool_decide (operation queryDesc = CMD_UPDATE)
             || bool_decide (operation queryDesc = CMD_DELETE))
      then
        Fail (ERROR "row-data-modifying statements INSERT, UPDATE and DELETE are not permitted inside bdr.replicate_ddl_command")
      else
        (* plain INSERTs are ok beyond this point if node is not read-only *)
        plain_insert ←
          (if bool_decide (operation queryDesc = CMD_INSERT) then
             ps ← deref (plannedstmt queryDesc);
             Done (negb (hasModifyingCTE ps) && negb read_only_node)
           else Done false);
        if plain_insert : bool then Done tt
        else
          (* Fail if query tries to UPDATE or DELETE any of tables without PK *)
          ps ← deref (plannedstmt queryDesc);
          check_result_relations s ps read_only_node (resultRelations ps).

(** The code after the label [done]. *)
Definition BdrExecutorStart_done (s : Session) (queryDesc : QueryDesc)
    (eflags : Z) : Result unit :=
  match PrevExecutorStart_hook s with
  | Some hook => hook queryDesc eflags
  | None => standard_ExecutorStart s queryDesc eflags
  end.

(** The BDR ExecutorStart_hook that does DDL lock checks and forbids
    writing into tables without replica identity index. *)
Definition BdrExecutorStart (s : Session) (queryDesc : QueryDesc) (eflags : Z)
  : Partial unit :=
  _ ← BdrExecutorStart_checks s queryDesc;
  lift (BdrExecutorStart_done s queryDesc eflags).

End ExecutorStart.

(** ** More vocabulary *)

Module Spec2.

Local Open Scope list_scope.

(** A column of the arrays as the memsets left it. *)
Definition untouched : option Datum * option bool := (Some DatumZero, Some false).

(** What heap_form_tuple makes of a cell. *)
Definition formed (c : option Datum * option bool) : option (option Datum) :=
  match c with
  | (Some v, Some isnull) => Some (if isnull : bool then None else Some v)
  | _ => None
  end.

(** SQL NULL / a stored value, as a formed column. *)
Definition sql_null : option (option Datum) := Some None.
Definition sql_value (d : Datum) : option (option Datum) := Some (Some d).

(** A nullable text column. *)
Definition sql_text (s : option string) : option (option Datum) :=
  Some (CStringGetTextDatum <$> s).

(** A column stored only when [present]. *)
Definition sql_opt (present : bool) (d : Datum) : option (option Datum) :=
  if present then sql_value d else sql_null.

(** What the row holds for a tuple of the record: NULL when the record
    flags the tuple null, the JSON that row_to_json made of it otherwise. *)
Definition tuple_column (env : Env) (row : CompositeDatum) (row_isnull : bool)
    (col : option (option Datum)) : Prop :=
  if row_isnull then col = sql_null
  else ∃ td json,
         row = HeapTupleHeaderGetDatum td ∧ row_to_json env td = Ok json ∧
         col = sql_value (JsonDatum json).

(** The sizes of the two arrays being filled. *)
Definition dims (f : TupleForm) : nat * nat :=
  (length (values f), length (nulls f)).

(** How often a call occurs in a trace. *)
Definition count (c : Call) (calls : list Call) : nat :=
  length (filter (fun x => x = c) calls).


End Spec2.
Import Spec2.

(** ** Vocabulary for the scan keys *)

Module ScanKeySpec.

Import ScanKeys.
Local Open Scope list_scope.

(** The value and the null flag that [tup] holds for the table column
    behind column [attoff] of the index. *)
Definition key_column (tup : BDRTupleData) (idxrel : IndexRelation)
    (attoff : nat) : option (N * bool) :=
  ik ← indkey idxrel;
  mainattno ← ik !! attoff;
  if decide (1 ≤ mainattno)%Z then
    v ← values tup !! Z.to_nat (mainattno - 1);
    b ← isnull tup !! Z.to_nat (mainattno - 1);
    Some (v, b)
  else None.

(** An equality key on index column [attoff] with argument [arg], flagged
    SK_ISNULL when [null]. *)
Definition equality_key (attoff : nat) (arg : N) (null : bool)
    (key : ScanKeyData) : Prop :=
  sk_attno key = (Z.of_nat attoff + 1)%Z ∧
  sk_strategy key = BTEqualStrategyNumber ∧
  sk_argument key = arg ∧
  sk_flags key = (if null then SK_ISNULL else 0%N).

(** An index build_index_scan_keys builds a key for: unique, and on plain
    columns only. *)
Definition eligible (ii : IndexInfo) : bool :=
  ii_Unique ii && bool_decide (ii_Expressions ii = []).

(** Some key column of the index is NULL in [tup]. *)
Definition has_null_key (tup : BDRTupleData) (idxrel : IndexRelation) : Prop :=
  ∃ attoff arg, (attoff < relnatts idxrel)%nat ∧
                key_column tup idxrel attoff = Some (arg, true).

(** The catalog knows column [attoff] of the index: its table column, its
    operator class with input type and family, the family's equality
    operator, and the function behind that operator. *)
Definition column_resolves (cat : Catalog) (rel : TupleDesc)
    (idxrel : IndexRelation) (attoff : nat) : Prop :=
  ∃ ik oc mainattno opc atttype optype opfamily,
    indkey idxrel = Some ik ∧ ik !! attoff = Some mainattno ∧
    indclass idxrel = Some oc ∧ oc !! attoff = Some opc ∧
    attnumTypeId cat rel mainattno = Ok atttype ∧
    get_opclass_input_type cat opc = Ok optype ∧
    get_opclass_family cat opc = Ok opfamily ∧
    get_opfamily_member cat opfamily optype optype BTEqualStrategyNumber
      ≠ InvalidOid ∧
    fmgr_info cat
      (get_opcode cat
         (get_opfamily_member cat opfamily optype optype BTEqualStrategyNumber))
      = Ok tt.

End ScanKeySpec.

(** ** Vocabulary for the ExecutorStart hook *)

Module ExecutorStartSpec.

Import ExecutorStart.
Local Open Scope list_scope.

(** The hook gets as far as its checks: writes are not always allowed, the
    session is not replaying, the statement writes, and the database is
    BDR-activated. *)
Definition filtered (s : Session) (queryDesc : QueryDesc) : Prop :=
  bdr_always_allow_writes s = false ∧
  replorigin_session_origin s = InvalidRepOriginId ∧
  performs_writes queryDesc = true ∧
  bdr_is_bdr_activated_db s (MyDatabaseId s) = Ok true.

(** The node counts as read-only: bdr_nodes says so and unsafe commands
    are not permitted. *)
Definition read_only_node (s : Session) : Prop :=
  bdr_local_node_read_only s = Ok true ∧ bdr_permit_unsafe_commands s = false.

(** The statement is DML run directly inside bdr.replicate_ddl_command. *)
Definition dml_in_replicate_ddl_command (s : Session) (queryDesc : QueryDesc) : Prop :=
  in_bdr_replicate_ddl_command s = true ∧ bdr_extension_nestlevel s = 0%Z ∧
  (operation queryDesc = CMD_INSERT ∨ operation queryDesc = CMD_UPDATE ∨
   operation queryDesc = CMD_DELETE).

(** An INSERT whose plan has no data-modifying CTE. *)
Definition plain_insert (queryDesc : QueryDesc) : Prop :=
  operation queryDesc = CMD_INSERT ∧
  ∃ ps, plannedstmt queryDesc = Some ps ∧ hasModifyingCTE ps = false.

(** The relation behind entry [rtei] of [resultRelations]. *)
Definition result_relation (s : Session) (ps : PlannedStmt) (rtei : Z)
  : option RelationData :=
  if decide (1 ≤ rtei)%Z then
    rte ← rtable ps !! Z.to_nat (rtei - 1);
    RelationIdGetRelation s (relid rte)
  else None.

(** Relations the hook never objects to: UNLOGGED and TEMP tables, and
    the catalogs. *)
Definition exempt (rel : RelationData) : Prop :=
  RelationNeedsWAL rel = false ∨ RelationGetNamespace rel = PG_CATALOG_NAMESPACE.

(** The relation has a replica identity index, by its relcache entry or,
    if that has no valid index list, by RelationGetIndexList. *)
Definition has_replica_identity (s : Session) (rel : RelationData) : Prop :=
  (if rd_indexvalid rel then rd_replidindex rel else RelationGetIndexList s rel)
    ≠ InvalidOid.

(** A result relation the hook lets pass: it exists and is exempt, or the
    node is not read-only and the relation has a replica identity index. *)
Definition admissible (s : Session) (ps : PlannedStmt) (rtei : Z) : Prop :=
  ∃ rel, result_relation s ps rtei = Some rel ∧
         (exempt rel ∨ (¬ read_only_node s ∧ has_replica_identity s rel)).

End ExecutorStartSpec.

(** ** More concrete runs *)

Module Demo2.

Local Open Scope list_scope.

(** The conflict of [Demo.update_conflict] met again after the remote
    transaction was retried under another xid. *)
Definition retried_conflict : BdrApplyConflict :=
  set_remote_txid 901%N Demo.update_conflict.

(** A dropped column and a system column. *)
Definition hidden_desc : TupleDesc :=
  [mkAttr "........pg.dropped.1........" 0%N 1 true;
   mkAttr "ctid" 27%N (-1) false].

(** A row of "accounts" whose second column is NULL. *)
Definition nameless_tuple : HeapTupleHeaderData :=
  mkTuple 700 16400 (-1) [Some 42%N; None].

(** btree equality on int4 and text, as the catalogs have it. *)
Definition catalog : ScanKeys.Catalog :=
  ScanKeys.mkCatalog true
    (fun rel attno =>
       match rel !! Z.to_nat (attno - 1) with
       | Some attr => Ok (atttypid attr)
       | None => Raise (ERROR "invalid attnum")
       end)
    (fun opc => if decide (opc = 1978%N) then Ok Demo.int4oid
                else if decide (opc = 3126%N) then Ok Demo.textoid
                else Raise (ERROR ("cache lookup failed for opclass " +:+ pretty opc)))
    (fun opc => if decide (opc = 1978%N) then Ok 1976%N
                else if decide (opc = 3126%N) then Ok 1994%N
                else Raise (ERROR ("cache lookup failed for opclass " +:+ pretty opc)))
    (fun opfamily lefttype righttype strategy =>
       if decide (opfamily = 1976%N) then 96%N
       else if decide (opfamily = 1994%N) then 98%N
       else InvalidOid)
    (fun operator => if decide (operator = 96%N) then 65%N
                     else if decide (operator = 98%N) then 67%N
                     else InvalidOid)
    (fun procedure => Ok tt).

(** A table (id int4, name text, note text) with a primary key on id, a
    unique index on (id, note), a unique index on an expression and a plain
    index on name. *)
Definition notes_desc : TupleDesc :=
  [mkAttr "id" Demo.int4oid 1 false; mkAttr "name" Demo.textoid 2 false;
   mkAttr "note" Demo.textoid 3 false].
Definition notes_pkey : ScanKeys.IndexRelation :=
  ScanKeys.mkIndexRel 1 (Some [1978%N]) (Some [1%Z]).
Definition notes_id_note_key : ScanKeys.IndexRelation :=
  ScanKeys.mkIndexRel 2 (Some [1978%N; 3126%N]) (Some [1%Z; 3%Z]).
Definition notes_lower_key : ScanKeys.IndexRelation :=
  ScanKeys.mkIndexRel 1 (Some [3126%N]) (Some [0%Z]).
Definition notes_name_idx : ScanKeys.IndexRelation :=
  ScanKeys.mkIndexRel 1 (Some [3126%N]) (Some [2%Z]).
Definition notes_relinfo : ScanKeys.ResultRelInfo :=
  ScanKeys.mkResultRelInfo 4 notes_desc
    [notes_pkey; notes_id_note_key; notes_lower_key; notes_name_idx]
    [ScanKeys.mkIndexInfo 1 true [];
     ScanKeys.mkIndexInfo 2 true [];
     ScanKeys.mkIndexInfo 1 true ["lower(name)"];
     ScanKeys.mkIndexInfo 1 false []].

(** The tuple (42, 1000, NULL). *)
Definition notes_tuple : ScanKeys.BDRTupleData :=
  ScanKeys.mkTupleData [42%N; 1000%N; 0%N] [false; false; true]
                       [true; true; true].

(** Relations: 16390 "accounts" with a primary key, 16391 "journal"
    without one, 16392 an UNLOGGED table without one. *)
Definition relations (relid : Oid) : option ExecutorStart.RelationData :=
  if decide (relid = 16390%N) then
    Some (ExecutorStart.mkRelation "accounts" 2200 true true 16395)
  else if decide (relid = 16391%N) then
    Some (ExecutorStart.mkRelation "journal" 2200 true true InvalidOid)
  else if decide (relid = 16392%N) then
    Some (ExecutorStart.mkRelation "scratch" 2200 false false InvalidOid)
  else None.

(** A user backend of a BDR-activated database. *)
Definition session (read_only in_ddl_command : bool) (origin : RepOriginId)
  : ExecutorStart.Session :=
  ExecutorStart.mkSession false origin 16384%N
    (fun dboid => Ok (bool_decide (dboid = 16384%N)))
    (Ok read_only) false (Ok tt) in_ddl_command 0
    relations (fun rel => InvalidOid)
    (fun ps => match ExecutorStart.commandType ps with
               | ExecutorStart.CMD_UPDATE => "UPDATE"
               | ExecutorStart.CMD_DELETE => "DELETE"
               | ExecutorStart.CMD_INSERT => "INSERT"
               | _ => "???"
               end)
    None (fun queryDesc eflags => Ok tt).

Definition user_session : ExecutorStart.Session := session false false InvalidRepOriginId.
Definition read_only_session : ExecutorStart.Session := session true false InvalidRepOriginId.
Definition ddl_command_session : ExecutorStart.Session := session false true InvalidRepOriginId.
Definition apply_session : ExecutorStart.Session := session false false 1%N.

(** The range table (scratch, accounts, journal) and statements on it. *)
Definition range_table : list ExecutorStart.RangeTblEntry :=
  [ExecutorStart.mkRTE 16392; ExecutorStart.mkRTE 16390; ExecutorStart.mkRTE 16391].
Definition statement (op : ExecutorStart.CmdType) (targets : list Z)
  : ExecutorStart.QueryDesc :=
  ExecutorStart.mkQueryDesc op
    (Some (ExecutorStart.mkPlannedStmt op false [] range_table targets)).

Definition update_accounts : ExecutorStart.QueryDesc :=
  statement ExecutorStart.CMD_UPDATE [1%Z; 2%Z].
Definition update_journal : ExecutorStart.QueryDesc :=
  statement ExecutorStart.CMD_UPDATE [1%Z; 3%Z].
Definition insert_journal : ExecutorStart.QueryDesc :=
  statement ExecutorStart.CMD_INSERT [3%Z].

End Demo2.

(** * Properties *)

(** ** The conflict-record builder *)

Section Builder.

Context (env : Env).

Lemma Assert_Ok (checking cond : bool) (text : string) :
  (checking = true → cond = true) → Assert checking cond text = Ok tt.
Proof.
  unfold Assert. destruct checking, cond; simpl; try done.
  intros H. by specialize (H eq_refl).
Qed.

Lemma xmin_assertion_Ok (slot : TupleTableSlot) :
  xmin_assertion_holds env (Some slot) →
  Assert (USE_ASSERT_CHECKING env)
    (bool_decide (FirstNormalTransactionId ≤ t_xmin (tts_tuple slot))%N
     || bool_decide (t_xmin (tts_tuple slot) = FrozenTransactionId)) 
    "conflict->local_tuple_xmin >= FirstNormalTransactionId || conflict->local_tuple_xmin == FrozenTransactionId"
  = Ok tt.
Proof.
  intros H. apply Assert_Ok. intros Hc. destruct (H Hc) as [Hle | Heq].
  - rewrite (bool_decide_eq_true_2 _ Hle). done.
  - rewrite (bool_decide_eq_true_2 _ Heq). apply orb_true_r.
Qed.

(** When the builder returns: both origin lookups it makes succeed, and
    the xmin assertion holds where it is checked. *)
Lemma bdr_make_apply_conflict_returns
    ct res rtxid rel (local_slot : option TupleTableSlot) loid remote_slot lts err
    (remote : BDRNodeId) :
  origin_registry env !! replorigin_session_origin env = Some remote →
  (loid = InvalidRepOriginId ∨ is_Some (origin_registry env !! loid)) →
  xmin_assertion_holds env local_slot →
  ∃ c, bdr_make_apply_conflict env ct res rtxid rel local_slot loid remote_slot
         lts err = Ok c.
Proof.
  intros Hremote Hloid Hxmin.
  unfold bdr_make_apply_conflict, bdr_fetch_sysid_via_node_id.
  rewrite Hremote. cbn [mbind result_bind].
  destruct local_slot as [slot|].
  - cbn [local_tuple_xmin set_local_tuple_xmin].
    rewrite (xmin_assertion_Ok slot Hxmin). cbn [mbind result_bind].
    destruct (bdr_conflict_logging_include_tuples env); cbn [mbind result_bind];
      (destruct (decide (loid ≠ InvalidRepOriginId)) as [Hne|_];
       [ destruct Hloid as [->|[node Hnode]]; [done|]; rewrite Hnode | ];
       cbn [mbind result_bind]; eauto).
  - cbn [mbind result_bind].
    destruct (decide (loid ≠ InvalidRepOriginId)) as [Hne|_];
      [ destruct Hloid as [->|[node Hnode]]; [done|]; rewrite Hnode | ];
      cbn [mbind result_bind]; eauto.
Qed.

End Builder.

(** Unfold a successful run of the builder and split on every choice it
    makes. *)
Ltac builder_inv H :=
  unfold bdr_make_apply_conflict, mbind, result_bind in H;
  repeat (case_match; simplify_eq/=);
  try discriminate.

Section BuilderClaims.

Context (env : Env).

Lemma bdr_make_apply_conflict_stamp
    ct res rtxid rel local_slot loid remote_slot lts err (c : BdrApplyConflict) :
  bdr_make_apply_conflict env ct res rtxid rel local_slot loid remote_slot
    lts err = Ok c →
  local_conflict_txid c = GetTopTransactionIdIfAny env ∧
  local_conflict_lsn c = GetXLogInsertRecPtr env ∧
  local_conflict_time c = GetCurrentTimestamp env.
Proof.
  intros H. builder_inv H; done.
Qed.

(** C6: every record the builder returns carries, as local_conflict_txid,
    local_conflict_lsn and local_conflict_time, the current top-level
    transaction id, the current WAL insert position and the current
    wall-clock time of the call; and two calls in the same surroundings
    that differ only in the commit timestamps of the local write (the
    argument) and of the remote write (the session origin timestamp) agree
    on the three fields. *)
Theorem local_conflict_stamp_is_current
    ct res rtxid rel local_slot loid remote_slot err
    (local_commit_ts local_commit_ts' remote_commit_ts' : TimestampTz)
    (c c' : BdrApplyConflict) :
  bdr_make_apply_conflict env ct res rtxid rel local_slot loid remote_slot
    local_commit_ts err = Ok c →
  bdr_make_apply_conflict (with_origin_timestamp remote_commit_ts' env)
    ct res rtxid rel local_slot loid remote_slot local_commit_ts' err = Ok c' →
  (local_conflict_txid c = GetTopTransactionIdIfAny env ∧
   local_conflict_lsn c = GetXLogInsertRecPtr env ∧
   local_conflict_time c = GetCurrentTimestamp env) ∧
  (local_conflict_txid c' = local_conflict_txid c ∧
   local_conflict_lsn c' = local_conflict_lsn c ∧
   local_conflict_time c' = local_conflict_time c).
Proof.
  intros H H'.
  apply bdr_make_apply_conflict_stamp in H as (Hxid & Hlsn & Htime).
  builder_inv H'; rewrite Hxid, Hlsn, Htime; done.
Qed.

(** C8: with bdr_conflict_logging_include_tuples off, the returned record
    has remote_tuple_null set whether or not a remote tuple was supplied,
    but for a supplied (non-NULL) local tuple local_tuple_null stays false
    while the local_tuple Datum stays zero: on the local side the flag and
    the stored tuple disagree. *)
Theorem tuple_redaction_is_asymmetric
    ct res rtxid rel local_slot loid remote_slot lts err
    (c : BdrApplyConflict) :
  bdr_conflict_logging_include_tuples env = false →
  bdr_make_apply_conflict env ct res rtxid rel local_slot loid remote_slot
    lts err = Ok c →
  remote_tuple_null c = true ∧
  remote_tuple c = NullDatum ∧
  (is_Some local_slot →
   local_tuple_null c = false ∧ local_tuple c = NullDatum).
Proof.
  intros Hoff H. builder_inv H; repeat split; try done;
    intros [? ?]; done.
Qed.

(** C10: called with local_tuple_origin_id = InvalidRepOriginId, the
    builder attributes the local tuple to the local node: the returned
    record's local_tuple_origin_node is the node's own id. *)
Theorem local_origin_defaults_to_own_node
    ct res rtxid rel local_slot remote_slot lts err (c : BdrApplyConflict) :
  bdr_make_apply_conflict env ct res rtxid rel local_slot InvalidRepOriginId
    remote_slot lts err = Ok c →
  local_tuple_origin_node c = bdr_make_my_nodeid env.
Proof.
  intros H. builder_inv H; done.
Qed.

(** C3, as the code has it: the builder makes no transaction-state check.
    In two backends that agree on what it reads apart from the current
    transaction it returns under the same conditions and raises the same
    errors, and the records it returns differ only in local_conflict_txid,
    which is each backend's GetTopTransactionIdIfAny(). It returns a record
    whenever the two origin lookups succeed (and, in an assert-enabled
    build, the local tuple's xmin is normal or frozen); when the session
    origin has no registered node it raises the lookup error, also inside a
    live transaction. *)
Theorem builder_ignores_transaction_state
    ct res rtxid rel local_slot loid remote_slot lts err :
  (∀ env', same_builder_inputs env env' →
     bdr_make_apply_conflict env'
       ct res rtxid rel local_slot loid remote_slot lts err =
     (c ← bdr_make_apply_conflict env
            ct res rtxid rel local_slot loid remote_slot lts err;
      Ok (set_local_conflict_txid (GetTopTransactionIdIfAny env') c))) ∧
  (is_Some (origin_registry env !! replorigin_session_origin env) →
   (loid = InvalidRepOriginId ∨ is_Some (origin_registry env !! loid)) →
   xmin_assertion_holds env local_slot →
   ∃ c, bdr_make_apply_conflict env ct res rtxid rel local_slot loid
          remote_slot lts err = Ok c) ∧
  (origin_registry env !! replorigin_session_origin env = None →
   ∃ msg, bdr_make_apply_conflict env ct res rtxid rel local_slot loid
            remote_slot lts err = Raise (ERROR msg)).
Proof.
  split; [|split].
  - intros env' (Htup & Hchk & Hlsn & Hnow & Horigin & Hots & Holsn & Hme & Hreg & Hns).
    unfold bdr_make_apply_conflict, bdr_fetch_sysid_via_node_id,
      get_namespace_name, bdr_make_my_nodeid.
    rewrite <- Htup, <- Hchk, <- Hlsn, <- Hnow, <- Horigin, <- Hots, <- Holsn,
      <- Hme, <- Hreg, <- Hns.
    destruct (origin_registry env !! replorigin_session_origin env); [|done].
    cbn [mbind result_bind].
    destruct local_slot as [slot|]; cbn [mbind result_bind].
    + destruct (Assert _ _ _) as [[]|]; [|done]. cbn [mbind result_bind].
      destruct (bdr_conflict_logging_include_tuples env); cbn [mbind result_bind];
        (case_decide; [destruct (origin_registry env !! loid); [|done]|]);
        cbn [mbind result_bind]; destruct rel, remote_slot; reflexivity.
    + case_decide; [destruct (origin_registry env !! loid); [|done]|];
        cbn [mbind result_bind];
        destruct rel, remote_slot, (bdr_conflict_logging_include_tuples env);
        reflexivity.
  - intros [remote Hremote] Hloid Hxmin.
    by eapply bdr_make_apply_conflict_returns.
  - intros Hnone. unfold bdr_make_apply_conflict, bdr_fetch_sysid_via_node_id.
    rewrite Hnone. cbn [mbind result_bind]. eauto.
Qed.

End BuilderClaims.

(** ** Forming the history tuple *)

Section TupleForming.

Lemma cell_put_value d f i : i ≠ attno f → cell (put_value d f) i = cell f i.
Proof. intros. unfold cell; simpl. by rewrite list_lookup_insert_ne. Qed.

Lemma cell_put_null f i : i ≠ attno f → cell (put_null f) i = cell f i.
Proof. intros. unfold cell; simpl. by rewrite list_lookup_insert_ne. Qed.

Lemma cell_put_value_isnull d b f i :
  i ≠ attno f → cell (put_value_isnull d b f) i = cell f i.
Proof. intros. unfold cell; simpl. by rewrite !list_lookup_insert_ne. Qed.

Lemma cell_put_if c d f i : i ≠ attno f → cell (put_if c d f) i = cell f i.
Proof.
  intros. unfold cell; destruct c; simpl; by rewrite list_lookup_insert_ne.
Qed.

Lemma cell_strtodatum f idx s i :
  i ≠ idx → cell (bdr_conflict_strtodatum f idx s) i = cell f i.
Proof.
  intros. unfold cell; destruct s; simpl; by rewrite !list_lookup_insert_ne.
Qed.

Lemma cell_put_str s f i : i ≠ attno f → cell (put_str s f) i = cell f i.
Proof.
  intros. unfold cell; destruct s; simpl; by rewrite !list_lookup_insert_ne.
Qed.

Lemma attno_strtodatum f idx s : attno (bdr_conflict_strtodatum f idx s) = attno f.
Proof. by destruct s. Qed.

Lemma attno_put_nulls n f : attno (put_nulls n f) = (n + attno f)%nat.
Proof.
  revert f. induction n as [|n IH]; intros f; simpl; [done|].
  rewrite IH. simpl. lia.
Qed.

Lemma cell_put_nulls n f i : (i < attno f)%nat → cell (put_nulls n f) i = cell f i.
Proof.
  revert f. induction n as [|n IH]; intros f Hi; simpl; [done|].
  rewrite IH by (simpl; lia). apply cell_put_null. lia.
Qed.

Lemma attno_put_error_cols env a b e f :
  attno (put_error_cols env a b e f) = (12 + attno f)%nat.
Proof. unfold put_error_cols. by rewrite !attno_strtodatum. Qed.

Lemma cell_put_error_cols env a b e f i :
  (i < attno f)%nat → i ≠ a → i ≠ b →
  cell (put_error_cols env a b e f) i = cell f i.
Proof.
  intros Hi Ha Hb. unfold put_error_cols.
  rewrite !cell_strtodatum by done.
  rewrite cell_put_str by (simpl; lia).
  rewrite cell_put_value by (simpl; lia).
  rewrite !cell_put_str by (simpl; lia).
  rewrite cell_put_if by (simpl; lia).
  rewrite cell_put_value_isnull by (simpl; lia).
  rewrite cell_put_str by (simpl; lia).
  done.
Qed.

(** A value stored into a still unused column is read back, not null. *)
Lemma cell_put_value_eq d f :
  cell f (attno f) = (Some DatumZero, Some false) →
  cell (put_value d f) (attno f) = (Some d, Some false).
Proof.
  unfold cell; simpl. intros [= Hv Hn]. rewrite Hn.
  rewrite list_lookup_insert_eq; [done|].
  apply lookup_lt_is_Some. by rewrite Hv.
Qed.

(** Every step before the conflict type column leaves column [i >= 11]
    as the memsets left it. *)
Lemma cell_form_init i :
  (i < BDR_CONFLICT_HISTORY_COLS)%nat →
  cell form_init i = (Some DatumZero, Some false).
Proof.
  intros Hi. unfold cell, form_init. cbn [values nulls].
  by rewrite !lookup_replicate_2.
Qed.

(** The formed tuple at a column whose cell is known. *)
Lemma heap_form_tuple_cell f i d :
  cell f i = (Some d, Some false) →
  formed_columns (values f) (nulls f) !! i = Some (Some d).
Proof.
  unfold cell, formed_columns. intros [= Hv Hn].
  apply lookup_zip_with_Some. by exists d, false.
Qed.

Lemma heap_form_tuple_formed f i :
  formed_columns (values f) (nulls f) !! i = formed (cell f i).
Proof.
  unfold formed_columns, cell, formed.
  destruct (values f !! i) as [v|] eqn:Hv, (nulls f !! i) as [b|] eqn:Hn.
  - apply lookup_zip_with_Some. by exists v, b.
  - apply lookup_zip_with_None. by right.
  - apply lookup_zip_with_None. by left.
  - apply lookup_zip_with_None. by left.
Qed.

Lemma heap_form_att_Ok attbyval value isnull att :
  heap_form_att attbyval value isnull = Ok att →
  att = (if isnull then None else Some value) ∧
  (isnull = false → attbyval = true ∨ is_varlena_pointer value = true).
Proof.
  unfold heap_form_att. destruct isnull; [by intros [= <-]|].
  destruct attbyval; [intros [= <-]; auto|].
  destruct (is_varlena_pointer value); [intros [= <-]; auto|].
  by case_decide.
Qed.

Lemma heap_form_att_returns attbyval value isnull :
  (isnull = false → attbyval = true ∨ is_varlena_pointer value = true) →
  heap_form_att attbyval value isnull = Ok (if isnull then None else Some value).
Proof.
  unfold heap_form_att. destruct isnull; [done|].
  destruct attbyval; [done|]. intros [?| -> ]; done.
Qed.

(** When heap_form_tuple returns, the row holds the arrays' columns, and
    every column that is not NULL is stored by value or holds a pointer. *)
Lemma heap_form_tuple_from_Ok attbyval values : ∀ i nulls row,
  heap_form_tuple_from attbyval i values nulls = Ok row →
  row = formed_columns values nulls ∧
  ∀ j v, values !! j = Some v → nulls !! j = Some false →
         attbyval (i + j)%nat = true ∨ is_varlena_pointer v = true.
Proof.
  induction values as [|value values IH]; intros i [|isnull nulls] row;
    cbn [heap_form_tuple_from]; try (intros [= <-]; by split).
  destruct (heap_form_att _ _ _) as [att|] eqn:Hatt; [|done].
  cbn [mbind result_bind].
  destruct (heap_form_tuple_from _ _ _ _) as [rest|] eqn:Hrest; [|done].
  cbn [mbind result_bind]. intros [= <-].
  apply heap_form_att_Ok in Hatt as [-> Hfit].
  apply IH in Hrest as [-> Hfits]. split; [done|].
  intros [|j] v; cbn.
  - intros [= <-] [= ->]. rewrite Nat.add_0_r. by apply Hfit.
  - intros Hv Hn. replace (i + S j)%nat with (S i + j)%nat by lia. by eapply Hfits.
Qed.

Lemma heap_form_tuple_from_returns attbyval values : ∀ i nulls,
  (∀ j v, values !! j = Some v → nulls !! j = Some false →
          attbyval (i + j)%nat = true ∨ is_varlena_pointer v = true) →
  heap_form_tuple_from attbyval i values nulls = Ok (formed_columns values nulls).
Proof.
  induction values as [|value values IH]; intros i [|isnull nulls] Hfits;
    cbn [heap_form_tuple_from]; try done.
  rewrite heap_form_att_returns.
  - cbn [mbind result_bind]. rewrite IH; [done|].
    intros j v Hv Hn. replace (S i + j)%nat with (i + S j)%nat by lia.
    by apply Hfits.
  - intros ->. specialize (Hfits 0%nat value eq_refl eq_refl).
    by rewrite Nat.add_0_r in Hfits.
Qed.

Lemma cell_put_if_at c d f i :
  i = attno f → cell f i = untouched →
  cell (put_if c d f) i =
    if c then (Some d, Some false) else (Some DatumZero, Some true).
Proof.
  intros -> [= Hv Hn]. unfold cell. destruct c; cbn [values nulls put_if].
  - rewrite Hn, list_lookup_insert_eq; [done|].
    apply lookup_lt_is_Some. by rewrite Hv.
  - rewrite Hv, list_lookup_insert_eq; [done|].
    apply lookup_lt_is_Some. by rewrite Hn.
Qed.

Lemma cell_put_null_at f i :
  i = attno f → cell f i = untouched →
  cell (put_null f) i = (Some DatumZero, Some true).
Proof.
  intros -> [= Hv Hn]. unfold cell. cbn [values nulls put_null].
  rewrite Hv, list_lookup_insert_eq; [done|].
  apply lookup_lt_is_Some. by rewrite Hn.
Qed.

Lemma cell_put_value_at d f i :
  i = attno f → cell f i = untouched →
  cell (put_value d f) i = (Some d, Some false).
Proof. intros ->. apply cell_put_value_eq. Qed.

Lemma cell_put_value_isnull_at d b f i :
  i = attno f → cell f i = untouched →
  cell (put_value_isnull d b f) i = (Some d, Some b).
Proof.
  intros -> [= Hv Hn]. unfold cell. cbn [values nulls put_value_isnull].
  rewrite !list_lookup_insert_eq; [done|..];
    apply lookup_lt_is_Some; by rewrite ?Hv, ?Hn.
Qed.

Lemma cell_strtodatum_at f i s :
  cell f i = untouched →
  cell (bdr_conflict_strtodatum f i s) i =
    match s with
    | Some str => (Some (CStringGetTextDatum str), Some false)
    | None => (Some DatumZero, Some true)
    end.
Proof.
  intros [= Hv Hn]. unfold cell.
  destruct s; cbn [values nulls bdr_conflict_strtodatum];
    (rewrite !list_lookup_insert_eq; [done|..];
     apply lookup_lt_is_Some; by rewrite ?Hv, ?Hn).
Qed.

Lemma cell_put_str_at s f i :
  i = attno f → cell f i = untouched →
  cell (put_str s f) i =
    match s with
    | Some str => (Some (CStringGetTextDatum str), Some false)
    | None => (Some DatumZero, Some true)
    end.
Proof. intros -> H. exact (cell_strtodatum_at f (attno f) s H). Qed.

(** Overwriting a column inside the arrays, as the error branch does for
    the object schema and name. *)
Lemma cell_strtodatum_over f i s :
  (i < (dims f).1)%nat → (i < (dims f).2)%nat →
  cell (bdr_conflict_strtodatum f i s) i =
    match s with
    | Some str => (Some (CStringGetTextDatum str), Some false)
    | None => (Some DatumZero, Some true)
    end.
Proof.
  unfold dims, cell. cbn [fst snd]. intros Hv Hn.
  destruct s; cbn [values nulls bdr_conflict_strtodatum];
    by rewrite !list_lookup_insert_eq.
Qed.

Lemma cell_put_nulls_at n f i :
  (attno f ≤ i < attno f + n)%nat →
  (∀ j, (attno f ≤ j < attno f + n)%nat → cell f j = untouched) →
  cell (put_nulls n f) i = (Some DatumZero, Some true).
Proof.
  revert f. induction n as [|n IH]; intros f Hi Hfresh; [lia|].
  cbn [put_nulls].
  destruct (decide (i = attno f)) as [->|Hne].
  - rewrite cell_put_nulls by (cbn; lia).
    apply cell_put_null_at; [done|]. apply Hfresh. lia.
  - apply IH; [cbn; lia|]. intros j Hj. cbn in Hj.
    rewrite cell_put_null by lia. apply Hfresh. lia.
Qed.

Lemma cell_put_nulls_after n f i :
  (attno f + n ≤ i)%nat → cell (put_nulls n f) i = cell f i.
Proof.
  revert f. induction n as [|n IH]; intros f Hi; [done|].
  cbn [put_nulls]. rewrite IH by (cbn; lia). apply cell_put_null. lia.
Qed.

Lemma Ok_inj {A} (a b : A) : Ok a = Ok b → a = b.
Proof. by intros [= ->]. Qed.

Lemma Assert_inv checking cond text :
  Assert checking cond text = Ok tt → checking = true → cond = true.
Proof. unfold Assert. by destruct checking, cond. Qed.

Lemma dims_put_value d f : dims (put_value d f) = dims f.
Proof. unfold dims. cbn. by rewrite length_insert. Qed.

Lemma dims_put_null f : dims (put_null f) = dims f.
Proof. unfold dims. cbn. by rewrite length_insert. Qed.

Lemma dims_put_value_isnull d b f : dims (put_value_isnull d b f) = dims f.
Proof. unfold dims. cbn. by rewrite !length_insert. Qed.

Lemma dims_put_if c d f : dims (put_if c d f) = dims f.
Proof. unfold dims. destruct c; cbn; by rewrite length_insert. Qed.

Lemma dims_strtodatum f i s : dims (bdr_conflict_strtodatum f i s) = dims f.
Proof. unfold dims. destruct s; cbn; by rewrite !length_insert. Qed.

Lemma dims_put_str s f : dims (put_str s f) = dims f.
Proof. exact (dims_strtodatum f (attno f) s). Qed.

Lemma dims_put_nulls n f : dims (put_nulls n f) = dims f.
Proof.
  revert f. induction n as [|n IH]; intros f; [done|].
  cbn [put_nulls]. by rewrite IH, dims_put_null.
Qed.

Lemma dims_put_error_cols env a b e f :
  dims (put_error_cols env a b e f) = dims f.
Proof.
  unfold put_error_cols.
  by rewrite !dims_strtodatum, ?dims_put_str, ?dims_put_value, ?dims_put_str,
    ?dims_put_if, ?dims_put_value_isnull, ?dims_put_str.
Qed.

Lemma formed_put_if (c : bool) d :
  formed (if c then (Some d, Some false) else (Some DatumZero, Some true)) =
  sql_opt c d.
Proof. by destruct c. Qed.

Lemma formed_put_str (s : option string) :
  formed match s with
         | Some str => (Some (CStringGetTextDatum str), Some false)
         | None => (Some DatumZero, Some true)
         end = sql_text s.
Proof. by destruct s. Qed.

End TupleForming.

Ltac attno_calc :=
  lazymatch goal with
  | |- cell _ _ = _ => fail
  | |- _ =>
      repeat progress
        (cbn [attno put_value put_null put_if put_value_isnull put_str form_init];
         rewrite ?attno_strtodatum, ?attno_put_error_cols, ?attno_put_nulls);
      unfold BDR_CONFLICT_HISTORY_COLS; lia
  end.

Ltac peel :=
  repeat first
    [ rewrite cell_strtodatum by lia
    | rewrite cell_put_if by attno_calc
    | rewrite cell_put_value_isnull by attno_calc
    | rewrite cell_put_nulls by attno_calc
    | rewrite cell_put_nulls_after by attno_calc
    | rewrite cell_put_error_cols by attno_calc
    | rewrite cell_put_str by attno_calc
    | rewrite cell_put_null by attno_calc
    | rewrite cell_put_value by attno_calc ].

Ltac fresh_cell := peel; apply cell_form_init; attno_calc.

Ltac side := first [ attno_calc | fresh_cell ].

(** Evaluate the cell at a column the chain of stores wrote once. *)
Ltac this_cell :=
  peel;
  first
    [ rewrite cell_put_if_at by side
    | rewrite cell_put_value_isnull_at by side
    | rewrite cell_put_str_at by side
    | rewrite cell_put_null_at by side
    | rewrite cell_put_value_at by side ].

(** Split a successful run of form_history_tuple on its four fallible
    steps, leaving the formed arrays as a chain of stores. *)
Ltac form_inv H :=
  unfold form_history_tuple in H; cbv zeta in H;
  let td := fresh "td" in let rd := fresh "rd" in
  destruct (bdr_conflict_type_get_datum _ _) as [td|] eqn:Htd; [|done];
  cbv beta iota delta [mbind result_bind] in H;
  destruct (bdr_conflict_resolution_get_datum _ _) as [rd|] eqn:Hrd; [|done];
  cbv beta iota delta [mbind result_bind] in H;
  destruct (bdr_conflict_row_to_json _ (local_tuple _) _)
    as [[lj ln]|] eqn:Hlj; [|done];
  cbv beta iota delta [mbind result_bind] in H;
  destruct (bdr_conflict_row_to_json _ (remote_tuple _) _)
    as [[rj rn]|] eqn:Hrj; [|done];
  cbv beta iota delta [mbind result_bind] in H;
  apply Ok_inj in H; subst.

Ltac dims_calc :=
  repeat first
    [ rewrite dims_strtodatum | rewrite dims_put_if | rewrite dims_put_error_cols
    | rewrite dims_put_nulls | rewrite dims_put_null
    | rewrite dims_put_value_isnull | rewrite dims_put_value
    | rewrite dims_put_str ];
  cbn; lia.

(** Turn a goal on a column of the formed tuple into its value. *)
Ltac column :=
  rewrite heap_form_tuple_formed; this_cell;
  rewrite ?formed_put_if, ?formed_put_str; try reflexivity.

Section TableSink.

Context (env : Env).

Lemma bdr_conflict_type_get_datum_Ok ct d :
  bdr_conflict_type_get_datum env ct = Ok d ↔
  conflict_type_oid env ct ≠ InvalidOid ∧ d = ObjectIdGetDatum (conflict_type_oid env ct).
Proof.
  unfold bdr_conflict_type_get_datum, conflict_type_oid.
  destruct (decide _) as [Heq|Hne]; split; try done.
  - intros [? _]. done.
  - intros [= <-]. done.
  - intros [_ ->]. done.
Qed.

Lemma bdr_conflict_resolution_get_datum_Ok r d :
  bdr_conflict_resolution_get_datum env r = Ok d ↔
  conflict_resolution_oid env r ≠ InvalidOid ∧
  d = ObjectIdGetDatum (conflict_resolution_oid env r).
Proof.
  unfold bdr_conflict_resolution_get_datum, conflict_resolution_oid.
  destruct (decide _) as [Heq|Hne]; split; try done.
  - intros [? _]. done.
  - intros [= <-]. done.
  - intros [_ ->]. done.
Qed.

Lemma bdr_conflict_row_to_json_Ok row row_isnull :
  json_convertible env row row_isnull →
  ∃ d isnull, bdr_conflict_row_to_json env row row_isnull = Ok (d, isnull).
Proof.
  unfold bdr_conflict_row_to_json.
  intros [-> | (td & json & -> & Hjson)]; [eauto|].
  destruct row_isnull; [eauto|]. rewrite Hjson. cbn. eauto.
Qed.

Ltac attno_side :=
  cbn [attno put_value put_null put_if put_value_isnull put_str form_init];
  rewrite ?attno_put_error_cols, ?attno_put_nulls;
  cbn [attno put_value put_null put_if put_value_isnull put_str form_init];
  lia.

Ltac frame_cells :=
  repeat first
    [ rewrite cell_put_if by attno_side
    | rewrite cell_put_value_isnull by attno_side
    | rewrite cell_put_nulls by attno_side
    | rewrite cell_put_error_cols by attno_side
    | rewrite cell_put_str by attno_side
    | rewrite cell_put_null by attno_side
    | rewrite cell_put_value by attno_side ].

(** What a formed tuple holds in the conflict type and resolution
    columns (11 and 12, counting from 0), and where [attno] ends. *)
Lemma form_history_tuple_columns myid conflict seqval f :
  form_history_tuple env myid conflict seqval = Ok f →
  cell f 11 = (Some (ObjectIdGetDatum (conflict_type_oid env (conflict_type conflict))),
               Some false) ∧
  cell f 12 = (Some (ObjectIdGetDatum
                       (conflict_resolution_oid env (conflict_resolution conflict))),
               Some false) ∧
  attno f = (if apply_error conflict is Some _ then 34 else 35)%nat.
Proof.
  unfold form_history_tuple. cbv zeta. intros H.
  destruct (bdr_conflict_type_get_datum env _) as [td|] eqn:Htd; [|done].
  apply bdr_conflict_type_get_datum_Ok in Htd as [_ ->].
  cbn [mbind result_bind] in H.
  destruct (bdr_conflict_resolution_get_datum env _) as [rd|] eqn:Hrd; [|done].
  apply bdr_conflict_resolution_get_datum_Ok in Hrd as [_ ->].
  cbn [mbind result_bind] in H.
  destruct (bdr_conflict_row_to_json env (local_tuple conflict) _)
    as [[lj ln]|] eqn:Hlj; [|done].
  cbn [mbind result_bind] in H.
  destruct (bdr_conflict_row_to_json env (remote_tuple conflict) _)
    as [[rj rn]|] eqn:Hrj; [|done].
  cbn [mbind result_bind] in H.
  injection H as <-.
  destruct (apply_error conflict) as [edata|].
  - split; [|split].
    + frame_cells.
      match goal with |- cell (put_value ?d ?f) 11 = _ =>
        apply (cell_put_value_eq d f) end.
      frame_cells. apply cell_form_init.
      unfold BDR_CONFLICT_HISTORY_COLS. attno_side.
    + frame_cells.
      match goal with |- cell (put_value ?d ?f) 12 = _ =>
        apply (cell_put_value_eq d f) end.
      frame_cells. apply cell_form_init.
      unfold BDR_CONFLICT_HISTORY_COLS. attno_side.
    + attno_side.
  - split; [|split].
    + frame_cells.
      match goal with |- cell (put_value ?d ?f) 11 = _ =>
        apply (cell_put_value_eq d f) end.
      frame_cells. apply cell_form_init.
      unfold BDR_CONFLICT_HISTORY_COLS. attno_side.
    + frame_cells.
      match goal with |- cell (put_value ?d ?f) 12 = _ =>
        apply (cell_put_value_eq d f) end.
      frame_cells. apply cell_form_init.
      unfold BDR_CONFLICT_HISTORY_COLS. attno_side.
    + attno_side.
Qed.

Lemma form_history_tuple_Ok myid conflict seqval :
  conflict_type_oid env (conflict_type conflict) ≠ InvalidOid →
  conflict_resolution_oid env (conflict_resolution conflict) ≠ InvalidOid →
  json_convertible env (local_tuple conflict) (local_tuple_null conflict) →
  json_convertible env (remote_tuple conflict) (remote_tuple_null conflict) →
  ∃ f, form_history_tuple env myid conflict seqval = Ok f.
Proof.
  intros Htype Hres Hlocal Hremote.
  unfold form_history_tuple. cbv zeta.
  rewrite (proj2 (bdr_conflict_type_get_datum_Ok _ _) (conj Htype eq_refl)).
  cbn [mbind result_bind].
  rewrite (proj2 (bdr_conflict_resolution_get_datum_Ok _ _) (conj Hres eq_refl)).
  cbn [mbind result_bind].
  destruct (bdr_conflict_row_to_json_Ok _ _ Hlocal) as (lj & ln & ->).
  cbn [mbind result_bind].
  destruct (bdr_conflict_row_to_json_Ok _ _ Hremote) as (rj & rn & ->).
  cbn [mbind result_bind]. eauto.
Qed.

Lemma UserTableUpdateIndexes_Ok row :
  index_maintenance_succeeds env → UserTableUpdateIndexes env false row = Ok tt.
Proof.
  unfold UserTableUpdateIndexes, UserTableUpdateOpenIndexes.
  intros [Hzero | Hok].
  - rewrite Hzero. done.
  - destruct (decide _); [|done]. rewrite Hok. done.
Qed.

Lemma bdr_conflict_row_to_json_pointer row row_isnull d :
  bdr_conflict_row_to_json env row row_isnull = Ok (d, false) →
  is_varlena_pointer d = true.
Proof.
  unfold bdr_conflict_row_to_json.
  destruct row_isnull; [done|]. destruct row as [|td]; [done|].
  destruct (row_to_json env td); [|done]. cbn. by intros [= <-].
Qed.

(** A call of the table sink that returns with logging on ran in a live
    transaction, formed the arrays, had heap_form_tuple accept them and
    appended the tuple. *)
Lemma table_sink_forms_row conflict st st' :
  bdr_log_conflicts_to_table env = true →
  bdr_conflict_log_table env conflict st = Ok st' →
  ∃ f,
    form_history_tuple env (bdr_make_my_nodeid env) conflict
      (bdr_conflict_history_id_seq st + 1) = Ok f ∧
    st' = logged (formed_columns (values f) (nulls f)) st ∧
    (USE_ASSERT_CHECKING env = true → attno f = BDR_CONFLICT_HISTORY_COLS) ∧
    (∀ i v, values f !! i = Some v → nulls f !! i = Some false →
            bdr_conflict_history_attbyval env i = true ∨
            is_varlena_pointer v = true).
Proof.
  intros Hon. unfold bdr_conflict_log_table. rewrite Hon.
  destruct (IsAbortedTransactionBlockState env); [done|].
  destruct (IsTransactionState env); [|done].
  cbn [negb nextval_oid]. cbv zeta.
  destruct (form_history_tuple _ _ _ _) as [f|] eqn:Hf; [|done].
  cbn [mbind result_bind].
  destruct (Assert _ _ _) as [[]|] eqn:Hassert; [|done]. cbn [mbind result_bind].
  destruct (heap_form_tuple _ _ _) as [row|] eqn:Hrow; [|done].
  cbn [mbind result_bind].
  destruct (UserTableUpdateIndexes _ _ _) as [[]|]; [|done].
  cbn [mbind result_bind]. intros [= <-].
  apply heap_form_tuple_from_Ok in Hrow as [-> Hfits].
  exists f. split; [done|]. split; [done|]. split; [|exact Hfits].
  intros Hchk. apply Assert_inv in Hassert; [|done].
  by apply bool_decide_eq_true_1 in Hassert.
Qed.

(** The arrays keep their 35 slots through every store. *)
Lemma form_history_tuple_dims myid conflict seqval f :
  form_history_tuple env myid conflict seqval = Ok f →
  dims f = (BDR_CONFLICT_HISTORY_COLS, BDR_CONFLICT_HISTORY_COLS).
Proof.
  intros H. form_inv H. destruct (apply_error conflict);
    repeat first
      [ rewrite dims_put_if | rewrite dims_put_error_cols
      | rewrite dims_put_nulls | rewrite dims_put_null
      | rewrite dims_put_value_isnull | rewrite dims_put_value
      | rewrite dims_put_str ];
    reflexivity.
Qed.

Lemma form_history_tuple_length myid conflict seqval f :
  form_history_tuple env myid conflict seqval = Ok f →
  length (formed_columns (values f) (nulls f)) = BDR_CONFLICT_HISTORY_COLS.
Proof.
  intros H. apply form_history_tuple_dims in H.
  injection H as Hv Hn. unfold formed_columns.
  rewrite length_zip_with, Hv, Hn. lia.
Qed.

(** Decide a column once its cell is known. *)
Ltac fits_column :=
  this_cell;
  let Hc := fresh "Hc" in
  intros Hc;
  repeat match type of Hc with
         | (if ?c then _ else _) = _ => destruct c
         | match ?x with Some _ => _ | None => _ end = _ => destruct x
         end;
  first [ discriminate Hc
        | injection Hc as <-; first [ left; compute_done | right; reflexivity ] ].

(** For a record without apply_error every column that is not NULL holds
    a pointer or is one of the columns filled by value. *)
Lemma form_history_tuple_fits myid conflict seqval f :
  apply_error conflict = None →
  form_history_tuple env myid conflict seqval = Ok f →
  ∀ i v, cell f i = (Some v, Some false) →
         i ∈ by_value_columns ∨ is_varlena_pointer v = true.
Proof.
  intros Hnone H i v.
  pose proof (form_history_tuple_dims _ _ _ _ H) as Hdims.
  destruct (decide (i < BDR_CONFLICT_HISTORY_COLS)%nat) as [Hi|Hi].
  2:{ unfold cell. injection Hdims as Hv Hn.
      rewrite (lookup_ge_None_2 (values f)) by lia. done. }
  clear Hdims. form_inv H. rewrite Hnone. cbv beta iota.
  unfold BDR_CONFLICT_HISTORY_COLS in Hi.
  do 13 (destruct i as [|i]; [fits_column|]).
  destruct i as [|i].
  { (* local tuple *)
    this_cell. intros [= <- ->]. right.
    by eapply bdr_conflict_row_to_json_pointer. }
  destruct i as [|i].
  { this_cell. intros [= <- ->]. right.
    by eapply bdr_conflict_row_to_json_pointer. }
  do 2 (destruct i as [|i]; [fits_column|]).
  destruct (decide (i < 13)%nat) as [Herr|Herr].
  { peel. rewrite cell_put_nulls_at; [done|attno_calc|].
    intros j Hj.
    cbn [attno put_value put_null put_if put_value_isnull put_str form_init] in Hj.
    fresh_cell. }
  do 13 (destruct i as [|i]; [lia|]).
  do 5 (destruct i as [|i]; [fits_column|]).
  lia.
Qed.

(** With logging enabled in a live transaction, a call that returns
    has appended the tuple it formed. *)
Lemma bdr_conflict_log_table_enabled conflict st st' :
  bdr_log_conflicts_to_table env = true →
  bdr_conflict_log_table env conflict st = Ok st' →
  ∃ f, form_history_tuple env (bdr_make_my_nodeid env) conflict
         (bdr_conflict_history_id_seq st + 1) = Ok f ∧
       st' = logged (formed_columns (values f) (nulls f)) st.
Proof.
  intros Hon Hrun.
  destruct (table_sink_forms_row conflict st st' Hon Hrun) as (f & Hf & Hst & _).
  eauto.
Qed.

(** C2, as the code has it: in a live, non-aborted transaction with
    bdr_log_conflicts_to_table on, a call for a record without apply_error
    whose enum lookups, JSON conversions and index maintenance succeed, on
    a history table that stores by value the columns filled by value,
    returns; any call that returns with the flag on has appended exactly
    one row to the conflict history, whose conflict type and resolution
    columns hold the enum values named after the record's conflict_type and
    conflict_resolution; with the flag off in a live transaction the call
    returns with the state unchanged; in an aborted transaction and outside
    any transaction the call raises an error, whatever the flag. *)
Theorem table_sink_logs_one_row conflict st :
  (IsAbortedTransactionBlockState env = false →
   IsTransactionState env = true →
   bdr_log_conflicts_to_table env = true →
   conflict_type_oid env (conflict_type conflict) ≠ InvalidOid →
   conflict_resolution_oid env (conflict_resolution conflict) ≠ InvalidOid →
   json_convertible env (local_tuple conflict) (local_tuple_null conflict) →
   json_convertible env (remote_tuple conflict) (remote_tuple_null conflict) →
   apply_error conflict = None →
   history_table_fits env →
   index_maintenance_succeeds env →
   ∃ st', bdr_conflict_log_table env conflict st = Ok st') ∧
  (bdr_log_conflicts_to_table env = true →
   ∀ st', bdr_conflict_log_table env conflict st = Ok st' →
   ∃ row,
     st' = logged row st ∧
     row !! 11%nat =
       Some (Some (ObjectIdGetDatum (conflict_type_oid env (conflict_type conflict)))) ∧
     row !! 12%nat =
       Some (Some (ObjectIdGetDatum
                     (conflict_resolution_oid env (conflict_resolution conflict))))) ∧
  (IsAbortedTransactionBlockState env = false →
   IsTransactionState env = true →
   bdr_log_conflicts_to_table env = false →
   bdr_conflict_log_table env conflict st = Ok st) ∧
  (IsAbortedTransactionBlockState env = true ∨ IsTransactionState env = false →
   ∃ msg, bdr_conflict_log_table env conflict st = Raise (ERROR msg)).
Proof.
  split; [|split; [|split]].
  - intros Hab Hin Hon Htype Hres Hlocal Hremote Hnone Hfits Hindex.
    destruct (form_history_tuple_Ok (bdr_make_my_nodeid env) conflict
                (bdr_conflict_history_id_seq st + 1) Htype Hres Hlocal Hremote)
      as [f Hf].
    unfold bdr_conflict_log_table.
    rewrite Hab, Hin, Hon. cbn [negb nextval_oid]. cbv zeta.
    rewrite Hf. cbn [mbind result_bind].
    rewrite Assert_Ok.
    + cbn [mbind result_bind]. unfold heap_form_tuple.
      rewrite heap_form_tuple_from_returns.
      * cbn [mbind result_bind].
        rewrite (UserTableUpdateIndexes_Ok _ Hindex). cbn [mbind result_bind]. eauto.
      * intros i v Hv Hn.
        destruct (form_history_tuple_fits _ _ _ _ Hnone Hf i v) as [Hby|Hptr].
        -- unfold cell. by rewrite Hv, Hn.
        -- left. by apply Hfits.
        -- by right.
    + intros Hchk.
      apply form_history_tuple_columns in Hf as (_ & _ & Hattno).
      rewrite Hnone in Hattno. by apply bool_decide_eq_true_2.
  - intros Hon st' Hrun.
    destruct (bdr_conflict_log_table_enabled conflict st st' Hon Hrun)
      as (f & Hf & ->).
    apply form_history_tuple_columns in Hf as (H11 & H12 & _).
    eexists. split; [done|]. split; by apply heap_form_tuple_cell.
  - intros Hab Hin Hoff. unfold bdr_conflict_log_table. by rewrite Hab, Hin, Hoff.
  - unfold bdr_conflict_log_table.
    destruct (IsAbortedTransactionBlockState env); [eauto|].
    intros [?| -> ]; [done|]. cbn [negb]. eauto.
Qed.

(** C9: whatever bdr_log_conflicts_to_table is, the table sink raises an
    error in an aborted transaction and outside any transaction, because
    both checks come before the flag is read; in a live transaction with
    logging disabled it returns and changes nothing, and that is the only
    case in which it returns without having logged. *)
Theorem table_sink_checks_transaction_first conflict st :
  (IsAbortedTransactionBlockState env = true →
   bdr_conflict_log_table env conflict st =
     Raise (ERROR "bdr: attempt to log conflict in aborted transaction")) ∧
  (IsAbortedTransactionBlockState env = false →
   IsTransactionState env = false →
   bdr_conflict_log_table env conflict st =
     Raise (ERROR "bdr: attempt to log conflict without surrounding transaction")) ∧
  (IsAbortedTransactionBlockState env = false →
   IsTransactionState env = true →
   bdr_log_conflicts_to_table env = false →
   bdr_conflict_log_table env conflict st = Ok st) ∧
  (bdr_conflict_log_table env conflict st = Ok st →
   IsAbortedTransactionBlockState env = false ∧
   IsTransactionState env = true ∧
   bdr_log_conflicts_to_table env = false).
Proof.
  split; [|split; [|split]].
  - intros Hab. unfold bdr_conflict_log_table. by rewrite Hab.
  - intros Hab Hin. unfold bdr_conflict_log_table. by rewrite Hab, Hin.
  - intros Hab Hin Hoff. unfold bdr_conflict_log_table. by rewrite Hab, Hin, Hoff.
  - intros Hrun.
    destruct (IsAbortedTransactionBlockState env) eqn:Hab.
    { unfold bdr_conflict_log_table in Hrun. by rewrite Hab in Hrun. }
    destruct (IsTransactionState env) eqn:Hin.
    2:{ unfold bdr_conflict_log_table in Hrun. by rewrite Hab, Hin in Hrun. }
    destruct (bdr_log_conflicts_to_table env) eqn:Hon; [|done].
    destruct (bdr_conflict_log_table_enabled conflict st st Hon Hrun)
      as (f & _ & Hst).
    apply (f_equal bdr_conflict_history_id_seq) in Hst. simpl in Hst. lia.
Qed.

End TableSink.

(** ** The keyed row lookup *)

Section Lookup.

Local Open Scope list_scope.

Ltac pass_cases lock p :=
  unfold find_pkey_tuple_pass;
  destruct (getnext p) as [[tuple xmin xmax]|]; cbn [snap_xmin snap_xmax hit_tuple];
  [ destruct (TransactionIdIsValid xmin) eqn:Hxmin; rewrite ?Hxmin;
    [ | destruct (TransactionIdIsValid xmax) eqn:Hxmax; rewrite ?Hxmax ] | ];
  destruct lock; destruct (lock_result p); cbn.

(** Every pass opens a scan of its own: it begins with index_beginscan,
    index_rescan and the probe. *)
Lemma find_pkey_tuple_pass_head lock p slot :
  ∃ found rest,
    (find_pkey_tuple_pass lock p slot).1.2 =
    index_beginscan :: index_rescan :: index_getnext_slot found :: rest.
Proof. pass_cases lock p; eauto. Qed.

Lemma find_pkey_tuple_loop_head lock script slot r slot' calls :
  find_pkey_tuple_loop lock script slot = Some (r, slot', calls) →
  ∃ found rest,
    calls = index_beginscan :: index_rescan :: index_getnext_slot found :: rest.
Proof.
  destruct script as [|p rest]; [done|]. cbn [find_pkey_tuple_loop].
  destruct (find_pkey_tuple_pass_head lock p slot) as (found & tl & Hhead).
  destruct (find_pkey_tuple_pass lock p slot) as [[s calls0] fin].
  cbn in Hhead. subst calls0.
  destruct fin.
  - destruct (find_pkey_tuple_loop lock rest s) as [[[r0 s0] c0]|]; [|done].
    cbn. intros [= <- <- <-]. eauto.
  - intros [= <- <- <-]. eauto.
  - intros [= <- <- <-]. eauto.
Qed.

(** The loop ends on the first settled pass: with [n] passes that retry
    followed by one that does not, it returns. *)
Lemma find_pkey_tuple_loop_returns lock retries p rest slot :
  Forall (fun q => settled lock q = false) retries →
  settled lock p = true →
  is_Some (find_pkey_tuple_loop lock (retries ++ p :: rest) slot).
Proof.
  intros Hretries Hp. revert slot.
  induction Hretries as [|q retries Hq _ IH]; intros slot.
  - cbn [app find_pkey_tuple_loop]. unfold settled in Hp.
    assert (Hfin : (find_pkey_tuple_pass lock p slot).2 =
                   (find_pkey_tuple_pass lock p None).2).
    { pass_cases lock p; done. }
    destruct (find_pkey_tuple_pass lock p slot) as [[s c] fin].
    destruct (find_pkey_tuple_pass lock p None) as [[s0 c0] fin0].
    cbn in Hfin. subst fin0. destruct fin; done.
  - cbn [app find_pkey_tuple_loop]. unfold settled in Hq.
    assert (Hfin : (find_pkey_tuple_pass lock q slot).2 =
                   (find_pkey_tuple_pass lock q None).2).
    { pass_cases lock q; done. }
    destruct (find_pkey_tuple_pass lock q slot) as [[s c] fin].
    destruct (find_pkey_tuple_pass lock q None) as [[s0 c0] fin0].
    cbn in Hfin. subst fin0. destruct fin; try done.
    destruct (IH s) as [[[r1 s1] c1] ->]. done.
Qed.

Lemma restarts_after_cons c calls i gap :
  restarts_after calls i gap → restarts_after (c :: calls) (S i) gap.
Proof. unfold restarts_after. cbn. done. Qed.

Ltac walk i Hi :=
  repeat match type of Hi with
         | (_ :: _) !! i = _ =>
             destruct i as [|i];
             [ cbn in Hi; try discriminate Hi
             | cbn in Hi; apply restarts_after_cons ]
         end.

Lemma find_pkey_tuple_loop_restarts script :
  ∀ lock slot r slot' calls,
    find_pkey_tuple_loop lock script slot = Some (r, slot', calls) →
    (∀ i xwait, calls !! i = Some (XactLockTableWait xwait) →
                restarts_after calls i 1) ∧
    (∀ i, calls !! i = Some (heap_lock_tuple TM_Updated) →
          restarts_after calls i 4).
Proof.
  induction script as [|p rest IH]; intros lock slot r slot' calls; [done|].
  cbn [find_pkey_tuple_loop].
  pass_cases lock p;
    try (intros [= <- <- <-]; split; [intros i xw Hi | intros i Hi];
         walk i Hi; done);
    (destruct (find_pkey_tuple_loop _ rest _) as [[[r0 s0] c0]|] eqn:Hrest;
     [|done]; cbn; intros [= <- <- <-];
     destruct (find_pkey_tuple_loop_head _ _ _ _ _ _ Hrest) as (found & tl & Hhead);
     destruct (IH _ _ _ _ _ Hrest) as [IHw IHu];
     split; [intros i xw Hi | intros i Hi]; walk i Hi;
     first [ by apply IHw in Hi
           | by apply IHu in Hi
           | rewrite Hhead; unfold restarts_after; cbn; eauto ]).
Qed.

(** C5: in every run of find_pkey_tuple that comes back (with a result
    or an error), each wait for a concurrent writer of the matched row
    (XactLockTableWait) is followed at once by index_endscan and then a
    fresh index_beginscan, index_rescan and probe; and each heap_lock_tuple
    that reports TM_Updated is followed, after the buffer release, the
    snapshot pop and the log line, by the same end of scan and fresh
    begin, rescan and probe. A pass that finds a tuple with a valid
    snapshot xmin or xmax makes exactly this wait and then runs the rest
    of the lookup as a lookup from scratch. *)
Theorem find_pkey_tuple_restarts_from_scratch lock script slot r slot' calls :
  find_pkey_tuple lock script slot = Some (r, slot', calls) →
  (∀ i xwait, calls !! i = Some (XactLockTableWait xwait) →
              restarts_after calls i 1) ∧
  (∀ i, calls !! i = Some (heap_lock_tuple TM_Updated) →
        restarts_after calls i 4) ∧
  (∀ p rest hit,
     script = p :: rest →
     getnext p = Some hit →
     TransactionIdIsValid
       (if TransactionIdIsValid (snap_xmin hit) then snap_xmin hit
        else snap_xmax hit) = true →
     ∃ calls',
       find_pkey_tuple lock rest (Some (hit_tuple hit)) = Some (r, slot', calls') ∧
       calls = [InitDirtySnapshot; index_beginscan; index_rescan;
                index_getnext_slot true; ExecMaterializeSlot;
                XactLockTableWait
                  (if TransactionIdIsValid (snap_xmin hit) then snap_xmin hit
                   else snap_xmax hit);
                index_endscan] ++ tail calls').
Proof.
  unfold find_pkey_tuple. intros Hrun.
  destruct (find_pkey_tuple_loop lock script slot) as [[[r0 s0] c0]|] eqn:Hloop;
    [|done].
  cbn in Hrun. injection Hrun as <- <- <-.
  destruct (find_pkey_tuple_loop_restarts _ _ _ _ _ _ Hloop) as [Hw Hu].
  split; [|split].
  - intros [|i] xw Hi; [done|]. cbn in Hi. apply restarts_after_cons. eauto.
  - intros [|i] Hi; [done|]. cbn in Hi. apply restarts_after_cons. eauto.
  - intros p rest hit -> Hget Hvalid.
    cbn [find_pkey_tuple_loop] in Hloop. unfold find_pkey_tuple_pass in Hloop.
    rewrite Hget, Hvalid in Hloop.
    destruct (find_pkey_tuple_loop lock rest _) as [[[r1 s1] c1]|]; [|done].
    cbn in Hloop. injection Hloop as <- <- <-.
    cbn. eauto.
Qed.

End Lookup.

(** ** The server-log sink *)

Section ServerLog.

Context (env : Env).

Lemma string_app_assoc (a b c : string) : (a +:+ b) +:+ c = a +:+ b +:+ c.
Proof.
  induction a as [|ch a IH]; [done|].
  change (String ch ((a +:+ b) +:+ c) = String ch (a +:+ b +:+ c)). by f_equal.
Qed.

Lemma string_app_nil_r (a : string) : a +:+ "" = a.
Proof.
  induction a as [|ch a IH]; [done|].
  change (String ch (a +:+ "") = String ch a). by f_equal.
Qed.

Lemma contains_refl s : contains s s.
Proof. exists "", "". change (s = s +:+ ""). by rewrite string_app_nil_r. Qed.

Lemma contains_app_r sub p s : contains sub s → contains sub (p +:+ s).
Proof.
  intros (pre & post & ->). exists (p +:+ pre), post.
  by rewrite string_app_assoc.
Qed.

Lemma contains_app_l sub s q : contains sub s → contains sub (s +:+ q).
Proof.
  intros (pre & post & ->). exists pre, (post +:+ q).
  by rewrite !string_app_assoc.
Qed.

Lemma bdr_conflict_log_serverlog_pkey conflict st :
  bdr_conflict_log_serverlog env conflict st =
  s_key ← pkey_text env conflict;
  match conflict_type conflict with
  | BdrConflictType_UnhandledTxAbort => Ok st
  | BdrConflictType_UpdateDelete | BdrConflictType_DeleteDelete =>
      Ok (ereport_LOG
            (CONFLICT_MSG_PREFIX (remote_operation (conflict_type conflict)) +:+
             " could not find existing row. Resolution: " +:+
             bdr_conflict_resolution_get_name (conflict_resolution conflict) +:+
             "; PKEY:" +:+ s_key) st)
  | _ =>
      Ok (ereport_LOG
            (CONFLICT_MSG_PREFIX (remote_operation (conflict_type conflict)) +:+
             " row was previously " +:+
             (if decide (conflict_type conflict = BdrConflictType_InsertInsert)
              then "INSERTed" else "UPDATEd") +:+
             " at node " +:+
             BDR_NODEID_FORMAT_WITHNAME env (local_tuple_origin_node conflict) +:+
             ". Resolution: " +:+
             bdr_conflict_resolution_get_name (conflict_resolution conflict) +:+
             "; PKEY:" +:+ s_key) st)
  end.
Proof.
  unfold bdr_conflict_log_serverlog, pkey_text.
  destruct (if negb _ then _ else _) as [s_key|]; [|done].
  cbn [mbind result_bind].
  destruct (conflict_type conflict); reflexivity.
Qed.

Lemma tuple_to_stringinfo_from_app pre post : ∀ s natt tuple,
  tuple_to_stringinfo_from env s natt (pre ++ post)%list tuple =
  s' ← tuple_to_stringinfo_from env s natt pre tuple;
  tuple_to_stringinfo_from env s' (natt + length pre) post tuple.
Proof.
  induction pre as [|attr pre IH]; intros s natt tuple.
  - cbn. by rewrite Nat.add_0_r.
  - cbn [app tuple_to_stringinfo_from length].
    destruct (tuple_to_stringinfo_att env s natt attr tuple) as [s'|]; [|done].
    cbv beta iota delta [mbind result_bind].
    rewrite IH. by replace (S natt + length pre)%nat with (natt + S (length pre))%nat by lia.
Qed.

(** The key text of a record whose local tuple has a column [attr]
    behind columns [pre] that render to [text]. *)
Lemma pkey_text_at_column conflict td pre attr rest text :
  local_tuple_null conflict = false →
  local_tuple conflict = HeapTupleHeaderGetDatum td →
  lookup_rowtype_tupdesc env (t_typeid td) (t_typmod td) = Ok (pre ++ attr :: rest)%list →
  tuple_to_stringinfo env "" pre td = Ok text →
  pkey_text env conflict =
    s' ← tuple_to_stringinfo_att env text (length pre) attr td;
    tuple_to_stringinfo_from env s' (S (length pre)) rest td.
Proof.
  intros Hflag Htd Hdesc Hpre.
  unfold pkey_text, row_to_stringinfo. rewrite Hflag, Htd, Hdesc.
  cbn [negb mbind result_bind]. unfold tuple_to_stringinfo in *.
  rewrite tuple_to_stringinfo_from_app, Hpre.
  cbn [mbind result_bind tuple_to_stringinfo_from]. done.
Qed.

(** C1, as the code has it: the server-log sink has no error handler.
    Whatever failure the rendering of the key tuple ends in leaves
    bdr_conflict_log_serverlog as that same failure, so it reaches the
    apply transaction; the sink returns exactly when the rendering does, in
    particular for every record whose local tuple is flagged null. Each
    source of failure gets through: a failing row-type lookup and, at any
    printed column behind columns that render, a type without pg_type
    entry, a failing output-function lookup, a failing detoast and a
    failing output function. *)
Theorem serverlog_propagates_rendering_failure conflict st :
  (∀ failure, pkey_text env conflict = Raise failure →
              bdr_conflict_log_serverlog env conflict st = Raise failure) ∧
  (∀ s_key, pkey_text env conflict = Ok s_key →
            ∃ st', bdr_conflict_log_serverlog env conflict st = Ok st') ∧
  (local_tuple_null conflict = true →
   ∃ st', bdr_conflict_log_serverlog env conflict st = Ok st') ∧
  (∀ td,
     local_tuple_null conflict = false →
     local_tuple conflict = HeapTupleHeaderGetDatum td →
     (∀ failure,
        lookup_rowtype_tupdesc env (t_typeid td) (t_typmod td) = Raise failure →
        bdr_conflict_log_serverlog env conflict st = Raise failure) ∧
     (∀ pre attr rest text,
        lookup_rowtype_tupdesc env (t_typeid td) (t_typmod td)
          = Ok (pre ++ attr :: rest)%list →
        tuple_to_stringinfo env "" pre td = Ok text →
        attisdropped attr = false → (0 ≤ attnum attr)%Z →
        (TYPEOID env !! atttypid attr = None →
         bdr_conflict_log_serverlog env conflict st =
           Raise (ERROR ("cache lookup failed for type " +:+ pretty (atttypid attr)))) ∧
        (∀ ty,
           TYPEOID env !! atttypid attr = Some ty →
           (∀ failure,
              getTypeOutputInfo env (atttypid attr) = Raise failure →
              bdr_conflict_log_serverlog env conflict st = Raise failure) ∧
           (∀ typoutput typisvarlena origval,
              getTypeOutputInfo env (atttypid attr) = Ok (typoutput, typisvarlena) →
              t_cols td !! length pre = Some (Some origval) →
              typisvarlena && VARATT_IS_EXTERNAL_ONDISK env origval = false →
              (∀ failure,
                 typisvarlena = true →
                 PG_DETOAST_DATUM env origval = Raise failure →
                 bdr_conflict_log_serverlog env conflict st = Raise failure) ∧
              (∀ val failure,
                 (if typisvarlena then PG_DETOAST_DATUM env origval else Ok origval)
                   = Ok val →
                 OidOutputFunctionCall env typoutput val = Raise failure →
                 bdr_conflict_log_serverlog env conflict st = Raise failure))))).
Proof.
  assert (Hraise : ∀ failure, pkey_text env conflict = Raise failure →
            bdr_conflict_log_serverlog env conflict st = Raise failure).
  { intros failure Hkey. by rewrite bdr_conflict_log_serverlog_pkey, Hkey. }
  split; [exact Hraise|]. split; [|split].
  - intros s_key Hkey. rewrite bdr_conflict_log_serverlog_pkey, Hkey.
    cbn [mbind result_bind]. destruct (conflict_type conflict); eauto.
  - intros Hnull. rewrite bdr_conflict_log_serverlog_pkey.
    unfold pkey_text. rewrite Hnull. cbn [negb mbind result_bind].
    destruct (conflict_type conflict); eauto.
  - intros td Hflag Htd. split.
    { intros failure Hdesc. apply Hraise.
      unfold pkey_text, row_to_stringinfo. by rewrite Hflag, Htd, Hdesc. }
    intros pre attr rest text Hdesc Hpre Hdrop Hnum.
    pose proof (pkey_text_at_column conflict td pre attr rest text
                  Hflag Htd Hdesc Hpre) as Hkey.
    unfold tuple_to_stringinfo_att in Hkey. rewrite Hdrop in Hkey.
    destruct (Z.ltb_spec (attnum attr) 0) as [?|_]; [lia|].
    split.
    { intros Hmiss. apply Hraise. by rewrite Hkey, Hmiss. }
    intros ty Hty. rewrite Hty in Hkey. split.
    { intros failure Hout. apply Hraise. by rewrite Hkey, Hout. }
    intros typoutput typisvarlena origval Hout Hcol Hfetch.
    rewrite Hout in Hkey. cbv beta iota delta [mbind result_bind] in Hkey.
    unfold heap_getattr in Hkey.
    replace (length pre + 1 - 1)%nat with (length pre) in Hkey by lia.
    rewrite Hcol, Hfetch in Hkey. split.
    + intros failure -> Hdetoast. apply Hraise. by rewrite Hkey, Hdetoast.
    + intros val failure Hval Hcall. apply Hraise.
      by rewrite Hkey, Hval, Hcall.
Qed.

Create HintDb contains.
Hint Resolve contains_refl contains_app_l contains_app_r : contains.

(** C4, as the code has it: for a record of one of the five row
    conflict types whose key tuple renders, the server-log sink emits
    exactly one line: "CONFLICT: remote OP:", what happened to the local
    row, the resolution name and the rendered key tuple. The remote
    operation OP and the phrase about the local row identify the conflict
    type; the node named, for the types where the row was found
    (insert/insert, insert/update, update/update), is the one that last
    wrote the local row, local_tuple_origin_node. For UnhandledTxAbort
    the sink emits no line. *)
Theorem serverlog_line_contents conflict st s_key :
  pkey_text env conflict = Ok s_key →
  (conflict_type conflict ≠ BdrConflictType_UnhandledTxAbort →
   ∃ line,
     bdr_conflict_log_serverlog env conflict st = Ok (ereport_LOG line st) ∧
     line =
       "CONFLICT: remote " +:+ remote_operation (conflict_type conflict) +:+ ":" +:+
       local_row_phrase env conflict +:+ ". Resolution: " +:+
       bdr_conflict_resolution_get_name (conflict_resolution conflict) +:+
       "; PKEY:" +:+ s_key ∧
     contains (remote_operation (conflict_type conflict)) line ∧
     contains (bdr_conflict_resolution_get_name (conflict_resolution conflict))
       line ∧
     contains s_key line ∧
     (row_was_found (conflict_type conflict) = true →
      contains (BDR_NODEID_FORMAT_WITHNAME env (local_tuple_origin_node conflict))
        line)) ∧
  (conflict_type conflict = BdrConflictType_UnhandledTxAbort →
   bdr_conflict_log_serverlog env conflict st = Ok st).
Proof.
  intros Hkey. rewrite bdr_conflict_log_serverlog_pkey, Hkey.
  cbn [mbind result_bind]. unfold CONFLICT_MSG_PREFIX, local_row_phrase.
  set (res := bdr_conflict_resolution_get_name _).
  set (node := BDR_NODEID_FORMAT_WITHNAME _ _).
  split; [|by intros ->].
  intros Hct.
  destruct (conflict_type conflict); [..|done];
    cbn [remote_operation row_was_found];
    repeat case_decide; try done;
    (eexists; split; [reflexivity|]);
    (split; [by rewrite ?string_app_assoc|]);
    repeat split; try done; eauto 12 with contains.
Qed.

End ServerLog.

(** ** Last-update-wins tie-break *)

Section TieBreak.

Lemma nodeid_cmp_Lt a b : nodeid_cmp a b = Lt ↔ nodeid_lt a b.
Proof.
  unfold nodeid_cmp, nodeid_lt, lexicographic.
  destruct (N.compare_spec (sysid a) (sysid b));
    destruct (N.compare_spec (timeline a) (timeline b));
    destruct (N.compare_spec (dboid a) (dboid b));
    split; try done; try lia; intros _; lia.
Qed.

Lemma nodeid_cmp_Gt a b : nodeid_cmp a b = Gt ↔ nodeid_lt b a.
Proof.
  unfold nodeid_cmp, nodeid_lt, lexicographic.
  destruct (N.compare_spec (sysid a) (sysid b));
    destruct (N.compare_spec (timeline a) (timeline b));
    destruct (N.compare_spec (dboid a) (dboid b));
    split; try done; try lia; intros _; lia.
Qed.

Lemma nodeid_cmp_Eq a b : nodeid_cmp a b = Eq ↔ a = b.
Proof.
  unfold nodeid_cmp, lexicographic. destruct a as [s1 t1 d1], b as [s2 t2 d2].
  cbn [sysid timeline dboid].
  destruct (N.compare_spec s1 s2); destruct (N.compare_spec t1 t2);
    destruct (N.compare_spec d1 d2); split; try done;
    try (intros [= -> -> ->]; lia); intros _; by subst.
Qed.

(** The order is total on distinct NodeIds. *)
Lemma nodeid_lt_total a b : a ≠ b → nodeid_lt a b ∨ nodeid_lt b a.
Proof.
  intros Hne. destruct (nodeid_cmp a b) eqn:Hcmp.
  - by apply nodeid_cmp_Eq in Hcmp.
  - left. by apply nodeid_cmp_Lt.
  - right. by apply nodeid_cmp_Gt.
Qed.

Lemma nodeid_lt_asym a b : nodeid_lt a b → ¬ nodeid_lt b a.
Proof. unfold nodeid_lt. lia. Qed.

(** C7: for two distinct NodeIds and equal commit timestamps,
    last-update-wins decides, and decides one of keep-local / keep-remote:
    keep-remote exactly when the remote NodeId is the larger in the order
    (system id, then timeline, then database id), keep-local exactly when
    the local one is; with local and remote swapped the decision is the
    opposite one. *)
Theorem tie_break_total_antisymmetric (local remote : BDRNodeId) (ts : TimestampTz) :
  local ≠ remote →
  ∃ r,
    last_update_wins local remote ts ts = Some r ∧
    (r = BdrConflictResolution_LastUpdateWins_KeepLocal ∨
     r = BdrConflictResolution_LastUpdateWins_KeepRemote) ∧
    (r = BdrConflictResolution_LastUpdateWins_KeepRemote ↔ nodeid_lt local remote) ∧
    (r = BdrConflictResolution_LastUpdateWins_KeepLocal ↔ nodeid_lt remote local) ∧
    last_update_wins remote local ts ts =
      Some (if decide (r = BdrConflictResolution_LastUpdateWins_KeepLocal)
            then BdrConflictResolution_LastUpdateWins_KeepRemote
            else BdrConflictResolution_LastUpdateWins_KeepLocal).
Proof.
  intros Hne. unfold last_update_wins. rewrite Z.compare_refl.
  destruct (nodeid_lt_total local remote Hne) as [Hlt | Hgt].
  - pose proof (nodeid_lt_asym _ _ Hlt) as Hasym.
    rewrite (proj2 (nodeid_cmp_Gt remote local) Hlt).
    rewrite (proj2 (nodeid_cmp_Lt local remote) Hlt).
    eexists. split; [done|]. rewrite decide_False by done.
    repeat split; try done; auto.
  - pose proof (nodeid_lt_asym _ _ Hgt) as Hasym.
    rewrite (proj2 (nodeid_cmp_Lt remote local) Hgt).
    rewrite (proj2 (nodeid_cmp_Gt local remote) Hgt).
    eexists. split; [done|]. rewrite decide_True by done.
    repeat split; try done; auto.
Qed.

End TieBreak.

(** ** Runs on the concrete backend *)

Section Runs.

Local Open Scope list_scope.

(** C1 fails as stated: in a live transaction, logging to the server log a
    conflict on a row with a column whose type has no pg_type entry leaves
    the sink with the cache lookup error. *)
Lemma serverlog_lookup_failure_escapes :
  bdr_make_apply_conflict Demo.live
    BdrConflictType_UpdateUpdate BdrConflictResolution_LastUpdateWins_KeepRemote
    900%N (Some Demo.accounts_rel) (Some Demo.orphan_slot)
    InvalidRepOriginId (Some Demo.orphan_slot) 699999998000000%Z None
  = Ok Demo.orphan_conflict ∧
  bdr_conflict_log_serverlog Demo.live Demo.orphan_conflict Demo.st0
  = Raise (ERROR "cache lookup failed for type 999").
Proof. split; vm_compute; reflexivity. Qed.

Lemma serverlog_propagates_rendering_failure_witness :
  tuple_to_stringinfo Demo.live "" [mkAttr "id" Demo.int4oid 1 false]
    (tts_tuple Demo.orphan_slot) = Ok " id[int4]:7" ∧
  bdr_conflict_log_serverlog Demo.live Demo.orphan_conflict Demo.st0
    = Raise (ERROR "cache lookup failed for type 999").
Proof.
  split; [vm_compute; reflexivity|].
  refine (proj1 (proj2 (proj2 (proj2 (proj2
            (serverlog_propagates_rendering_failure Demo.live
               Demo.orphan_conflict Demo.st0)))
            (tts_tuple Demo.orphan_slot) eq_refl eq_refl)
            [mkAttr "id" Demo.int4oid 1 false] (mkAttr "payload" 999%N 2 false)
            [] " id[int4]:7" eq_refl _ eq_refl _) _).
  - vm_compute. reflexivity.
  - vm_compute. discriminate.
  - vm_compute. reflexivity.
Defined.

(** C2 fails as stated: with bdr_log_conflicts_to_table on but no
    transaction in progress, the table sink raises and logs no row. *)
Lemma table_sink_outside_transaction_logs_nothing :
  bdr_log_conflicts_to_table Demo.idle = true ∧
  bdr_conflict_log_table Demo.idle Demo.update_conflict Demo.st0
  = Raise (ERROR "bdr: attempt to log conflict without surrounding transaction").
Proof. split; vm_compute; reflexivity. Qed.

Lemma table_sink_logs_one_row_witness :
  ∃ row,
    bdr_conflict_log_table Demo.live Demo.update_conflict Demo.st0
      = Ok (logged row Demo.st0) ∧
    row !! 11%nat = Some (Some (ObjectIdGetDatum 5102)) ∧
    row !! 12%nat = Some (Some (ObjectIdGetDatum 5109)).
Proof.
  destruct (table_sink_logs_one_row Demo.live Demo.update_conflict Demo.st0)
    as (Hreturns & Hrow & _).
  destruct Hreturns as [st' Hrun].
  - reflexivity.
  - reflexivity.
  - reflexivity.
  - vm_compute. discriminate.
  - vm_compute. discriminate.
  - right. eexists _, _. split; [reflexivity|]. vm_compute; reflexivity.
  - right. eexists _, _. split; [reflexivity|]. vm_compute; reflexivity.
  - reflexivity.
  - intros i Hi.
    repeat (apply elem_of_cons in Hi as [->|Hi]; [reflexivity|]).
    by apply elem_of_nil in Hi.
  - right. intros row. reflexivity.
  - destruct (Hrow eq_refl st' Hrun) as (row & -> & H11 & H12).
    exists row. split; [exact Hrun|]. split.
    + rewrite H11. vm_compute. reflexivity.
    + rewrite H12. vm_compute. reflexivity.
Defined.

(** C3 fails as stated: with no transaction in progress the builder
    raises nothing and returns a record. *)
Lemma builder_returns_outside_transaction :
  IsTransactionState Demo.idle = false ∧
  ∃ c, bdr_make_apply_conflict Demo.idle
         BdrConflictType_DeleteDelete BdrConflictResolution_DefaultSkipChange
         900%N None None InvalidRepOriginId None 0%Z None
       = Ok c ∧
       conflict_type c = BdrConflictType_DeleteDelete ∧
       local_conflict_txid c = InvalidTransactionId.
Proof. split; [reflexivity|]. eexists. vm_compute. repeat split. Qed.

Lemma builder_ignores_transaction_state_witness :
  local_conflict_txid Demo.update_conflict = 731%N ∧
  bdr_make_apply_conflict Demo.idle
    BdrConflictType_UpdateUpdate
    BdrConflictResolution_LastUpdateWins_KeepRemote
    900%N (Some Demo.accounts_rel) (Some Demo.accounts_slot)
    InvalidRepOriginId (Some Demo.accounts_slot) 699999998000000%Z None
  = Ok (set_local_conflict_txid InvalidTransactionId Demo.update_conflict).
Proof.
  split; [reflexivity|].
  rewrite (proj1 (builder_ignores_transaction_state Demo.live
                    BdrConflictType_UpdateUpdate
                    BdrConflictResolution_LastUpdateWins_KeepRemote
                    900%N (Some Demo.accounts_rel) (Some Demo.accounts_slot)
                    InvalidRepOriginId (Some Demo.accounts_slot)
                    699999998000000%Z None) Demo.idle).
  - vm_compute. reflexivity.
  - repeat split; reflexivity.
Defined.

(** C4 fails as stated: for the record of an unhandled apply error the
    server-log sink returns and has written no line. *)
Lemma serverlog_silent_on_unhandled_abort :
  conflict_type Demo.abort_conflict = BdrConflictType_UnhandledTxAbort ∧
  bdr_conflict_log_serverlog Demo.live Demo.abort_conflict Demo.st0 = Ok Demo.st0 ∧
  server_log Demo.st0 = [].
Proof. repeat split; vm_compute; reflexivity. Qed.

Lemma serverlog_line_contents_witness :
  bdr_conflict_log_serverlog Demo.live Demo.update_conflict Demo.st0
  = Ok (ereport_LOG
          "CONFLICT: remote UPDATE: row was previously UPDATEd at node (none) (5,1,16384,). Resolution: last_update_wins_keep_remote; PKEY: id[int4]:42 name[text]:text@1000"
          Demo.st0).
Proof.
  destruct (serverlog_line_contents Demo.live Demo.update_conflict Demo.st0
              " id[int4]:42 name[text]:text@1000")
    as [Hline _]; [vm_compute; reflexivity|].
  destruct Hline as (line & -> & -> & _); [discriminate|].
  vm_compute. reflexivity.
Defined.

Lemma find_pkey_tuple_restarts_from_scratch_witness :
  ∃ slot calls,
    find_pkey_tuple true Demo.contended_script None = Some (Ok true, slot, calls) ∧
    calls !! 5%nat = Some (XactLockTableWait 55) ∧
    restarts_after calls 5 1 ∧
    calls !! 12%nat = Some (heap_lock_tuple TM_Updated) ∧
    restarts_after calls 12 4.
Proof.
  eexists _, _. split; [vm_compute; reflexivity|].
  split; [reflexivity|]. split.
  - eapply (proj1 (find_pkey_tuple_restarts_from_scratch true
                     Demo.contended_script None _ _ _ eq_refl)).
    reflexivity.
  - split; [reflexivity|].
    eapply (proj1 (proj2 (find_pkey_tuple_restarts_from_scratch true
                            Demo.contended_script None _ _ _ eq_refl))).
    reflexivity.
Defined.

Lemma local_conflict_stamp_is_current_witness :
  local_conflict_txid Demo.update_conflict = 731%N ∧
  local_conflict_lsn Demo.update_conflict = 23068672%N ∧
  local_conflict_time Demo.update_conflict = 700000000000000%Z.
Proof.
  apply (local_conflict_stamp_is_current Demo.live
           BdrConflictType_UpdateUpdate
           BdrConflictResolution_LastUpdateWins_KeepRemote
           900%N (Some Demo.accounts_rel) (Some Demo.accounts_slot)
           InvalidRepOriginId (Some Demo.accounts_slot) None
           699999998000000%Z 5%Z 7%Z Demo.update_conflict
           (set_remote_commit_time 7%Z
              (set_local_commit_time 5%Z Demo.update_conflict)));
    vm_compute; reflexivity.
Defined.

Lemma tie_break_total_antisymmetric_witness :
  last_update_wins Demo.node_a Demo.node_b 100 100
    = Some BdrConflictResolution_LastUpdateWins_KeepRemote ∧
  last_update_wins Demo.node_b Demo.node_a 100 100
    = Some BdrConflictResolution_LastUpdateWins_KeepLocal.
Proof.
  destruct (tie_break_total_antisymmetric Demo.node_a Demo.node_b 100)
    as (r & Hr & _ & Hremote & _ & Hmirror); [discriminate|].
  assert (r = BdrConflictResolution_LastUpdateWins_KeepRemote) as ->.
  { apply Hremote. left. vm_compute. reflexivity. }
  split; [exact Hr | exact Hmirror].
Defined.

Lemma tuple_redaction_is_asymmetric_witness :
  remote_tuple_null Demo.redacted_conflict = true ∧
  remote_tuple Demo.redacted_conflict = NullDatum ∧
  local_tuple_null Demo.redacted_conflict = false ∧
  local_tuple Demo.redacted_conflict = NullDatum.
Proof.
  destruct (tuple_redaction_is_asymmetric Demo.live_redacting
              BdrConflictType_UpdateUpdate
              BdrConflictResolution_LastUpdateWins_KeepRemote
              900%N (Some Demo.accounts_rel) (Some Demo.accounts_slot)
              InvalidRepOriginId (Some Demo.accounts_slot) 699999998000000%Z None
              Demo.redacted_conflict)
    as (Hrn & Hr & Hlocal); [reflexivity | vm_compute; reflexivity |].
  destruct Hlocal as [Hln Hl]; [eauto|]. done.
Defined.

Lemma table_sink_checks_transaction_first_witness :
  bdr_log_conflicts_to_table Demo.aborted = false ∧
  bdr_conflict_log_table Demo.aborted Demo.update_conflict Demo.st0
  = Raise (ERROR "bdr: attempt to log conflict in aborted transaction").
Proof.
  split; [reflexivity|].
  apply (proj1 (table_sink_checks_transaction_first Demo.aborted
                  Demo.update_conflict Demo.st0)).
  reflexivity.
Defined.

Lemma local_origin_defaults_to_own_node_witness :
  local_tuple_origin_node Demo.update_conflict = Demo.node_a.
Proof.
  apply (local_origin_defaults_to_own_node Demo.live
           BdrConflictType_UpdateUpdate
           BdrConflictResolution_LastUpdateWins_KeepRemote
           900%N (Some Demo.accounts_rel) (Some Demo.accounts_slot)
           (Some Demo.accounts_slot) 699999998000000%Z None Demo.update_conflict).
  vm_compute; reflexivity.
Defined.

End Runs.


(** ** The columns of a logged row *)

Section HistoryRow.

Local Open Scope list_scope.

Context (env : Env).

(** X1: every row the table sink appends has 35 columns, and its first
    columns are laid out as follows whatever else the record holds: 0 the
    id drawn from the sequence, 1 the local node's sysid as text, 2 to 4
    the record's local conflict xid, LSN and time, 7 the remote node's sysid
    as text (also when it is 0), 9 and 10 the remote commit time and LSN,
    8 the remote xid or NULL when it is InvalidTransactionId, 15 the local
    tuple's xmin or NULL when it is InvalidTransactionId, 16 the sysid of
    the local tuple's origin or NULL when that sysid is 0. *)
Theorem history_row_head conflict st st' :
  bdr_log_conflicts_to_table env = true →
  bdr_conflict_log_table env conflict st = Ok st' →
  ∃ row,
    st' = logged row st ∧
    length row = 35%nat ∧
    row !! 0%nat = sql_value (Int64GetDatum (bdr_conflict_history_id_seq st + 1)) ∧
    row !! 1%nat =
      sql_value (CStringGetTextDatum (snprintf_sysid (sysid (bdr_make_my_nodeid env)))) ∧
    row !! 2%nat = sql_value (TransactionIdGetDatum (local_conflict_txid conflict)) ∧
    row !! 3%nat = sql_value (LSNGetDatum (local_conflict_lsn conflict)) ∧
    row !! 4%nat = sql_value (TimestampTzGetDatum (local_conflict_time conflict)) ∧
    row !! 7%nat =
      sql_value (CStringGetTextDatum (snprintf_sysid (sysid (remote_node conflict)))) ∧
    row !! 8%nat =
      sql_opt (bool_decide (remote_txid conflict ≠ InvalidTransactionId))
        (TransactionIdGetDatum (remote_txid conflict)) ∧
    row !! 9%nat = sql_value (TimestampTzGetDatum (remote_commit_time conflict)) ∧
    row !! 10%nat = sql_value (LSNGetDatum (remote_commit_lsn conflict)) ∧
    row !! 15%nat =
      sql_opt (bool_decide (local_tuple_xmin conflict ≠ InvalidTransactionId))
        (TransactionIdGetDatum (local_tuple_xmin conflict)) ∧
    row !! 16%nat =
      sql_opt (bool_decide (sysid (local_tuple_origin_node conflict) ≠ 0%N))
        (CStringGetTextDatum
           (snprintf_sysid (sysid (local_tuple_origin_node conflict)))).
Proof.
  intros Hon Hrun.
  destruct (table_sink_forms_row env conflict st st' Hon Hrun) as (f & Hf & -> & _).
  eexists. split; [reflexivity|].
  split; [exact (form_history_tuple_length env _ _ _ _ Hf)|].
  form_inv Hf. clear Hrun.
  destruct (apply_error conflict) as [edata|];
    repeat split; column; destruct (bool_decide _); reflexivity.
Qed.

Lemma bdr_conflict_row_to_json_inv row row_isnull d isnull :
  bdr_conflict_row_to_json env row row_isnull = Ok (d, isnull) →
  isnull = row_isnull ∧ tuple_column env row row_isnull (formed (Some d, Some isnull)).
Proof.
  unfold bdr_conflict_row_to_json, tuple_column.
  destruct row_isnull; [by intros [= <- <-]|].
  destruct row as [|td]; [done|].
  destruct (row_to_json env td) as [json|] eqn:Hjson; [|done].
  cbn. intros [= <- <-]. split; [done|]. by exists td, json.
Qed.

(** X2: the local and remote tuple columns (13 and 14) of a logged row
    are NULL exactly when the record flags the tuple null, and otherwise
    hold the JSON of the tuple the record stores; so no row is ever logged
    for a record that flags a tuple present but stores a zero Datum. *)
Theorem history_row_tuple_columns conflict st st' :
  bdr_log_conflicts_to_table env = true →
  bdr_conflict_log_table env conflict st = Ok st' →
  ∃ row,
    st' = logged row st ∧
    tuple_column env (local_tuple conflict) (local_tuple_null conflict)
      (row !! 13%nat) ∧
    tuple_column env (remote_tuple conflict) (remote_tuple_null conflict)
      (row !! 14%nat) ∧
    (local_tuple_null conflict = false → local_tuple conflict ≠ NullDatum) ∧
    (remote_tuple_null conflict = false → remote_tuple conflict ≠ NullDatum).
Proof.
  intros Hon Hrun.
  destruct (table_sink_forms_row env conflict st st' Hon Hrun) as (f & Hf & -> & _).
  eexists. split; [reflexivity|].
  form_inv Hf. clear Hrun.
  apply bdr_conflict_row_to_json_inv in Hlj as [-> Hlocal].
  apply bdr_conflict_row_to_json_inv in Hrj as [-> Hremote].
  split; [|split; [|split]].
  - destruct (apply_error conflict); column; exact Hlocal.
  - destruct (apply_error conflict); column; exact Hremote.
  - intros Hflag. unfold tuple_column in Hlocal. rewrite Hflag in Hlocal.
    destruct Hlocal as (tup & _ & -> & _). done.
  - intros Hflag. unfold tuple_column in Hremote. rewrite Hflag in Hremote.
    destruct Hremote as (tup & _ & -> & _). done.
Qed.

(** X3: a row logged for a record without apply_error holds the
    record's object schema and name in columns 5 and 6 (NULL when the
    record has none), NULL in all thirteen error columns 17 to 29, the
    remote node's timeline and database oid in 30 and 31 (NULL when its
    sysid is 0), those of the local tuple's origin in 32 and 33 (NULL when
    its sysid is 0) and the local commit time in 34 (NULL when it is 0). *)
Theorem history_row_without_error conflict st st' :
  bdr_log_conflicts_to_table env = true →
  apply_error conflict = None →
  bdr_conflict_log_table env conflict st = Ok st' →
  ∃ row,
    st' = logged row st ∧
    row !! 5%nat = sql_text (object_schema conflict) ∧
    row !! 6%nat = sql_text (object_name conflict) ∧
    (∀ i, (17 ≤ i < 30)%nat → row !! i = sql_null) ∧
    row !! 30%nat =
      sql_opt (bool_decide (sysid (remote_node conflict) ≠ 0%N))
        (ObjectIdGetDatum (timeline (remote_node conflict))) ∧
    row !! 31%nat =
      sql_opt (bool_decide (sysid (remote_node conflict) ≠ 0%N))
        (ObjectIdGetDatum (dboid (remote_node conflict))) ∧
    row !! 32%nat =
      sql_opt (bool_decide (sysid (local_tuple_origin_node conflict) ≠ 0%N))
        (ObjectIdGetDatum (timeline (local_tuple_origin_node conflict))) ∧
    row !! 33%nat =
      sql_opt (bool_decide (sysid (local_tuple_origin_node conflict) ≠ 0%N))
        (ObjectIdGetDatum (dboid (local_tuple_origin_node conflict))) ∧
    row !! 34%nat =
      sql_opt (negb (bool_decide (local_commit_time conflict = 0%Z)))
        (TimestampTzGetDatum (local_commit_time conflict)).
Proof.
  intros Hon Hnone Hrun.
  destruct (table_sink_forms_row env conflict st st' Hon Hrun) as (f & Hf & -> & _).
  eexists. split; [reflexivity|].
  form_inv Hf. clear Hrun. rewrite Hnone. cbv beta iota.
  repeat split; try (column; fail).
  intros i Hi. rewrite heap_form_tuple_formed. peel.
  rewrite cell_put_nulls_at; [done|attno_calc|].
  intros j Hj.
  cbn [attno put_value put_null put_if put_value_isnull put_str form_init] in Hj.
  fresh_cell.
Qed.

(** X4: for a record that carries apply_error, the arrays that the table
    sink fills are shifted against the table: the error branch advances
    attno by twelve, not thirteen, so the line number of the error, an
    Int32, is in column 27, the remote node's timeline (NULL when its sysid
    is 0) in column 29, column 34 is left as the memsets made it and attno
    ends at 34. So with bdr_log_conflicts_to_table on, a call for such a
    record never returns when column 27 of bdr.bdr_conflict_history is not
    stored by value: heap_form_tuple would read the line number as a
    pointer. *)
Theorem table_sink_apply_error_shifts_columns conflict edata :
  apply_error conflict = Some edata →
  (∀ myid seqval f,
     form_history_tuple env myid conflict seqval = Ok f →
     attno f = 34%nat ∧
     cell f 27 = (Some (Int32GetDatum (lineno edata)), Some false) ∧
     cell f 29 =
       (if bool_decide (sysid (remote_node conflict) ≠ 0%N)
        then (Some (ObjectIdGetDatum (timeline (remote_node conflict))), Some false)
        else (Some DatumZero, Some true)) ∧
     cell f 34 = untouched) ∧
  (bdr_log_conflicts_to_table env = true →
   bdr_conflict_history_attbyval env 27 = false →
   ∀ st st', bdr_conflict_log_table env conflict st ≠ Ok st').
Proof.
  intros Hsome.
  assert (Hcells : ∀ myid seqval f,
            form_history_tuple env myid conflict seqval = Ok f →
            attno f = 34%nat ∧
            cell f 27 = (Some (Int32GetDatum (lineno edata)), Some false) ∧
            cell f 29 =
              (if bool_decide (sysid (remote_node conflict) ≠ 0%N)
               then (Some (ObjectIdGetDatum (timeline (remote_node conflict))),
                     Some false)
               else (Some DatumZero, Some true)) ∧
            cell f 34 = untouched).
  { intros myid seqval f Hf.
    pose proof (form_history_tuple_columns env _ _ _ _ Hf) as (_ & _ & Hattno).
    rewrite Hsome in Hattno. split; [exact Hattno|]. clear Hattno.
    form_inv Hf. rewrite Hsome. cbv beta iota.
    unfold put_error_cols. cbv zeta.
    repeat match goal with
           | |- context [bdr_conflict_strtodatum _ (attno ?g) _] =>
               let v := eval cbn [attno put_value put_str form_init] in (attno g) in
               change (attno g) with v
           end.
    split; [by this_cell|]. split; [by this_cell|].
    peel. by rewrite cell_form_init by attno_calc. }
  split; [exact Hcells|].
  intros Hon H27 st st' Hrun.
  destruct (table_sink_forms_row env conflict st st' Hon Hrun)
    as (f & Hf & _ & _ & Hfits).
  destruct (Hcells _ _ _ Hf) as (_ & [= Hv Hn] & _).
  destruct (Hfits 27%nat _ Hv Hn) as [Hby|Hptr]; [congruence|done].
Qed.

(** X5: in an assert-enabled build the table sink cannot log a record
    that carries apply_error: when everything before it succeeds, the
    tuple-size assertion fails, because the error branch advances attno by
    twelve where the other branch advances it by thirteen. *)
Theorem table_sink_apply_error_fails_size_assertion conflict edata st :
  IsAbortedTransactionBlockState env = false →
  IsTransactionState env = true →
  bdr_log_conflicts_to_table env = true →
  USE_ASSERT_CHECKING env = true →
  apply_error conflict = Some edata →
  conflict_type_oid env (conflict_type conflict) ≠ InvalidOid →
  conflict_resolution_oid env (conflict_resolution conflict) ≠ InvalidOid →
  json_convertible env (local_tuple conflict) (local_tuple_null conflict) →
  json_convertible env (remote_tuple conflict) (remote_tuple_null conflict) →
  bdr_conflict_log_table env conflict st =
    Raise (AssertFailure "attno == BDR_CONFLICT_HISTORY_COLS").
Proof.
  intros Hab Hin Hon Hchk Herr Htype Hres Hlocal Hremote.
  destruct (form_history_tuple_Ok env (bdr_make_my_nodeid env) conflict
              (bdr_conflict_history_id_seq st + 1) Htype Hres Hlocal Hremote)
    as [f Hf].
  pose proof (form_history_tuple_columns env _ _ _ _ Hf) as (_ & _ & Hattno).
  rewrite Herr in Hattno.
  unfold bdr_conflict_log_table.
  rewrite Hab, Hin, Hon. cbn [negb nextval_oid]. cbv zeta.
  rewrite Hf. cbv beta iota delta [mbind result_bind].
  rewrite Hattno, Hchk. reflexivity.
Qed.

(** The table sink reads of the state only the sequence, and passes the
    server log through. *)
Lemma table_sink_ignores_server_log conflict line st :
  bdr_conflict_log_table env conflict (ereport_LOG line st) =
  match bdr_conflict_log_table env conflict st with
  | Ok st' => Ok (ereport_LOG line st')
  | Raise failure => Raise failure
  end.
Proof.
  unfold bdr_conflict_log_table.
  destruct (IsAbortedTransactionBlockState env); [done|].
  destruct (IsTransactionState env); [|done].
  destruct (bdr_log_conflicts_to_table env); [|done].
  cbn [negb nextval_oid ereport_LOG bdr_conflict_history_id_seq]. cbv zeta.
  destruct (form_history_tuple _ _ _ _) as [f|]; [|done].
  cbv beta iota delta [mbind result_bind].
  destruct (Assert _ _ _) as [[]|]; [|done].
  destruct (heap_form_tuple _ _ _) as [row|]; [|done].
  destruct (UserTableUpdateIndexes _ _ _) as [[]|]; done.
Qed.

(** What the server-log sink does depends on the record alone: it
    fails, does nothing, or appends one fixed line. *)
Lemma serverlog_effect conflict :
  (∃ failure, ∀ st, bdr_conflict_log_serverlog env conflict st = Raise failure) ∨
  (∀ st, bdr_conflict_log_serverlog env conflict st = Ok st) ∨
  (∃ line, ∀ st, bdr_conflict_log_serverlog env conflict st = Ok (ereport_LOG line st)).
Proof.
  destruct (pkey_text env conflict) as [s_key|failure] eqn:Hkey.
  - right. destruct (conflict_type conflict) eqn:Hct.
    all: try (right; eexists; intros st;
              rewrite bdr_conflict_log_serverlog_pkey, Hkey, Hct; reflexivity).
    left. intros st. by rewrite bdr_conflict_log_serverlog_pkey, Hkey, Hct.
  - left. exists failure. intros st.
    by rewrite bdr_conflict_log_serverlog_pkey, Hkey.
Qed.

(** X6: the two sinks write to different parts of the state and do not
    see each other's writes: the server-log sink leaves the history table
    and its sequence alone, the table sink leaves the server log alone, and
    logging a record to both ends in the same state whichever sink runs
    first. *)
Theorem sinks_are_independent conflict st :
  (∀ st', bdr_conflict_log_serverlog env conflict st = Ok st' →
          bdr_conflict_history st' = bdr_conflict_history st ∧
          bdr_conflict_history_id_seq st' = bdr_conflict_history_id_seq st) ∧
  (∀ st', bdr_conflict_log_table env conflict st = Ok st' →
          server_log st' = server_log st) ∧
  (∀ st2,
     (st1 ← bdr_conflict_log_serverlog env conflict st;
      bdr_conflict_log_table env conflict st1) = Ok st2 ↔
     (st1 ← bdr_conflict_log_table env conflict st;
      bdr_conflict_log_serverlog env conflict st1) = Ok st2).
Proof.
  split; [|split].
  - intros st'. rewrite bdr_conflict_log_serverlog_pkey.
    destruct (pkey_text env conflict); [|done]. cbn [mbind result_bind].
    destruct (conflict_type conflict); by intros [= <-].
  - intros st'. unfold bdr_conflict_log_table.
    destruct (IsAbortedTransactionBlockState env); [done|].
    destruct (IsTransactionState env); [|done].
    destruct (bdr_log_conflicts_to_table env); [|by intros [= <-]].
    cbn [negb nextval_oid]. cbv zeta.
    destruct (form_history_tuple _ _ _ _) as [f|]; [|done].
    cbv beta iota delta [mbind result_bind].
    destruct (Assert _ _ _) as [[]|]; [|done].
    destruct (heap_form_tuple _ _ _) as [row|]; [|done].
    destruct (UserTableUpdateIndexes _ _ _) as [[]|]; [|done].
    by intros [= <-].
  - intros st2.
    destruct (serverlog_effect conflict) as [[failure Hs] | [Hs | [line Hs]]].
    + rewrite Hs. cbn [mbind result_bind]. split; [done|].
      destruct (bdr_conflict_log_table env conflict st) as [t1|];
        cbn [mbind result_bind]; [by rewrite Hs|done].
    + rewrite Hs. cbn [mbind result_bind].
      destruct (bdr_conflict_log_table env conflict st) as [t1|];
        cbn [mbind result_bind]; [by rewrite Hs|done].
    + rewrite Hs. cbn [mbind result_bind].
      rewrite table_sink_ignores_server_log.
      destruct (bdr_conflict_log_table env conflict st) as [t1|];
        cbn [mbind result_bind]; [by rewrite Hs|done].
Qed.

End HistoryRow.

(** ** More on the builder, and the builder with the sinks *)

Section BuilderAndSinks.

Local Open Scope list_scope.

Context (env : Env).

Lemma bdr_make_apply_conflict_passes
    ct res rtxid rel local_slot loid remote_slot lts err (c : BdrApplyConflict) :
  bdr_make_apply_conflict env ct res rtxid rel local_slot loid remote_slot
    lts err = Ok c →
  conflict_type c = ct ∧ conflict_resolution c = res ∧
  remote_txid c = rtxid ∧ local_commit_time c = lts ∧ apply_error c = err.
Proof. intros H. builder_inv H; done. Qed.

Lemma bdr_make_apply_conflict_redacted
    ct res rtxid rel slot loid remote_slot lts err (c : BdrApplyConflict) :
  bdr_conflict_logging_include_tuples env = false →
  bdr_make_apply_conflict env ct res rtxid rel (Some slot) loid remote_slot
    lts err = Ok c →
  local_tuple_null c = false ∧ local_tuple c = NullDatum.
Proof. intros Hoff H. builder_inv H; done. Qed.

(** X7: with bdr_conflict_logging_include_tuples off, a record built for
    a conflict that has a local tuple cannot be logged by either sink: the
    server-log sink, and the table sink once its transaction checks and enum
    lookups have passed, both read the zero local_tuple Datum as a tuple. *)
Theorem redacted_local_tuple_stops_both_sinks
    ct res rtxid rel slot loid remote_slot lts err (c : BdrApplyConflict) st :
  bdr_conflict_logging_include_tuples env = false →
  bdr_make_apply_conflict env ct res rtxid rel (Some slot) loid remote_slot
    lts err = Ok c →
  bdr_conflict_log_serverlog env c st = Raise NullDereference ∧
  (IsAbortedTransactionBlockState env = false →
   IsTransactionState env = true →
   bdr_log_conflicts_to_table env = true →
   conflict_type_oid env ct ≠ InvalidOid →
   conflict_resolution_oid env res ≠ InvalidOid →
   bdr_conflict_log_table env c st = Raise NullDereference).
Proof.
  intros Hoff Hbuild.
  destruct (bdr_make_apply_conflict_redacted _ _ _ _ _ _ _ _ _ _ Hoff Hbuild)
    as [Hnull Hzero].
  destruct (bdr_make_apply_conflict_passes _ _ _ _ _ _ _ _ _ _ Hbuild)
    as (Hct & Hres & _).
  split.
  - rewrite bdr_conflict_log_serverlog_pkey. unfold pkey_text.
    rewrite Hnull, Hzero. done.
  - intros Hab Hin Hon Htype Hresolution.
    unfold bdr_conflict_log_table.
    rewrite Hab, Hin, Hon. cbn [negb nextval_oid]. cbv zeta.
    unfold form_history_tuple. cbv zeta.
    rewrite Hct, Hres, Hnull, Hzero.
    rewrite (proj2 (bdr_conflict_type_get_datum_Ok env _ _) (conj Htype eq_refl)).
    cbv beta iota delta [mbind result_bind].
    rewrite (proj2 (bdr_conflict_resolution_get_datum_Ok env _ _)
               (conj Hresolution eq_refl)).
    reflexivity.
Qed.

(** X8: the builder returns exactly when the node of the session's
    replication origin is registered, the local tuple's origin is
    InvalidRepOriginId or registered, and, in an assert-enabled build, the
    local tuple's xmin is a normal or the frozen xid. *)
Theorem builder_returns_iff
    ct res rtxid rel local_slot loid remote_slot lts err :
  is_Ok (bdr_make_apply_conflict env ct res rtxid rel local_slot loid
           remote_slot lts err) = true ↔
  is_Some (origin_registry env !! replorigin_session_origin env) ∧
  (loid = InvalidRepOriginId ∨ is_Some (origin_registry env !! loid)) ∧
  xmin_assertion_holds env local_slot.
Proof.
  split.
  - intros Hok.
    destruct (bdr_make_apply_conflict _ _ _ _ _ _ _ _ _ _) as [c|] eqn:H; [|done].
    clear Hok. unfold bdr_make_apply_conflict, bdr_fetch_sysid_via_node_id in H.
    destruct (origin_registry env !! replorigin_session_origin env) as [remote|];
      [|done].
    split; [by eexists|].
    cbv beta iota delta [mbind result_bind] in H.
    assert (Hx : xmin_assertion_holds env local_slot).
    { destruct local_slot as [slot|]; [|done].
      cbn [xmin_assertion_holds]. intros Hchk.
      cbn [local_tuple_xmin set_local_tuple_xmin] in H.
      unfold Assert in H. rewrite Hchk in H. cbn [andb] in H.
      destruct (bool_decide (FirstNormalTransactionId ≤ _)%N) eqn:Hle.
      { left. by apply bool_decide_eq_true_1 in Hle. }
      destruct (bool_decide (_ = FrozenTransactionId)) eqn:Hfr.
      { right. by apply bool_decide_eq_true_1 in Hfr. }
      done. }
    split; [|exact Hx].
    destruct (decide (loid = InvalidRepOriginId)) as [|Hne]; [by left|]. right.
    destruct (origin_registry env !! loid) as [node|] eqn:Hloid; [by eexists|].
    exfalso.
    destruct local_slot as [slot|].
    + cbn [local_tuple_xmin set_local_tuple_xmin] in H.
      rewrite (xmin_assertion_Ok env slot Hx) in H.
      cbv beta iota delta [mbind result_bind] in H.
      destruct (bdr_conflict_logging_include_tuples env);
        rewrite decide_True in H by done; done.
    + rewrite decide_True in H by done. done.
  - intros ([remote Hremote] & Hloid & Hx).
    destruct (bdr_make_apply_conflict_returns env ct res rtxid rel local_slot
                loid remote_slot lts err remote Hremote Hloid Hx) as [c ->].
    done.
Qed.

(** X9: the builder records the local tuple's xmin whether or not tuple
    values are logged; without a local tuple it flags the tuple null, stores
    a zero Datum and InvalidTransactionId. *)
Theorem builder_local_side
    ct res rtxid rel local_slot loid remote_slot lts err (c : BdrApplyConflict) :
  bdr_make_apply_conflict env ct res rtxid rel local_slot loid remote_slot
    lts err = Ok c →
  match local_slot with
  | Some slot => local_tuple_xmin c = t_xmin (tts_tuple slot)
  | None =>
      local_tuple_null c = true ∧ local_tuple c = NullDatum ∧
      local_tuple_xmin c = InvalidTransactionId
  end.
Proof. intros H. builder_inv H; done. Qed.

(** X10: with bdr_conflict_logging_include_tuples on, the null flags of the
    returned record agree with what it stores, on both sides: a supplied
    tuple is stored and flagged present, a missing one is a zero Datum
    flagged null. *)
Theorem builder_with_tuples_is_consistent
    ct res rtxid rel local_slot loid remote_slot lts err (c : BdrApplyConflict) :
  bdr_conflict_logging_include_tuples env = true →
  bdr_make_apply_conflict env ct res rtxid rel local_slot loid remote_slot
    lts err = Ok c →
  (local_tuple_null c, local_tuple c) =
    match local_slot with
    | Some slot => (false, ExecFetchSlotHeapTupleDatum slot)
    | None => (true, NullDatum)
    end ∧
  (remote_tuple_null c, remote_tuple c) =
    match remote_slot with
    | Some slot => (false, ExecFetchSlotHeapTupleDatum slot)
    | None => (true, NullDatum)
    end.
Proof. intros Hon H. builder_inv H; done. Qed.

(** X11: the remote side of the record comes from the replication
    session, not from the arguments: remote_node is the node registered for
    replorigin_session_origin, remote_commit_time and remote_commit_lsn are
    the session's origin timestamp and LSN; and the object schema and name
    are both NULL when no relation is given. *)
Theorem builder_remote_side_from_session
    ct res rtxid rel local_slot loid remote_slot lts err (c : BdrApplyConflict) :
  bdr_make_apply_conflict env ct res rtxid rel local_slot loid remote_slot
    lts err = Ok c →
  origin_registry env !! replorigin_session_origin env = Some (remote_node c) ∧
  remote_commit_time c = replorigin_session_origin_timestamp env ∧
  remote_commit_lsn c = replorigin_session_origin_lsn env ∧
  (rel = None → object_schema c = None ∧ object_name c = None) ∧
  (∀ r, rel = Some r →
        object_name c = Some (rd_relname r) ∧
        object_schema c = NAMESPACEOID env !! rd_relnamespace r).
Proof.
  intros H. unfold bdr_make_apply_conflict, bdr_fetch_sysid_via_node_id in H.
  destruct (origin_registry env !! replorigin_session_origin env) as [remote|];
    [|done].
  unfold mbind, result_bind in H.
  repeat (case_match; simplify_eq/=); try discriminate;
    repeat split; try done; intros; simplify_eq; done.
Qed.

End BuilderAndSinks.

(** ** Rendering a tuple *)

Section Rendering.

Local Open Scope list_scope.

Context (env : Env).

Lemma tuple_to_stringinfo_att_buffer s natt attr tuple :
  tuple_to_stringinfo_att env s natt attr tuple =
  match tuple_to_stringinfo_att env "" natt attr tuple with
  | Ok piece => Ok (s +:+ piece)
  | Raise failure => Raise failure
  end.
Proof.
  unfold tuple_to_stringinfo_att.
  destruct (attisdropped attr); [by rewrite string_app_nil_r|].
  destruct (attnum attr <? 0)%Z; [by rewrite string_app_nil_r|].
  destruct (TYPEOID env !! atttypid attr) as [ty|]; [|done].
  destruct (getTypeOutputInfo env (atttypid attr)) as [[out varlena]|]; [|done].
  cbv beta iota delta [mbind result_bind].
  destruct (heap_getattr tuple (natt + 1)) as [origval isnull].
  match goal with
  | |- context [match ?m with Ok _ => _ | Raise _ => _ end] =>
      destruct m as [outputstr|]; [|done]
  end.
  by rewrite !string_app_assoc.
Qed.

Lemma tuple_to_stringinfo_from_buffer attrs : ∀ s natt tuple,
  tuple_to_stringinfo_from env s natt attrs tuple =
  match tuple_to_stringinfo_from env "" natt attrs tuple with
  | Ok text => Ok (s +:+ text)
  | Raise failure => Raise failure
  end.
Proof.
  induction attrs as [|attr rest IH]; intros s natt tuple.
  - cbn. by rewrite string_app_nil_r.
  - cbn [tuple_to_stringinfo_from].
    rewrite (tuple_to_stringinfo_att_buffer s).
    destruct (tuple_to_stringinfo_att env "" natt attr tuple) as [piece|]; [|done].
    cbv beta iota delta [mbind result_bind].
    rewrite (IH (s +:+ piece)), (IH ("" +:+ piece)).
    destruct (tuple_to_stringinfo_from env "" (S natt) rest tuple); [|done].
    by rewrite string_app_assoc.
Qed.

(** X12: tuple_to_stringinfo only appends, and what it appends does not
    depend on what the buffer holds: printing into a buffer [s] gives [s]
    followed by what printing into an empty buffer gives, and fails exactly
    when that fails, in the same way. *)
Theorem tuple_to_stringinfo_appends s tupdesc tuple :
  tuple_to_stringinfo env s tupdesc tuple =
  match tuple_to_stringinfo env "" tupdesc tuple with
  | Ok text => Ok (s +:+ text)
  | Raise failure => Raise failure
  end.
Proof. apply tuple_to_stringinfo_from_buffer. Qed.

(** X13: dropped columns and system columns are not printed and not
    looked up: a descriptor that has only such attributes leaves the buffer
    as it is, whatever the catalogs and the tuple hold; and putting such an
    attribute in front of a descriptor changes nothing but the positions of
    the columns after it. *)
Theorem tuple_to_stringinfo_skips_hidden s tupdesc tuple :
  Forall (fun attr => attisdropped attr = true ∨ (attnum attr < 0)%Z) tupdesc →
  tuple_to_stringinfo env s tupdesc tuple = Ok s ∧
  ∀ rest,
    tuple_to_stringinfo env s (tupdesc ++ rest) tuple =
    tuple_to_stringinfo_from env s (length tupdesc) rest tuple.
Proof.
  intros Hhidden.
  assert (Hskip : ∀ natt,
            tuple_to_stringinfo_from env s natt tupdesc tuple = Ok s).
  { induction Hhidden as [|attr attrs Hattr _ IH]; intros natt; [done|].
    cbn [tuple_to_stringinfo_from]. unfold tuple_to_stringinfo_att.
    destruct Hattr as [-> | Hsys].
    - cbv beta iota delta [mbind result_bind]. apply IH.
    - destruct (attisdropped attr); [apply IH|].
      destruct (Z.ltb_spec (attnum attr) 0); [|lia]. apply IH. }
  split; [apply Hskip|].
  intros rest. unfold tuple_to_stringinfo.
  by rewrite tuple_to_stringinfo_from_app, Hskip.
Qed.

(** X14: a NULL column is printed as "(null)" and a varlena column whose
    value is stored externally on disk as "(unchanged-toast-datum)"; in
    neither case is the value detoasted or given to the type's output
    function, so those cannot make the printing fail. Stated for the last
    column of a descriptor. *)
Theorem tuple_to_stringinfo_unfetched_values s pre attr tuple text ty typoutput
    typisvarlena :
  tuple_to_stringinfo env s pre tuple = Ok text →
  attisdropped attr = false → (0 ≤ attnum attr)%Z →
  TYPEOID env !! atttypid attr = Some ty →
  getTypeOutputInfo env (atttypid attr) = Ok (typoutput, typisvarlena) →
  (t_cols tuple !! length pre = None ∨ t_cols tuple !! length pre = Some None →
   tuple_to_stringinfo env s (pre ++ [attr]) tuple =
     Ok (text +:+ " " +:+ attname attr +:+ "[" +:+ typname ty +:+ "]" +:+ ":" +:+
         "(null)")) ∧
  (∀ origval,
     t_cols tuple !! length pre = Some (Some origval) →
     typisvarlena = true → VARATT_IS_EXTERNAL_ONDISK env origval = true →
     tuple_to_stringinfo env s (pre ++ [attr]) tuple =
       Ok (text +:+ " " +:+ attname attr +:+ "[" +:+ typname ty +:+ "]" +:+ ":" +:+
           "(unchanged-toast-datum)")).
Proof.
  intros Hpre Hdrop Hnum Hty Hout. unfold tuple_to_stringinfo in *.
  rewrite tuple_to_stringinfo_from_app, Hpre.
  cbv beta iota delta [mbind result_bind].
  cbn [tuple_to_stringinfo_from Nat.add]. unfold tuple_to_stringinfo_att.
  rewrite Hdrop, Hty, Hout.
  destruct (Z.ltb_spec (attnum attr) 0); [lia|].
  cbv beta iota delta [mbind result_bind]. unfold heap_getattr.
  replace (length pre + 1 - 1)%nat with (length pre) by lia.
  split.
  - intros [-> | ->]; by rewrite !string_app_assoc.
  - intros origval -> -> ->. cbn [andb]. by rewrite !string_app_assoc.
Qed.

(** X15: among the five conflict types the server-log sink reports, the
    line it writes tells the type: two records whose key tuples render and
    which produce the same log, starting from the same one, have the same
    conflict type. *)
Theorem serverlog_line_tells_conflict_type c1 c2 st st' :
  conflict_type c1 ≠ BdrConflictType_UnhandledTxAbort →
  conflict_type c2 ≠ BdrConflictType_UnhandledTxAbort →
  bdr_conflict_log_serverlog env c1 st = Ok st' →
  bdr_conflict_log_serverlog env c2 st = Ok st' →
  conflict_type c1 = conflict_type c2.
Proof.
  intros H1 H2. rewrite !bdr_conflict_log_serverlog_pkey.
  destruct (pkey_text env c1) as [k1|]; [|done].
  destruct (pkey_text env c2) as [k2|]; [|done].
  cbv beta iota delta [mbind result_bind].
  generalize (BDR_NODEID_FORMAT_WITHNAME env (local_tuple_origin_node c1)).
  generalize (BDR_NODEID_FORMAT_WITHNAME env (local_tuple_origin_node c2)).
  generalize (bdr_conflict_resolution_get_name (conflict_resolution c1)).
  generalize (bdr_conflict_resolution_get_name (conflict_resolution c2)).
  intros r2 r1 n2 n1.
  destruct (conflict_type c1), (conflict_type c2); try done;
    intros [= <-]; unfold ereport_LOG; intros [= Hlog];
    apply app_inv_head in Hlog; exfalso;
    cbv in Hlog; congruence.
Qed.

End Rendering.

(** ** More on the keyed row lookup *)

Section LookupMore.

Local Open Scope list_scope.

Ltac pass_split lock p :=
  unfold find_pkey_tuple_pass;
  destruct (getnext p) as [[tuple xmin xmax]|] eqn:Hget;
  cbn [snap_xmin snap_xmax hit_tuple];
  [ destruct (TransactionIdIsValid xmin) eqn:Hxmin; rewrite ?Hxmin;
    [ | destruct (TransactionIdIsValid xmax) eqn:Hxmax; rewrite ?Hxmax ] | ];
  destruct lock; destruct (lock_result p) eqn:Hlock; cbn.


Lemma count_cons c x l :
  count c (x :: l) = ((if decide (x = c) then 1 else 0) + count c l)%nat.
Proof. unfold count. rewrite filter_cons. by destruct (decide (x = c)). Qed.

Lemma count_nil c : count c [] = 0%nat.
Proof. done. Qed.

Ltac count_calls :=
  rewrite ?count_cons, ?count_nil;
  repeat match goal with
         | |- context [decide (?x = ?c)] =>
             first [ rewrite (decide_True (P := x = c)) by reflexivity
                   | rewrite (decide_False (P := x = c)) by discriminate ]
         end.

Lemma find_pkey_tuple_loop_balanced script : ∀ lock slot r slot' calls,
  find_pkey_tuple_loop lock script slot = Some (r, slot', calls) →
  count index_beginscan calls =
    (count index_endscan calls + if r is Ok _ then 0 else 1)%nat ∧
  count PushActiveSnapshot calls = count PopActiveSnapshot calls.
Proof.
  induction script as [|p rest IH]; intros lock slot r slot' calls; [done|].
  cbn [find_pkey_tuple_loop].
  pass_split lock p;
    try (intros [= <- <- <-]; split; count_calls; reflexivity);
    (destruct (find_pkey_tuple_loop _ rest _) as [[[r0 s0] c0]|] eqn:Hrest;
     [|done]; cbn; intros [= <- <- <-];
     destruct (IH _ _ _ _ _ Hrest) as [IHscan IHsnap];
     split; count_calls; lia).
Qed.

(** X16: a run of find_pkey_tuple that returns has ended every index scan
    it began; a run that leaves with the "unexpected TM_Result" error has
    begun one scan more than it ended. Either way every snapshot pushed for
    locking was popped. *)
Theorem find_pkey_tuple_scans_balanced lock script slot r slot' calls :
  find_pkey_tuple lock script slot = Some (r, slot', calls) →
  count index_beginscan calls =
    (count index_endscan calls + if r is Ok _ then 0 else 1)%nat ∧
  count PushActiveSnapshot calls = count PopActiveSnapshot calls.
Proof.
  unfold find_pkey_tuple.
  destruct (find_pkey_tuple_loop lock script slot) as [[[r0 s0] c0]|] eqn:Hloop;
    [|done].
  cbn. intros [= <- <- <-].
  destruct (find_pkey_tuple_loop_balanced _ _ _ _ _ _ Hloop) as [Hscan Hsnap].
  split; count_calls; lia.
Qed.

Lemma find_pkey_tuple_loop_unlocked script : ∀ slot r slot' calls,
  find_pkey_tuple_loop false script slot = Some (r, slot', calls) →
  (∃ found, r = Ok found) ∧
  (∀ res, count (heap_lock_tuple res) calls = 0%nat) ∧
  count PushActiveSnapshot calls = 0%nat.
Proof.
  induction script as [|p rest IH]; intros slot r slot' calls; [done|].
  cbn [find_pkey_tuple_loop].
  unfold find_pkey_tuple_pass. cbn [andb].
  destruct (getnext p) as [[tuple xmin xmax]|];
    cbn [snap_xmin snap_xmax hit_tuple].
  - destruct (TransactionIdIsValid (if TransactionIdIsValid xmin then xmin else xmax)).
    + destruct (find_pkey_tuple_loop false rest _) as [[[r0 s0] c0]|] eqn:Hrest;
        [|done].
      cbn. intros [= <- <- <-].
      destruct (IH _ _ _ _ Hrest) as (Hr & Hlocks & Hpush).
      split; [done|]. split; [intros res; specialize (Hlocks res)|];
        count_calls; lia.
    + cbn. intros [= <- <- <-]. split; [by eexists|].
      split; [intros res|]; count_calls; reflexivity.
  - cbn. intros [= <- <- <-]. split; [by eexists|].
    split; [intros res|]; count_calls; reflexivity.
Qed.

(** X17: without [lock], find_pkey_tuple never calls heap_lock_tuple and
    never pushes a snapshot, and so never reaches its own elog(ERROR) for an
    unexpected lock result: a run whose calls all return ends in a return,
    with whether a row was found. *)
Theorem find_pkey_tuple_without_lock script slot r slot' calls :
  find_pkey_tuple false script slot = Some (r, slot', calls) →
  (∃ found, r = Ok found) ∧
  (∀ res, count (heap_lock_tuple res) calls = 0%nat) ∧
  count PushActiveSnapshot calls = 0%nat.
Proof.
  unfold find_pkey_tuple.
  destruct (find_pkey_tuple_loop false script slot) as [[[r0 s0] c0]|] eqn:Hloop;
    [|done].
  cbn. intros [= <- <- <-].
  destruct (find_pkey_tuple_loop_unlocked _ _ _ _ _ Hloop) as (Hr & Hlocks & Hpush).
  split; [done|]. split; [intros res; specialize (Hlocks res)|];
    count_calls; lia.
Qed.




End LookupMore.

(** ** Scan keys *)

Section ScanKeyBuilding.

Import Mem ScanKeys ScanKeySpec.
Local Open Scope list_scope.

Context (cat : Catalog) (rel : TupleDesc) (tup : BDRTupleData).

Lemma partial_bind_Done {A B} (m : Partial A) (k : A → Partial B) b :
  (m ≫= k) = Done b → ∃ a, m = Done a ∧ k a = Done b.
Proof. destruct m; cbn; [eauto|done..]. Qed.

Lemma load_Done {A} (a : list A) i x :
  load a i = Done x → (0 ≤ i)%Z ∧ a !! Z.to_nat i = Some x.
Proof.
  unfold load. case_decide; [|done].
  destruct (a !! Z.to_nat i) eqn:E; [|done]. by intros [= ->].
Qed.

Lemma load_via_Done {A} (p : option (list A)) i x :
  load_via p i = Done x → ∃ a, p = Some a ∧ (0 ≤ i)%Z ∧ a !! Z.to_nat i = Some x.
Proof.
  destruct p as [a|]; [|done]. cbn. intros H%load_Done. eauto.
Qed.

Lemma store_Done {A} (a : list A) i x a' :
  store a i x = Done a' → (i < length a)%nat ∧ a' = <[i := x]> a.
Proof. unfold store. case_decide; [|done]. by intros [= <-]. Qed.

Lemma lift_Done {A} (r : Result A) a : lift r = Done a → r = Ok a.
Proof. destruct r; [|done]. by intros [= ->]. Qed.

Tactic Notation "bind_inv" hyp(H) "as" ident(a) ident(E) :=
  apply partial_bind_Done in H as (a & E & H).

Lemma build_index_scan_key_att_Done idxrel attoff skey h skey' h' :
  build_index_scan_key_att cat rel (indclass idxrel) (indkey idxrel) tup attoff (skey, h)
    = Done (skey', h') →
  (attoff < length skey)%nat ∧
  ∃ arg null key,
    key_column tup idxrel attoff = Some (arg, null) ∧
    equality_key attoff arg null key ∧
    skey' = <[attoff := Some key]> skey ∧
    h' = (if null then true else h).
Proof.
  unfold build_index_scan_key_att. intros H.
  bind_inv H as mainattno Hmain.
  apply load_via_Done in Hmain as (ik & Hik & _ & Hmain).
  rewrite Nat2Z.id in Hmain.
  bind_inv H as atttype Htype. bind_inv H as opc Hopc.
  bind_inv H as optype Hoptype. bind_inv H as opfamily Hfamily.
  case_decide; [done|].
  bind_inv H as arg Harg. apply load_Done in Harg as [Hpos Harg].
  bind_inv H as init Hinit. destruct init as [skey1 key].
  unfold ScanKeyInit in Hinit.
  bind_inv Hinit as skey2 Hstore. apply store_Done in Hstore as [Hlen ->].
  destruct (fmgr_info cat _) as [[]|]; [|done]. cbn in Hinit.
  injection Hinit as <- <-.
  bind_inv H as null Hnull. apply load_Done in Hnull as [_ Hnull].
  split; [done|].
  assert (Hcol : key_column tup idxrel attoff = Some (arg, null)).
  { unfold key_column. rewrite Hik. cbn. rewrite Hmain. cbn.
    rewrite decide_True by lia. rewrite Harg. cbn. by rewrite Hnull. }
  destruct null.
  - bind_inv H as skey3 Hstore. apply store_Done in Hstore as [_ ->].
    injection H as <- <-.
    rewrite list_insert_insert_eq.
    eexists _, true, _. split; [done|]. split; [|split; reflexivity].
    by repeat split.
  - injection H as <- <-.
    eexists _, false, _. split; [done|]. split; [|split; reflexivity].
    by repeat split.
Qed.

Lemma build_index_scan_key_loop_Done idxrel n : ∀ from skey h skey' h',
  build_index_scan_key_loop cat rel (indclass idxrel) (indkey idxrel) tup n from (skey, h)
    = Done (skey', h') →
  length skey' = length skey ∧
  (n = 0 ∨ from + n ≤ length skey)%nat ∧
  (∀ j, (j < from ∨ from + n ≤ j)%nat → skey' !! j = skey !! j) ∧
  (∀ j, (from ≤ j < from + n)%nat →
     ∃ arg null key,
       key_column tup idxrel j = Some (arg, null) ∧
       equality_key j arg null key ∧
       skey' !! j = Some (Some key)) ∧
  (h' = true ↔
     h = true ∨ ∃ j arg, (from ≤ j < from + n)%nat ∧
                         key_column tup idxrel j = Some (arg, true)).
Proof.
  induction n as [|n IH]; intros from skey h skey' h'; cbn [build_index_scan_key_loop].
  - intros [= <- <-]. split; [done|]. split; [by left|]. split; [done|].
    split; [intros j ?; lia|]. split; [by left|].
    intros [?|(j & ? & ? & _)]; [done|lia].
  - intros H. bind_inv H as acc Hatt. destruct acc as [skey1 h1].
    apply build_index_scan_key_att_Done in Hatt
      as (Hlen & arg & null & key & Hcol & Hkey & -> & ->).
    apply IH in H as (Hlen' & Hbound & Hframe & Hkeys & Hnulls).
    rewrite length_insert in Hlen', Hbound.
    split; [done|]. split; [right; lia|].
    split.
    { intros j Hj. rewrite Hframe by lia.
      apply list_lookup_insert_ne. lia. }
    split.
    { intros j Hj. destruct (decide (j = from)) as [->|Hne].
      - exists arg, null, key. split; [done|]. split; [done|].
        rewrite Hframe by lia. by apply list_lookup_insert_eq.
      - apply Hkeys. lia. }
    rewrite Hnulls. split.
    + intros [Hh|(j & a & Hj & Hc)].
      * destruct null; [|by left]. right. exists from, arg. split; [lia|done].
      * right. exists j, a. split; [lia|done].
    + intros [->|(j & a & Hj & Hc)].
      * left. by destruct null.
      * destruct (decide (j = from)) as [->|Hne].
        -- left. rewrite Hcol in Hc. by injection Hc as _ ->.
        -- right. exists j, a. split; [lia|done].
Qed.

Lemma build_index_scan_key_Done idxrel skey skey' hasnulls :
  build_index_scan_key cat skey rel idxrel tup = Done (skey', hasnulls) →
  build_index_scan_key_loop cat rel (indclass idxrel) (indkey idxrel) tup
    (relnatts idxrel) 0 (skey, false) = Done (skey', hasnulls).
Proof.
  unfold build_index_scan_key. intros H.
  bind_inv H as u1 H1. by bind_inv H as u2 H2.
Qed.

(** X19: when build_index_scan_key returns, [skey] holds for every column
    of the index an equality key on that column whose argument is the
    tuple's value of the table column behind it, flagged SK_ISNULL exactly
    if the tuple has a NULL there; the rest of [skey] is as it was. *)
Theorem build_index_scan_key_keys idxrel skey skey' hasnulls :
  build_index_scan_key cat skey rel idxrel tup = Done (skey', hasnulls) →
  length skey' = length skey ∧
  (∀ j, (relnatts idxrel ≤ j)%nat → skey' !! j = skey !! j) ∧
  ∀ attoff, (attoff < relnatts idxrel)%nat →
    ∃ arg null key,
      key_column tup idxrel attoff = Some (arg, null) ∧
      equality_key attoff arg null key ∧
      skey' !! attoff = Some (Some key).
Proof.
  intros H%build_index_scan_key_Done.
  apply build_index_scan_key_loop_Done in H as (Hlen & _ & Hframe & Hkeys & _).
  split; [done|]. split.
  - intros j Hj. apply Hframe. lia.
  - intros attoff Hatt. apply Hkeys. lia.
Qed.

(** X20: build_index_scan_key returns true exactly if the tuple is NULL
    in some key column of the index. *)
Theorem build_index_scan_key_hasnulls idxrel skey skey' hasnulls :
  build_index_scan_key cat skey rel idxrel tup = Done (skey', hasnulls) →
  hasnulls = true ↔ has_null_key tup idxrel.
Proof.
  intros H%build_index_scan_key_Done.
  apply build_index_scan_key_loop_Done in H as (_ & _ & _ & _ & Hnulls).
  rewrite Hnulls. unfold has_null_key. split.
  - intros [?|(j & a & Hj & Hc)]; [done|]. exists j, a. split; [lia|done].
  - intros (j & a & Hj & Hc). right. exists j, a. split; [lia|done].
Qed.

Lemma build_index_scan_key_att_returns idxrel attoff skey h :
  (attoff < length skey)%nat →
  column_resolves cat rel idxrel attoff →
  is_Some (key_column tup idxrel attoff) →
  ∃ skey' h',
    build_index_scan_key_att cat rel (indclass idxrel) (indkey idxrel) tup attoff (skey, h)
      = Done (skey', h') ∧
    length skey' = length skey.
Proof.
  intros Hlen (ik & oc & mainattno & opc & atttype & optype & opfamily &
               Hik & Hmain & Hoc & Hopc & Htype & Hoptype & Hfamily & Hop & Hfn)
         [[arg null] Hcol].
  unfold key_column in Hcol. rewrite Hik in Hcol. cbn in Hcol.
  rewrite Hmain in Hcol. cbn in Hcol. case_decide as Hpos; [|done].
  destruct (values tup !! Z.to_nat (mainattno - 1)) as [v|] eqn:Hv; [|done].
  cbn in Hcol.
  destruct (isnull tup !! Z.to_nat (mainattno - 1)) as [b|] eqn:Hb; [|done].
  injection Hcol as -> ->.
  unfold build_index_scan_key_att, ScanKeyInit, load, store.
  rewrite Hik, Hoc.
  repeat first
    [ progress cbn [mbind partial_bind result_bind lift load_via]
    | progress unfold load, store
    | rewrite Nat2Z.id | rewrite Hmain | rewrite Hopc | rewrite Htype
    | rewrite Hoptype | rewrite Hfamily | rewrite Hv | rewrite Hb | rewrite Hfn
    | rewrite length_insert
    | rewrite decide_True by lia
    | rewrite (decide_False (P := _ = InvalidOid)) by done ].
  destruct null.
  - eexists _, _. split; [reflexivity|]. by rewrite !length_insert.
  - eexists _, _. split; [reflexivity|]. by rewrite length_insert.
Qed.

Lemma build_index_scan_key_loop_returns idxrel n : ∀ from skey h,
  (from + n ≤ length skey)%nat →
  (∀ attoff, (from ≤ attoff < from + n)%nat →
     column_resolves cat rel idxrel attoff ∧
     is_Some (key_column tup idxrel attoff)) →
  ∃ skey' h',
    build_index_scan_key_loop cat rel (indclass idxrel) (indkey idxrel) tup n from (skey, h)
      = Done (skey', h').
Proof.
  induction n as [|n IH]; intros from skey h Hlen Hcols;
    cbn [build_index_scan_key_loop]; [by eexists _, _|].
  destruct (Hcols from) as [Hres Hcol]; [lia|].
  destruct (build_index_scan_key_att_returns idxrel from skey h)
    as (skey1 & h1 & -> & Hlen1); [lia|done|done|].
  cbn [mbind partial_bind]. apply IH; [lia|].
  intros attoff Hatt. apply Hcols. lia.
Qed.

(** X21: build_index_scan_key returns, with no error and no access outside
    an array, when [skey] has room for the columns of the index, the
    pg_index row has its [indclass] and [indkey], the catalog resolves each
    column to an equality operator with its function, and the tuple has the
    table column behind each index column. *)
Theorem build_index_scan_key_returns idxrel skey :
  (relnatts idxrel ≤ length skey)%nat →
  is_Some (indclass idxrel) → is_Some (indkey idxrel) →
  (∀ attoff, (attoff < relnatts idxrel)%nat →
     column_resolves cat rel idxrel attoff ∧
     is_Some (key_column tup idxrel attoff)) →
  ∃ skey' hasnulls,
    build_index_scan_key cat skey rel idxrel tup = Done (skey', hasnulls).
Proof.
  intros Hlen Hclass Hkey Hcols. unfold build_index_scan_key, Assert.
  rewrite !bool_decide_eq_true_2 by done. rewrite !andb_false_r.
  cbn [lift mbind partial_bind].
  apply build_index_scan_key_loop_returns; [lia|].
  intros attoff Hatt. apply Hcols. lia.
Qed.

End ScanKeyBuilding.

Section ScanKeysPerIndex.

Import Mem ScanKeys ScanKeySpec.
Local Open Scope list_scope.

Context (cat : Catalog) (relinfo : ResultRelInfo) (tup : BDRTupleData).

Tactic Notation "bind_inv" hyp(H) "as" ident(a) ident(E) :=
  apply partial_bind_Done in H as (a & E & H).

Lemma build_index_scan_keys_index_Done i keys keys' :
  build_index_scan_keys_index cat relinfo tup i keys = Done keys' →
  (i < length keys)%nat ∧
  ∃ ii entry,
    ri_IndexRelationInfo relinfo !! i = Some ii ∧
    keys' = <[i := entry]> keys ∧
    if eligible ii then
      ∃ idxrel skey hasnulls,
        ri_IndexRelationDescs relinfo !! i = Some idxrel ∧
        build_index_scan_key cat (replicate (ii_NumIndexAttrs ii) None)
          (ri_RelationDesc relinfo) idxrel tup = Done (skey, hasnulls) ∧
        entry = (if hasnulls : bool then None else Some skey)
    else entry = None.
Proof.
  unfold build_index_scan_keys_index, eligible. intros H.
  bind_inv H as ii Hii. apply load_Done in Hii as [_ Hii].
  rewrite Nat2Z.id in Hii.
  destruct (ii_Unique ii) eqn:Hu; cbn [negb orb andb] in *.
  - destruct (bool_decide (ii_Expressions ii = [])) eqn:He; cbn [negb] in *.
    + bind_inv H as keys1 Hstore. apply store_Done in Hstore as [Hlen ->].
      bind_inv H as idxrel Hidx. apply load_Done in Hidx as [_ Hidx].
      rewrite Nat2Z.id in Hidx.
      bind_inv H as acc Hkey. destruct acc as [skey hasnulls].
      split; [done|].
      exists ii, (if hasnulls then None else Some skey).
      rewrite Hu, He. cbn [andb].
      split; [done|]. split.
      * destruct hasnulls; apply store_Done in H as [_ ->];
          by rewrite list_insert_insert_eq.
      * by exists idxrel, skey, hasnulls.
    + apply store_Done in H as [Hlen ->]. split; [done|]. exists ii, None.
      by rewrite Hu, He.
  - apply store_Done in H as [Hlen ->]. split; [done|]. exists ii, None.
    by rewrite Hu.
Qed.

Lemma build_index_scan_keys_loop_Done n : ∀ from keys keys',
  build_index_scan_keys_loop cat relinfo tup n from keys = Done keys' →
  length keys' = length keys ∧
  (∀ i, (i < from ∨ from + n ≤ i)%nat → keys' !! i = keys !! i) ∧
  ∀ i, (from ≤ i < from + n)%nat →
    ∃ ii entry,
      ri_IndexRelationInfo relinfo !! i = Some ii ∧
      keys' !! i = Some entry ∧
      if eligible ii then
        ∃ idxrel skey hasnulls,
          ri_IndexRelationDescs relinfo !! i = Some idxrel ∧
          build_index_scan_key cat (replicate (ii_NumIndexAttrs ii) None)
            (ri_RelationDesc relinfo) idxrel tup = Done (skey, hasnulls) ∧
          entry = (if hasnulls : bool then None else Some skey)
      else entry = None.
Proof.
  induction n as [|n IH]; intros from keys keys'; cbn [build_index_scan_keys_loop].
  - intros [= <-]. split; [done|]. split; [done|]. intros i ?; lia.
  - intros H. bind_inv H as keys1 Hone.
    apply build_index_scan_keys_index_Done in Hone
      as (Hlen & ii & entry & Hii & -> & Hentry).
    apply IH in H as (Hlen' & Hframe & Hrest).
    rewrite length_insert in Hlen'.
    split; [done|]. split.
    + intros i Hi. rewrite Hframe by lia. apply list_lookup_insert_ne. lia.
    + intros i Hi. destruct (decide (i = from)) as [->|Hne].
      * exists ii, entry. split; [done|]. split; [|done].
        rewrite Hframe by lia. by apply list_lookup_insert_eq.
      * apply Hrest. lia.
Qed.

(** X22: when build_index_scan_keys returns, [scan_keys] has an entry for
    each of the relation's indexes and is unchanged beyond them. The entry
    is NULL exactly for an index that is not unique, has expression
    columns, or has a key column in which the tuple is NULL; any other
    entry holds one equality key for each column of the index, on the
    tuple's value of that column, and none of them is flagged SK_ISNULL. *)
Theorem build_index_scan_keys_entries scan_keys scan_keys' :
  build_index_scan_keys cat relinfo scan_keys tup = Done scan_keys' →
  length scan_keys' = length scan_keys ∧
  (∀ i, (ri_NumIndices relinfo ≤ i)%nat → scan_keys' !! i = scan_keys !! i) ∧
  ∀ i, (i < ri_NumIndices relinfo)%nat →
    ∃ ii, ri_IndexRelationInfo relinfo !! i = Some ii ∧
      match scan_keys' !! i with
      | Some None =>
          eligible ii = false ∨
          ∃ idxrel, ri_IndexRelationDescs relinfo !! i = Some idxrel ∧
                    has_null_key tup idxrel
      | Some (Some skey) =>
          eligible ii = true ∧
          ∃ idxrel,
            ri_IndexRelationDescs relinfo !! i = Some idxrel ∧
            ¬ has_null_key tup idxrel ∧
            length skey = ii_NumIndexAttrs ii ∧
            ∀ attoff, (attoff < relnatts idxrel)%nat →
              ∃ arg key,
                key_column tup idxrel attoff = Some (arg, false) ∧
                equality_key attoff arg false key ∧
                skey !! attoff = Some (Some key)
      | None => False
      end.
Proof.
  unfold build_index_scan_keys. intros H.
  apply build_index_scan_keys_loop_Done in H as (Hlen & Hframe & Hentries).
  split; [done|]. split.
  - intros i Hi. apply Hframe. lia.
  - intros i Hi. destruct (Hentries i) as (ii & entry & Hii & -> & Hentry); [lia|].
    exists ii. split; [done|].
    destruct (eligible ii); [|subst entry; by left].
    destruct Hentry as (idxrel & skey & hasnulls & Hidx & Hkey & ->).
    pose proof (build_index_scan_key_Done _ _ _ _ _ _ _ Hkey) as Hloop.
    apply build_index_scan_key_loop_Done in Hloop
      as (Hlen' & _ & _ & Hkeys & Hnulls).
    rewrite length_replicate in Hlen'.
    assert (Hiff : hasnulls = true ↔ has_null_key tup idxrel).
    { rewrite Hnulls. unfold has_null_key. split.
      - intros [?|(j & a & Hj & Hc)]; [done|]. exists j, a. split; [lia|done].
      - intros (j & a & Hj & Hc). right. exists j, a. split; [lia|done]. }
    destruct hasnulls.
    + right. exists idxrel. split; [done|]. by apply Hiff.
    + split; [done|]. exists idxrel. split; [done|].
      split. { intros Hn. apply Hiff in Hn. done. }
      split; [done|].
      intros attoff Hatt.
      destruct (Hkeys attoff) as (arg & null & key & Hcol & Hk & Hat); [lia|].
      destruct null.
      * exfalso. assert (false = true); [|done].
        apply Hiff. exists attoff, arg. done.
      * by exists arg, key.
Qed.

End ScanKeysPerIndex.

(** ** The ExecutorStart hook *)

Section ExecutorStartHook.

Import Mem ExecutorStart ExecutorStartSpec.
Local Open Scope list_scope.

Context (s : Session).

Lemma read_only_node_true ro :
  bdr_local_node_read_only s = Ok ro →
  ro && negb (bdr_permit_unsafe_commands s) = true ↔ read_only_node s.
Proof.
  intros Hro. unfold read_only_node. rewrite Hro.
  destruct ro, (bdr_permit_unsafe_commands s); cbn; split;
    try done; try (by intros [? ?]); by intros [[= ?] ?].
Qed.

Lemma read_only_node_false ro :
  bdr_local_node_read_only s = Ok ro →
  ro && negb (bdr_permit_unsafe_commands s) = false ↔ ¬ read_only_node s.
Proof.
  intros Hro. rewrite <- (read_only_node_true ro Hro).
  by destruct (ro && negb (bdr_permit_unsafe_commands s)).
Qed.

Lemma OidIsValid_true oid : OidIsValid oid = true ↔ oid ≠ InvalidOid.
Proof.
  unfold OidIsValid. rewrite negb_true_iff, bool_decide_eq_false. done.
Qed.

Lemma result_relation_load ps rtei rel :
  result_relation s ps rtei = Some rel ↔
  ∃ rte, load (rtable ps) (rtei - 1) = Done rte ∧
         RelationIdGetRelation s (relid rte) = Some rel.
Proof.
  unfold result_relation, load. split.
  - case_decide; [|done]. rewrite decide_True by lia.
    destruct (rtable ps !! Z.to_nat (rtei - 1)) as [rte|]; [|done].
    cbn. eauto.
  - intros (rte & Hload & Hrel). case_decide; [|done].
    rewrite decide_True by lia.
    destruct (rtable ps !! Z.to_nat (rtei - 1)) as [rte'|]; [|done].
    injection Hload as ->. done.
Qed.


Lemma check_result_relation_admissible ro ps rtei :
  bdr_local_node_read_only s = Ok ro →
  admissible s ps rtei →
  check_result_relation s ps (ro && negb (bdr_permit_unsafe_commands s)) rtei = Done tt.
Proof.
  intros Hro (rel & Hrel & Hok).
  apply result_relation_load in Hrel as (rte & Hload & Hrel).
  unfold check_result_relation. rewrite Hload. cbn [mbind partial_bind].
  rewrite Hrel. cbn [deref mbind partial_bind].
  destruct (RelationNeedsWAL rel) eqn:Hwal; [|done]. cbn [negb].
  case_decide as Hns; [done|].
  destruct Hok as [[?|?]|[Hrw Hri]]; [congruence..|].
  apply (read_only_node_false ro Hro) in Hrw. rewrite Hrw.
  apply OidIsValid_true in Hri. by rewrite Hri.
Qed.

Lemma check_result_relation_offending ro ps rtei rel :
  bdr_local_node_read_only s = Ok ro →
  result_relation s ps rtei = Some rel →
  ¬ exempt rel →
  (read_only_node s →
   check_result_relation s ps (ro && negb (bdr_permit_unsafe_commands s)) rtei =
     Fail (ERROR (CreateWritableStmtTag s ps
                  +:+ " may only affect UNLOGGED or TEMPORARY tables on read-only BDR node; "
                  +:+ RelationGetRelationName rel +:+ " is a regular table"))) ∧
  (¬ read_only_node s → ¬ has_replica_identity s rel →
   check_result_relation s ps (ro && negb (bdr_permit_unsafe_commands s)) rtei =
     Fail (ERROR ("Cannot run UPDATE or DELETE on table "
                  +:+ RelationGetRelationName rel
                  +:+ " because it does not have a PRIMARY KEY."))).
Proof.
  intros Hro Hrel Hex.
  apply result_relation_load in Hrel as (rte & Hload & Hrel).
  unfold check_result_relation. rewrite Hload. cbn [mbind partial_bind].
  rewrite Hrel. cbn [deref mbind partial_bind].
  destruct (RelationNeedsWAL rel) eqn:Hwal; [|destruct Hex; by left].
  cbn [negb]. case_decide as Hns; [destruct Hex; by right|].
  split.
  - intros Hron%(read_only_node_true ro Hro). by rewrite Hron.
  - intros Hrw%(read_only_node_false ro Hro) Hri. rewrite Hrw.
    destruct (OidIsValid _) eqn:Hvalid; [|done].
    by apply OidIsValid_true in Hvalid.
Qed.


Lemma check_result_relations_first ro ps passed rtei rest f :
  bdr_local_node_read_only s = Ok ro →
  Forall (admissible s ps) passed →
  check_result_relation s ps (ro && negb (bdr_permit_unsafe_commands s)) rtei = Fail f →
  check_result_relations s ps (ro && negb (bdr_permit_unsafe_commands s))
    (passed ++ rtei :: rest) = Fail f.
Proof.
  intros Hro Hpassed Hone. induction Hpassed as [|r l Hr _ IH];
    cbn [app check_result_relations].
  - by rewrite Hone.
  - by rewrite (check_result_relation_admissible ro ps r Hro Hr).
Qed.

(** What is left of the checks once the hook has got as far as them. *)
Lemma BdrExecutorStart_checks_filtered queryDesc ro :
  filtered s queryDesc →
  bdr_local_node_read_only s = Ok ro →
  bdr_locks_check_dml s = Ok tt →
  ¬ dml_in_replicate_ddl_command s queryDesc →
  BdrExecutorStart_checks s queryDesc =
    if bool_decide (operation queryDesc = CMD_INSERT) then
      match plannedstmt queryDesc with
      | Some ps =>
          if negb (hasModifyingCTE ps)
             && negb (ro && negb (bdr_permit_unsafe_commands s))
          then Done tt
          else check_result_relations s ps
                 (ro && negb (bdr_permit_unsafe_commands s)) (resultRelations ps)
      | None => Fail NullDereference
      end
    else
      match plannedstmt queryDesc with
      | Some ps =>
          check_result_relations s ps
            (ro && negb (bdr_permit_unsafe_commands s)) (resultRelations ps)
      | None => Fail NullDereference
      end.
Proof.
  intros (Hallow & Horigin & Hwrites & Hactive) Hro Hlocks Hddl.
  unfold BdrExecutorStart_checks.
  rewrite Hallow, Horigin, Hwrites, Hactive, Hro, Hlocks.
  rewrite bool_decide_eq_true_2 by done.
  cbn [negb lift mbind partial_bind].
  assert (in_bdr_replicate_ddl_command s
          && bool_decide (bdr_extension_nestlevel s = 0%Z)
          && (bool_decide (operation queryDesc = CMD_INSERT)
              || bool_decide (operation queryDesc = CMD_UPDATE)
              || bool_decide (operation queryDesc = CMD_DELETE)) = false) as ->.
  { apply not_true_is_false. intros H. apply Hddl.
    apply andb_prop in H as [H Hop]. apply andb_prop in H as [Hin Hnest].
    split; [done|]. split; [by apply bool_decide_eq_true in Hnest|].
    apply orb_prop in Hop as [Hop|Hop];
      [apply orb_prop in Hop as [Hop|Hop]|];
      apply bool_decide_eq_true in Hop; auto. }
  destruct (bool_decide (operation queryDesc = CMD_INSERT));
    destruct (plannedstmt queryDesc) as [ps|]; cbn [deref mbind partial_bind];
    done.
Qed.

(** X23: BdrExecutorStart checks nothing, and goes straight to the previous
    hook or standard_ExecutorStart, when writes are always allowed, when the
    session replays changes of another node, when the statement does not
    write, or when the database is not BDR-activated. *)
Theorem executor_start_unfiltered queryDesc eflags :
  bdr_always_allow_writes s = true ∨
  replorigin_session_origin s ≠ InvalidRepOriginId ∨
  performs_writes queryDesc = false ∨
  bdr_is_bdr_activated_db s (MyDatabaseId s) = Ok false →
  BdrExecutorStart s queryDesc eflags = lift (BdrExecutorStart_done s queryDesc eflags).
Proof.
  intros H. unfold BdrExecutorStart, BdrExecutorStart_checks.
  destruct (bdr_always_allow_writes s); [done|].
  destruct (bool_decide (replorigin_session_origin s = InvalidRepOriginId)) eqn:Ho;
    [|done].
  apply bool_decide_eq_true in Ho.
  destruct (performs_writes queryDesc); [|done].
  destruct H as [?|[?|[?| -> ]]]; done.
Qed.


(** X25: take a statement that gets as far as the hook's checks (writes
    not always allowed, session not replaying, the statement writes,
    database BDR-activated), on a node for which bdr_local_node_read_only()
    returns and which does not count as read-only, with
    bdr_locks_check_dml() returning, and which is not DML run directly
    inside bdr.replicate_ddl_command. If it is a plain INSERT, it is let
    through without a look at its result relations, so also into a table
    that has no replica identity index. *)
Theorem plain_insert_is_admitted queryDesc eflags ro :
  filtered s queryDesc →
  bdr_local_node_read_only s = Ok ro →
  ¬ read_only_node s →
  bdr_locks_check_dml s = Ok tt →
  ¬ dml_in_replicate_ddl_command s queryDesc →
  plain_insert queryDesc →
  BdrExecutorStart s queryDesc eflags = lift (BdrExecutorStart_done s queryDesc eflags).
Proof.
  intros Hf Hro Hrw Hlocks Hddl (Hop & ps & Hps & Hcte).
  unfold BdrExecutorStart.
  rewrite (BdrExecutorStart_checks_filtered _ ro Hf Hro Hlocks Hddl).
  rewrite bool_decide_eq_true_2 by done. rewrite Hps, Hcte.
  apply (read_only_node_false ro Hro) in Hrw. by rewrite Hrw.
Qed.

(** X26: take a statement that gets as far as the hook's checks (writes
    not always allowed, session not replaying, the statement writes,
    database BDR-activated), with bdr_local_node_read_only() and
    bdr_locks_check_dml() returning. If it is an INSERT, UPDATE or DELETE
    run directly inside bdr.replicate_ddl_command (nest level 0), it is
    refused, whatever tables it writes. *)
Theorem replicate_ddl_command_rejects_dml queryDesc eflags ro :
  filtered s queryDesc →
  bdr_local_node_read_only s = Ok ro →
  bdr_locks_check_dml s = Ok tt →
  dml_in_replicate_ddl_command s queryDesc →
  BdrExecutorStart s queryDesc eflags =
    Fail (ERROR "row-data-modifying statements INSERT, UPDATE and DELETE are not permitted inside bdr.replicate_ddl_command").
Proof.
  intros (Hallow & Horigin & Hwrites & Hactive) Hro Hlocks (Hin & Hnest & Hop).
  unfold BdrExecutorStart, BdrExecutorStart_checks.
  rewrite Hallow, Horigin, Hwrites, Hactive, Hro, Hlocks, Hin, Hnest.
  rewrite !bool_decide_eq_true_2 by done.
  cbn [negb lift mbind partial_bind andb].
  destruct Hop as [ -> |[ -> | -> ]]; done.
Qed.

(** X27: take a statement that gets as far as the hook's checks (writes
    not always allowed, session not replaying, the statement writes,
    database BDR-activated), with bdr_local_node_read_only() and
    bdr_locks_check_dml() returning, that is not DML run directly inside
    bdr.replicate_ddl_command and is not a plain INSERT on a node that is
    not read-only. If the result relations before some relation are all
    admissible and that relation exists and is not exempt, it decides the
    error: on a read-only node the statement is refused with the name of
    that table as a regular table; on any other node it is refused, if the
    table has no replica identity index, for want of a PRIMARY KEY. *)
Theorem first_offending_relation_is_reported queryDesc eflags ro ps passed rtei rest rel :
  filtered s queryDesc →
  bdr_local_node_read_only s = Ok ro →
  bdr_locks_check_dml s = Ok tt →
  ¬ dml_in_replicate_ddl_command s queryDesc →
  ¬ (plain_insert queryDesc ∧ ¬ read_only_node s) →
  plannedstmt queryDesc = Some ps →
  resultRelations ps = passed ++ rtei :: rest →
  Forall (admissible s ps) passed →
  result_relation s ps rtei = Some rel →
  ¬ exempt rel →
  (read_only_node s →
   BdrExecutorStart s queryDesc eflags =
     Fail (ERROR (CreateWritableStmtTag s ps
                  +:+ " may only affect UNLOGGED or TEMPORARY tables on read-only BDR node; "
                  +:+ RelationGetRelationName rel +:+ " is a regular table"))) ∧
  (¬ read_only_node s → ¬ has_replica_identity s rel →
   BdrExecutorStart s queryDesc eflags =
     Fail (ERROR ("Cannot run UPDATE or DELETE on table "
                  +:+ RelationGetRelationName rel
                  +:+ " because it does not have a PRIMARY KEY."))).
Proof.
  intros Hf Hro Hlocks Hddl Hplain Hps Hrels Hpassed Hrel Hex.
  assert (Hchecks : BdrExecutorStart_checks s queryDesc =
            check_result_relations s ps
              (ro && negb (bdr_permit_unsafe_commands s)) (passed ++ rtei :: rest)).
  { rewrite (BdrExecutorStart_checks_filtered _ ro Hf Hro Hlocks Hddl).
    rewrite Hps, Hrels.
    destruct (bool_decide (operation queryDesc = CMD_INSERT)) eqn:Hop; [|done].
    destruct (negb (hasModifyingCTE ps) && _) eqn:Hshort; [|done].
    destruct Hplain. apply andb_prop in Hshort as [Hcte Hrw].
    apply negb_true_iff in Hcte, Hrw. apply bool_decide_eq_true in Hop.
    split; [split; [done|by exists ps]|]. by apply (read_only_node_false ro). }
  destruct (check_result_relation_offending ro ps rtei rel Hro Hrel Hex)
    as [Hreadonly Hnokey].
  unfold BdrExecutorStart. rewrite Hchecks. split.
  - intros Hron.
    by rewrite (check_result_relations_first ro ps passed rtei rest _ Hro Hpassed
                  (Hreadonly Hron)).
  - intros Hrw Hri.
    by rewrite (check_result_relations_first ro ps passed rtei rest _ Hro Hpassed
                  (Hnokey Hrw Hri)).
Qed.

End ExecutorStartHook.

(** ** More runs *)

Section MoreRuns.

Local Open Scope list_scope.

Lemma history_row_head_witness :
  ∃ row,
    bdr_conflict_log_table Demo.live Demo.update_conflict Demo.st0
      = Ok (logged row Demo.st0) ∧
    length row = 35%nat ∧
    row !! 0%nat = sql_value (Int64GetDatum 1) ∧
    row !! 8%nat = sql_value (TransactionIdGetDatum 900).
Proof.
  assert (∃ st', bdr_conflict_log_table Demo.live Demo.update_conflict Demo.st0
                 = Ok st') as [st' Hrun].
  { eexists. vm_compute. reflexivity. }
  destruct (history_row_head Demo.live Demo.update_conflict Demo.st0 st'
              eq_refl Hrun)
    as (row & -> & Hlen & H0 & _ & _ & _ & _ & _ & H8 & _).
  exists row. split; [exact Hrun|]. split; [exact Hlen|].
  split; [exact H0|exact H8].
Defined.

Lemma history_row_tuple_columns_witness :
  ∃ row,
    bdr_conflict_log_table Demo.live Demo.update_conflict Demo.st0
      = Ok (logged row Demo.st0) ∧
    row !! 13%nat = sql_value (JsonDatum "{row of type 16400}").
Proof.
  assert (∃ st', bdr_conflict_log_table Demo.live Demo.update_conflict Demo.st0
                 = Ok st') as [st' Hrun].
  { eexists. vm_compute. reflexivity. }
  destruct (history_row_tuple_columns Demo.live Demo.update_conflict Demo.st0 st'
              eq_refl Hrun)
    as (row & -> & (td & json & Htd & Hjson & H13) & _).
  exists row. split; [exact Hrun|].
  rewrite H13. f_equal. f_equal. f_equal.
  injection Htd as <-. vm_compute in Hjson. by injection Hjson as <-.
Defined.

Lemma history_row_without_error_witness :
  ∃ row,
    bdr_conflict_log_table Demo.live Demo.update_conflict Demo.st0
      = Ok (logged row Demo.st0) ∧
    row !! 5%nat = sql_text (Some "public") ∧
    row !! 6%nat = sql_text (Some "accounts") ∧
    (∀ i, (17 ≤ i < 30)%nat → row !! i = sql_null) ∧
    row !! 32%nat = sql_value (ObjectIdGetDatum 1).
Proof.
  assert (∃ st', bdr_conflict_log_table Demo.live Demo.update_conflict Demo.st0
                 = Ok st') as [st' Hrun].
  { eexists. vm_compute. reflexivity. }
  destruct (history_row_without_error Demo.live Demo.update_conflict Demo.st0 st'
              eq_refl eq_refl Hrun)
    as (row & -> & H5 & H6 & Herr & _ & _ & H32 & _).
  exists row. split; [exact Hrun|]. split; [exact H5|]. split; [exact H6|].
  split; [exact Herr|exact H32].
Defined.

Lemma table_sink_apply_error_shifts_columns_witness :
  ∃ f,
    form_history_tuple Demo.live Demo.node_a Demo.abort_conflict 1 = Ok f ∧
    attno f = 34%nat ∧
    cell f 27 = (Some (Int32GetDatum 841), Some false) ∧
    cell f 34 = untouched.
Proof.
  assert (∃ f, form_history_tuple Demo.live Demo.node_a Demo.abort_conflict 1
               = Ok f) as [f Hf].
  { eexists. vm_compute. reflexivity. }
  destruct (proj1 (table_sink_apply_error_shifts_columns Demo.live
                     Demo.abort_conflict Demo.abort_error eq_refl) _ _ _ Hf)
    as (Hattno & H27 & _ & H34).
  exists f. split; [exact Hf|]. split; [exact Hattno|].
  split; [exact H27|exact H34].
Defined.

Lemma table_sink_apply_error_fails_size_assertion_witness :
  bdr_conflict_log_table Demo.live Demo.abort_conflict Demo.st0
    = Raise (AssertFailure "attno == BDR_CONFLICT_HISTORY_COLS").
Proof.
  apply (table_sink_apply_error_fails_size_assertion Demo.live Demo.abort_conflict
           Demo.abort_error Demo.st0).
  - reflexivity.
  - reflexivity.
  - reflexivity.
  - reflexivity.
  - reflexivity.
  - vm_compute. discriminate.
  - vm_compute. discriminate.
  - left. reflexivity.
  - left. reflexivity.
Defined.

Lemma sinks_are_independent_witness :
  ∃ st',
    bdr_conflict_log_table Demo.live Demo.update_conflict Demo.st0 = Ok st' ∧
    server_log st' = [].
Proof.
  assert (∃ st', bdr_conflict_log_table Demo.live Demo.update_conflict Demo.st0
                 = Ok st') as [st' Hrun].
  { eexists. vm_compute. reflexivity. }
  exists st'. split; [exact Hrun|].
  exact (proj1 (proj2 (sinks_are_independent Demo.live Demo.update_conflict
                         Demo.st0)) st' Hrun).
Defined.

Lemma redacted_local_tuple_stops_both_sinks_witness :
  bdr_conflict_log_serverlog Demo.live_redacting Demo.redacted_conflict Demo.st0
    = Raise NullDereference ∧
  bdr_conflict_log_table Demo.live_redacting Demo.redacted_conflict Demo.st0
    = Raise NullDereference.
Proof.
  destruct (redacted_local_tuple_stops_both_sinks Demo.live_redacting
              BdrConflictType_UpdateUpdate
              BdrConflictResolution_LastUpdateWins_KeepRemote
              900%N (Some Demo.accounts_rel) Demo.accounts_slot
              InvalidRepOriginId (Some Demo.accounts_slot) 699999998000000%Z None
              Demo.redacted_conflict Demo.st0)
    as [Hlog Htable].
  - reflexivity.
  - vm_compute. reflexivity.
  - split; [exact Hlog|]. apply Htable.
    + reflexivity.
    + reflexivity.
    + reflexivity.
    + vm_compute. discriminate.
    + vm_compute. discriminate.
Defined.

Lemma builder_returns_iff_witness :
  is_Ok (bdr_make_apply_conflict Demo.live BdrConflictType_UpdateUpdate
           BdrConflictResolution_LastUpdateWins_KeepRemote
           900%N (Some Demo.accounts_rel) (Some Demo.accounts_slot)
           InvalidRepOriginId (Some Demo.accounts_slot) 699999998000000%Z None)
    = true.
Proof.
  apply builder_returns_iff. split; [|split].
  - eexists. vm_compute. reflexivity.
  - left. reflexivity.
  - intros _. left. vm_compute. discriminate.
Defined.

Lemma builder_local_side_witness :
  local_tuple_xmin Demo.redacted_conflict = 700%N.
Proof.
  apply (builder_local_side Demo.live_redacting
           BdrConflictType_UpdateUpdate
           BdrConflictResolution_LastUpdateWins_KeepRemote
           900%N (Some Demo.accounts_rel) (Some Demo.accounts_slot)
           InvalidRepOriginId (Some Demo.accounts_slot) 699999998000000%Z None
           Demo.redacted_conflict).
  vm_compute. reflexivity.
Defined.

Lemma builder_with_tuples_is_consistent_witness :
  (local_tuple_null Demo.update_conflict, local_tuple Demo.update_conflict) =
    (false, ExecFetchSlotHeapTupleDatum Demo.accounts_slot) ∧
  (remote_tuple_null Demo.update_conflict, remote_tuple Demo.update_conflict) =
    (false, ExecFetchSlotHeapTupleDatum Demo.accounts_slot).
Proof.
  apply (builder_with_tuples_is_consistent Demo.live
           BdrConflictType_UpdateUpdate
           BdrConflictResolution_LastUpdateWins_KeepRemote
           900%N (Some Demo.accounts_rel) (Some Demo.accounts_slot)
           InvalidRepOriginId (Some Demo.accounts_slot) 699999998000000%Z None
           Demo.update_conflict).
  - reflexivity.
  - vm_compute. reflexivity.
Defined.

Lemma builder_remote_side_from_session_witness :
  origin_registry Demo.live !! 1%N = Some (remote_node Demo.abort_conflict) ∧
  remote_commit_lsn Demo.abort_conflict = 50331648%N ∧
  object_name Demo.abort_conflict = None.
Proof.
  destruct (builder_remote_side_from_session Demo.live
              BdrConflictType_UnhandledTxAbort
              BdrConflictResolution_UnhandledTxAbort
              900%N None None InvalidRepOriginId None 0%Z (Some Demo.abort_error)
              Demo.abort_conflict)
    as (Hnode & _ & Hlsn & Hnone & _).
  - vm_compute. reflexivity.
  - split; [exact Hnode|]. split; [exact Hlsn|exact (proj2 (Hnone eq_refl))].
Defined.

Lemma tuple_to_stringinfo_skips_hidden_witness :
  tuple_to_stringinfo Demo.live "old:" Demo2.hidden_desc (tts_tuple Demo.accounts_slot)
    = Ok "old:".
Proof.
  apply (tuple_to_stringinfo_skips_hidden Demo.live "old:" Demo2.hidden_desc
           (tts_tuple Demo.accounts_slot)).
  constructor; [left; reflexivity|].
  constructor; [right; reflexivity|].
  constructor.
Defined.

Lemma tuple_to_stringinfo_unfetched_values_witness :
  tuple_to_stringinfo Demo.live "" Demo.accounts_desc Demo2.nameless_tuple
    = Ok (" id[int4]:42 name[text]:(null)").
Proof.
  apply (proj1 (tuple_to_stringinfo_unfetched_values Demo.live ""
                  [mkAttr "id" Demo.int4oid 1 false]
                  (mkAttr "name" Demo.textoid 2 false)
                  Demo2.nameless_tuple " id[int4]:42" (mkType "text")
                  Demo.textout true
                  ltac:(vm_compute; reflexivity) eq_refl ltac:(vm_compute; discriminate)
                  ltac:(vm_compute; reflexivity) eq_refl)).
  right. reflexivity.
Defined.

Lemma serverlog_line_tells_conflict_type_witness :
  remote_txid Demo.update_conflict = 900%N ∧
  remote_txid Demo2.retried_conflict = 901%N ∧
  conflict_type Demo.update_conflict = conflict_type Demo2.retried_conflict.
Proof.
  split; [reflexivity|]. split; [reflexivity|].
  assert (∃ st', bdr_conflict_log_serverlog Demo.live Demo.update_conflict Demo.st0
                 = Ok st') as [st' Hrun].
  { eexists. vm_compute. reflexivity. }
  apply (serverlog_line_tells_conflict_type Demo.live Demo.update_conflict
           Demo2.retried_conflict Demo.st0 st').
  - discriminate.
  - discriminate.
  - exact Hrun.
  - rewrite <- Hrun. vm_compute. reflexivity.
Defined.

Lemma find_pkey_tuple_scans_balanced_witness :
  ∃ slot calls,
    find_pkey_tuple true Demo.contended_script None = Some (Ok true, slot, calls) ∧
    count index_beginscan calls = (count index_endscan calls + 0)%nat ∧
    count PushActiveSnapshot calls = count PopActiveSnapshot calls.
Proof.
  eexists _, _. split; [vm_compute; reflexivity|].
  eapply (find_pkey_tuple_scans_balanced true Demo.contended_script None (Ok true)
            _ _).
  vm_compute. reflexivity.
Defined.

Lemma find_pkey_tuple_without_lock_witness :
  ∃ slot calls,
    find_pkey_tuple false Demo.contended_script None = Some (Ok true, slot, calls) ∧
    (∀ res, count (heap_lock_tuple res) calls = 0%nat) ∧
    count PushActiveSnapshot calls = 0%nat.
Proof.
  eexists _, _. split; [vm_compute; reflexivity|].
  eapply (find_pkey_tuple_without_lock Demo.contended_script None (Ok true) _ _).
  vm_compute. reflexivity.
Defined.


End MoreRuns.

Section ScanKeyRuns.

Import Mem ScanKeys ScanKeySpec.
Local Open Scope list_scope.

Lemma build_index_scan_key_keys_witness :
  ∃ skey key0 key1,
    build_index_scan_key Demo2.catalog [None; None] Demo2.notes_desc
      Demo2.notes_id_note_key Demo2.notes_tuple = Done (skey, true) ∧
    skey = [Some key0; Some key1] ∧
    equality_key 0 42 false key0 ∧ equality_key 1 0 true key1.
Proof.
  assert (∃ skey, build_index_scan_key Demo2.catalog [None; None] Demo2.notes_desc
                    Demo2.notes_id_note_key Demo2.notes_tuple = Done (skey, true))
    as [skey Hrun].
  { eexists. vm_compute. reflexivity. }
  destruct (build_index_scan_key_keys Demo2.catalog Demo2.notes_desc
              Demo2.notes_tuple Demo2.notes_id_note_key [None; None] skey true Hrun)
    as (Hlen & _ & Hkeys).
  destruct (Hkeys 0%nat) as (arg0 & null0 & key0 & Hcol0 & Hkey0 & Hat0);
    [vm_compute; lia|].
  destruct (Hkeys 1%nat) as (arg1 & null1 & key1 & Hcol1 & Hkey1 & Hat1);
    [vm_compute; lia|].
  injection Hcol0 as <- <-. injection Hcol1 as <- <-.
  exists skey, key0, key1. split; [exact Hrun|].
  split; [|split; [exact Hkey0|exact Hkey1]].
  destruct skey as [|k0 [|k1 [|k2 rest]]]; try discriminate Hlen.
  injection Hat0 as ->. injection Hat1 as ->. reflexivity.
Defined.

Lemma build_index_scan_key_hasnulls_witness :
  has_null_key Demo2.notes_tuple Demo2.notes_id_note_key.
Proof.
  assert (∃ skey, build_index_scan_key Demo2.catalog [None; None] Demo2.notes_desc
                    Demo2.notes_id_note_key Demo2.notes_tuple = Done (skey, true))
    as [skey Hrun].
  { eexists. vm_compute. reflexivity. }
  apply (build_index_scan_key_hasnulls Demo2.catalog Demo2.notes_desc
           Demo2.notes_tuple Demo2.notes_id_note_key [None; None] skey true Hrun).
  reflexivity.
Defined.

Lemma build_index_scan_key_returns_witness :
  ∃ skey hasnulls,
    build_index_scan_key Demo2.catalog [None; None] Demo2.notes_desc
      Demo2.notes_id_note_key Demo2.notes_tuple = Done (skey, hasnulls).
Proof.
  apply (build_index_scan_key_returns Demo2.catalog Demo2.notes_desc
           Demo2.notes_tuple Demo2.notes_id_note_key [None; None]).
  - vm_compute. lia.
  - by eexists.
  - by eexists.
  - intros [|[|attoff]] Hatt.
    + split; [|by eexists].
      eexists _, _, _, _, _, _, _.
      repeat (split; [vm_compute; reflexivity|]).
      split; [vm_compute; discriminate|vm_compute; reflexivity].
    + split; [|by eexists].
      eexists _, _, _, _, _, _, _.
      repeat (split; [vm_compute; reflexivity|]).
      split; [vm_compute; discriminate|vm_compute; reflexivity].
    + exfalso. vm_compute in Hatt. lia.
Defined.

Lemma build_index_scan_keys_entries_witness :
  ∃ key,
    build_index_scan_keys Demo2.catalog Demo2.notes_relinfo
      [None; None; None; None; Some []] Demo2.notes_tuple
      = Done [Some [Some key]; None; None; None; Some []] ∧
    equality_key 0 42 false key.
Proof.
  assert (∃ key, build_index_scan_keys Demo2.catalog Demo2.notes_relinfo
                   [None; None; None; None; Some []] Demo2.notes_tuple
                 = Done [Some [Some key]; None; None; None; Some []])
    as [key Hrun].
  { eexists. vm_compute. reflexivity. }
  exists key. split; [exact Hrun|].
  destruct (build_index_scan_keys_entries Demo2.catalog Demo2.notes_relinfo
              Demo2.notes_tuple _ _ Hrun) as (_ & _ & Hentries).
  destruct (Hentries 0%nat) as (ii & Hii & Hentry); [vm_compute; lia|].
  cbn in Hentry. destruct Hentry as (_ & idxrel & Hidx & _ & _ & Hkeys).
  injection Hidx as <-.
  destruct (Hkeys 0%nat) as (arg & key' & Hcol & Hkey & Hat); [vm_compute; lia|].
  injection Hcol as <-. by injection Hat as ->.
Defined.

End ScanKeyRuns.

Section ExecutorStartRuns.

Import Mem ExecutorStart ExecutorStartSpec.
Local Open Scope list_scope.

Lemma executor_start_unfiltered_witness :
  BdrExecutorStart Demo2.apply_session Demo2.update_journal 0 = Done tt.
Proof.
  apply (executor_start_unfiltered Demo2.apply_session Demo2.update_journal 0).
  right. left. discriminate.
Defined.


Lemma plain_insert_is_admitted_witness :
  BdrExecutorStart Demo2.user_session Demo2.insert_journal 0 = Done tt.
Proof.
  apply (plain_insert_is_admitted Demo2.user_session Demo2.insert_journal 0 false).
  - repeat split; reflexivity.
  - reflexivity.
  - intros [Hro _]. discriminate Hro.
  - reflexivity.
  - intros (Hin & _). discriminate Hin.
  - split; [reflexivity|]. eexists. split; reflexivity.
Defined.

Lemma replicate_ddl_command_rejects_dml_witness :
  BdrExecutorStart Demo2.ddl_command_session Demo2.insert_journal 0 =
    Fail (ERROR "row-data-modifying statements INSERT, UPDATE and DELETE are not permitted inside bdr.replicate_ddl_command").
Proof.
  apply (replicate_ddl_command_rejects_dml Demo2.ddl_command_session
           Demo2.insert_journal 0 false).
  - repeat split; reflexivity.
  - reflexivity.
  - reflexivity.
  - split; [reflexivity|]. split; [reflexivity|]. left. reflexivity.
Defined.

Lemma first_offending_relation_is_reported_witness :
  BdrExecutorStart Demo2.read_only_session Demo2.update_accounts 0 =
    Fail (ERROR "UPDATE may only affect UNLOGGED or TEMPORARY tables on read-only BDR node; accounts is a regular table") ∧
  BdrExecutorStart Demo2.user_session Demo2.update_journal 0 =
    Fail (ERROR "Cannot run UPDATE or DELETE on table journal because it does not have a PRIMARY KEY.").
Proof.
  split.
  - refine (proj1 (first_offending_relation_is_reported Demo2.read_only_session
                     Demo2.update_accounts 0 true _ [1%Z] 2%Z []
                     (mkRelation "accounts" 2200 true true 16395)
                     _ eq_refl eq_refl _ _ eq_refl eq_refl _ eq_refl _) _).
    + repeat split; reflexivity.
    + intros (Hin & _). discriminate Hin.
    + intros [[Hop _] _]. discriminate Hop.
    + constructor; [|constructor].
      eexists. split; [reflexivity|]. left. left. reflexivity.
    + intros [Hwal|Hns]; discriminate.
    + split; reflexivity.
  - refine (proj2 (first_offending_relation_is_reported Demo2.user_session
                     Demo2.update_journal 0 false _ [1%Z] 3%Z []
                     (mkRelation "journal" 2200 true true InvalidOid)
                     _ eq_refl eq_refl _ _ eq_refl eq_refl _ eq_refl _) _ _).
    + repeat split; reflexivity.
    + intros (Hin & _). discriminate Hin.
    + intros [[Hop _] _]. discriminate Hop.
    + constructor; [|constructor].
      eexists. split; [reflexivity|]. left. left. reflexivity.
    + intros [Hwal|Hns]; discriminate.
    + intros [Hro _]. discriminate Hro.
    + intros Hri. apply Hri. reflexivity.
Defined.

End ExecutorStartRuns.
